(** * updAPI fast scraper: a shallow embedding of [src/scrapers/fast-scraper.js]

    The scraper loads a catalog of API documentation URLs, asks each site's
    [robots.txt] whether it may be crawled, hands the allowed URLs to a
    crawler whose request handler stages one JSON file per API, and finally
    validates the staged files, moves the good ones into the dataset folder
    and deletes the [./storage] folder.

    The JavaScript is embedded as Rocq functions over an explicit world
    (file system, console, crawler queue, clock); exceptions are a result
    type; the Node and browser built-ins the script calls ([fs], [path],
    [fetch], [JSON.parse], [Date]) are modelled next to the code that uses
    them, after their documented behaviour. *)

From Stdlib Require Import Ascii String.
From stdpp Require Import gmap strings list fin_maps.

(** ** JavaScript strings *)

Module JsString.

(** [s.includes(pat)] *)
Fixpoint includes (s pat : string) : bool :=
  String.prefix pat s ||
  match s with
  | EmptyString => false
  | String _ s' => includes s' pat
  end.

(** [s.endsWith(suffix)] *)
Fixpoint endsWith (s suffix : string) : bool :=
  String.eqb s suffix ||
  match s with
  | EmptyString => false
  | String _ s' => endsWith s' suffix
  end.

(** [s.replace(/ /g, '_')] *)
Fixpoint replace_spaces (s : string) : string :=
  match s with
  | EmptyString => EmptyString
  | String c s' =>
      String (if Ascii.eqb c " "%char then "_"%char else c) (replace_spaces s')
  end.

(** [s.slice(-n)]: the last [n] characters, the whole string when it is
    shorter. *)
Definition slice_last (n : nat) (s : string) : string :=
  String.substring (String.length s - n) n s.

(** [s.padStart(n, '0')] *)
Fixpoint zeros (k : nat) : string :=
  match k with
  | O => EmptyString
  | S k' => String "0"%char (zeros k')
  end.

Definition padStart0 (n : nat) (s : string) : string :=
  zeros (n - String.length s) +:+ s.

(** [n.toString()] for a non-negative integer *)
Definition digit (d : nat) : ascii :=
  Ascii.ascii_of_nat (48 + d).

Fixpoint digits_fuel (fuel n : nat) (acc : string) : string :=
  match fuel with
  | O => acc
  | S fuel' =>
      let acc' := String (digit (n mod 10)) acc in
      if n / 10 =? 0 then acc' else digits_fuel fuel' (n / 10) acc'
  end.

Definition toString (n : nat) : string := digits_fuel (S n) n EmptyString.

(** Splitting at a separator character: [s.split(c)]. *)
Fixpoint split_go (c : ascii) (s cur : string) : list string :=
  match s with
  | EmptyString => [String.rev cur]
  | String a s' =>
      if Ascii.eqb a c then String.rev cur :: split_go c s' EmptyString
      else split_go c s' (String a cur)
  end.

Definition split (c : ascii) (s : string) : list string :=
  split_go c s EmptyString.

Fixpoint contains_char (c : ascii) (s : string) : bool :=
  match s with
  | EmptyString => false
  | String a s' => Ascii.eqb a c || contains_char c s'
  end.

(** Index of the last occurrence of a character, [s.lastIndexOf(c)]. *)
Fixpoint lastIndexOf_go (c : ascii) (s : string) (i : nat) (found : option nat)
  : option nat :=
  match s with
  | EmptyString => found
  | String a s' =>
      lastIndexOf_go c s' (S i) (if Ascii.eqb a c then Some i else found)
  end.

Definition lastIndexOf (c : ascii) (s : string) : option nat :=
  lastIndexOf_go c s 0 None.

End JsString.

(** ** Node's [path] module (POSIX flavour)

    A path is kept in the normal form [path.join] produces: the list of its
    components, relative to the working directory.  Leading [".."]
    components name the ancestors of the working directory. *)

Module Path.

(** One step of [path.normalize] on a relative path: [""] and ["."] are
    dropped, [".."] removes the previous component unless there is none or
    it is itself [".."]. *)
Definition norm_step (stack : list string) (c : string) : list string :=
  if String.eqb c "" || String.eqb c "." then stack
  else if String.eqb c ".." then
    match last stack with
    | Some top => if String.eqb top ".." then stack ++ [c] else removelast stack
    | None => stack ++ [c]
    end
  else stack ++ [c].

(** [path.join(dir, rel)] for an already normalised [dir].  (Node keeps
    a slash that ends [rel]; the second argument of the script's calls
    always ends in a name.) *)
Definition join (dir : list string) (rel : string) : list string :=
  fold_left norm_step (JsString.split "/" rel) dir.

(** The normal form of a path written as a string. *)
Definition resolve (p : string) : list string := join [] p.

(** [path.extname(name)] for a path that is a single name, as
    [fs.readdirSync] returns them: from the last dot to the end, and
    nothing when there is no dot, when the only dot is the first
    character, or when the name is [".."]. *)
Definition extname (name : string) : string :=
  match JsString.lastIndexOf "." name with
  | None => ""
  | Some 0 => ""
  | Some i =>
      if String.eqb name ".." then ""
      else String.substring i (String.length name - i) name
  end.

(** [path.basename(name, suffix)] for a single name. *)
Definition basename (name suffix : string) : string :=
  if negb (String.eqb suffix "") && (String.length suffix <=? String.length name)
  then
    if String.eqb name suffix then ""
    else if JsString.endsWith name suffix
         then String.substring 0 (String.length name - String.length suffix) name
         else name
  else name.

(** A name that can stand as one component of a normalised path. *)
Definition valid_name (n : string) : bool :=
  negb (String.eqb n "") && negb (String.eqb n ".") && negb (String.eqb n "..")
  && negb (JsString.contains_char "/" n).

End Path.

(** ** [Date] *)

(** What the script reads of [new Date()]: the local-time getters. *)
Record DateTime := {
  getMonth : nat;      (* 0 .. 11 *)
  getDate : nat;       (* 1 .. 31 *)
  getFullYear : nat;
  getHours : nat;      (* 0 .. 23 *)
  getMinutes : nat;    (* 0 .. 59 *)
  getSeconds : nat;    (* 0 .. 59 *)
}.

(** [generateTimestamp], with [now] the value of [new Date()]. *)
Definition generateTimestamp (now : DateTime) : string :=
  let month := JsString.padStart0 2 (JsString.toString (getMonth now + 1)) in
  let day := JsString.padStart0 2 (JsString.toString (getDate now)) in
  let year := JsString.slice_last 2 (JsString.toString (getFullYear now)) in
  let hours := JsString.padStart0 2 (JsString.toString (getHours now)) in
  let minutes := JsString.padStart0 2 (JsString.toString (getMinutes now)) in
  let seconds := JsString.padStart0 2 (JsString.toString (getSeconds now)) in
  month +:+ day +:+ year +:+ hours +:+ minutes +:+ seconds.

(** ** Exceptions *)

Inductive Errno := ENOENT | ENOTDIR | EEXIST | EISDIR | ENOTEMPTY | EINVAL.

Inductive JsError :=
| FsError (code : Errno) (syscall : string) (p : list string)
| TypeError (message : string)
| SyntaxError (message : string)
| NetworkError (message : string).

(** The outcome of an expression that may throw. *)
Inductive Result (A : Type) :=
| Ok (a : A)
| Throw (e : JsError).
Arguments Ok {A} a.
Arguments Throw {A} e.

(** ** Node's [fs] module

    The file system is a finite map from normalised paths to nodes.  The
    working directory [[]] and its ancestors always exist.  The synchronous
    calls fail the way Node documents for missing, existing and mistyped
    paths; permissions, links and I/O failures are outside the model. *)

Module Fs.

Inductive node :=
| File (content : string)
| Dir.

#[export] Instance node_eq_dec : EqDecision node.
Proof. solve_decision. Defined.

Abbreviation tree := (gmap (list string) node).

Definition is_ancestor_of_cwd (p : list string) : bool :=
  forallb (String.eqb "..") p.

Definition stat (fs : tree) (p : list string) : option node :=
  if is_ancestor_of_cwd p then Some Dir else fs !! p.

Definition parent (p : list string) : list string := removelast p.

Definition is_file (o : option node) : bool :=
  match o with Some (File _) => true | _ => false end.

(** Why a path that does not resolve fails: a regular file on the way
    gives ENOTDIR, a missing component ENOENT. *)
Definition missing_code (fs : tree) (p : list string) : Errno :=
  if existsb (fun i => is_file (stat fs (take i p))) (seq 0 (length p))
  then ENOTDIR else ENOENT.

(** [fs.existsSync(p)] *)
Definition existsSync (fs : tree) (p : list string) : bool :=
  match stat fs p with Some _ => true | None => false end.

(** [k] as an entry directly under [p]. *)
Definition child_name (p k : list string) : option string :=
  if decide (take (length p) k = p) then
    match drop (length p) k with
    | [n] => Some n
    | _ => None
    end
  else None.

(** The names directly under [p].  Node leaves the order of a listing to
    the platform; here it is the order in which the map enumerates its
    entries. *)
Definition children (fs : tree) (p : list string) : list string :=
  omap (fun kv => child_name p kv.1) (map_to_list fs).

(** [fs.readdirSync(p)] *)
Definition readdirSync (fs : tree) (p : list string) : Result (list string) :=
  match stat fs p with
  | Some Dir => Ok (children fs p)
  | Some (File _) => Throw (FsError ENOTDIR "scandir" p)
  | None => Throw (FsError (missing_code fs p) "scandir" p)
  end.

(** [fs.readFileSync(p, 'utf8')] *)
Definition readFileSync (fs : tree) (p : list string) : Result string :=
  match stat fs p with
  | Some (File c) => Ok c
  | Some Dir => Throw (FsError EISDIR "read" p)
  | None => Throw (FsError (missing_code fs p) "open" p)
  end.

(** [fs.writeFileSync(p, data)]: creates or truncates the file. *)
Definition writeFileSync (fs : tree) (p : list string) (data : string)
  : Result tree :=
  match stat fs p with
  | Some Dir => Throw (FsError EISDIR "open" p)
  | Some (File _) => Ok (<[p := File data]> fs)
  | None =>
      match stat fs (parent p) with
      | Some Dir => Ok (<[p := File data]> fs)
      | _ => Throw (FsError (missing_code fs p) "open" p)
      end
  end.

(** [fs.mkdirSync(p)] *)
Definition mkdirSync (fs : tree) (p : list string) : Result tree :=
  match stat fs p with
  | Some _ => Throw (FsError EEXIST "mkdir" p)
  | None =>
      match stat fs (parent p) with
      | Some Dir => Ok (<[p := Dir]> fs)
      | _ => Throw (FsError (missing_code fs p) "mkdir" p)
      end
  end.

(** [fs.mkdirSync(p, { recursive: true })]: creates the missing
    directories on the way down to [p]. *)
Fixpoint mkdir_p (fs : tree) (above below : list string) : Result tree :=
  match below with
  | [] => Ok fs
  | c :: below' =>
      let d := above ++ [c] in
      match stat fs d with
      | Some Dir => mkdir_p fs d below'
      | Some (File _) =>
          Throw (FsError (match below' with [] => EEXIST | _ => ENOTDIR end)
                   "mkdir" (d ++ below'))
      | None => mkdir_p (<[d := Dir]> fs) d below'
      end
  end.

Definition mkdirSync_recursive (fs : tree) (p : list string) : Result tree :=
  mkdir_p fs [] p.

(** [fs.unlinkSync(p)] *)
Definition unlinkSync (fs : tree) (p : list string) : Result tree :=
  match stat fs p with
  | Some (File _) => Ok (delete p fs)
  | Some Dir => Throw (FsError EISDIR "unlink" p)
  | None => Throw (FsError (missing_code fs p) "unlink" p)
  end.

(** Everything except [p] and what lies below it. *)
Definition remove_tree (fs : tree) (p : list string) : tree :=
  filter (fun kv => ¬ p `prefix_of` kv.1) fs.

(** [fs.rmSync(p, { recursive: true })]: without [force], a missing path
    is an error. *)
Definition rmSync_recursive (fs : tree) (p : list string) : Result tree :=
  match stat fs p with
  | Some _ => Ok (remove_tree fs p)
  | None => Throw (FsError (missing_code fs p) "rm" p)
  end.

(** Re-rooting the subtree at [src] to [dst]. *)
Definition move_key (src dst k : list string) : list string :=
  if decide (src `prefix_of` k) then dst ++ drop (length src) k else k.

Definition move_tree (fs : tree) (src dst : list string) : tree :=
  list_to_map (map (fun kv => (move_key src dst kv.1, kv.2)) (map_to_list fs)).

(** [fs.renameSync(src, dst)]: a regular file replaces an existing regular
    file at [dst]; a directory moves with its contents and may only
    replace an empty directory. *)
Definition renameSync (fs : tree) (src dst : list string) : Result tree :=
  match stat fs src with
  | None => Throw (FsError (missing_code fs src) "rename" src)
  | Some (File c) =>
      match stat fs dst with
      | Some Dir => Throw (FsError EISDIR "rename" src)
      | Some (File _) => Ok (<[dst := File c]> (delete src fs))
      | None =>
          match stat fs (parent dst) with
          | Some Dir => Ok (<[dst := File c]> (delete src fs))
          | _ => Throw (FsError (missing_code fs dst) "rename" src)
          end
      end
  | Some Dir =>
      if decide (src = dst) then Ok fs
      else if decide (src `prefix_of` dst) then Throw (FsError EINVAL "rename" src)
      else
        match stat fs dst with
        | Some (File _) => Throw (FsError ENOTDIR "rename" src)
        | Some Dir =>
            match children fs dst with
            | [] => Ok (move_tree (delete dst fs) src dst)
            | _ => Throw (FsError ENOTEMPTY "rename" src)
            end
        | None =>
            match stat fs (parent dst) with
            | Some Dir => Ok (move_tree fs src dst)
            | _ => Throw (FsError (missing_code fs dst) "rename" src)
            end
        end
  end.

(** Normal paths, as [path.join] produces them: proper names, after
    leading [".."] components only. *)
Fixpoint skip_dotdots (p : list string) : list string :=
  match p with
  | [] => []
  | n :: p' => if String.eqb n ".." then skip_dotdots p' else p
  end.

Definition normal (p : list string) : bool :=
  forallb Path.valid_name (skip_dotdots p).

(** Well-formed trees: every entry has a normal path below the working
    directory or beside it, and lies in a directory. *)
Definition wf_entry (fs : tree) (p : list string) : Prop :=
  normal p = true /\ is_ancestor_of_cwd p = false
  /\ stat fs (parent p) = Some Dir.

Definition wf (fs : tree) : Prop :=
  map_Forall (fun p _ => wf_entry fs p) fs.

#[export] Instance wf_dec fs : Decision (wf fs).
Proof. unfold wf, wf_entry. apply _. Defined.

End Fs.

Import Fs.

(** ** JavaScript values

    The values [JSON.parse] produces, and [undefined].  A number is kept
    as an integer: the script only ever tests a number for truthiness. *)

#[warnings="-register-all"]
Inductive JsVal :=
| JUndefined
| JNull
| JBool (b : bool)
| JNum (n : Z)
| JStr (s : string)
| JArr (items : list JsVal)
| JObj (props : list (string * JsVal)).

(** Truthiness, the meaning of a value in [if (v)] and [!v]. *)
Definition truthy (v : JsVal) : bool :=
  match v with
  | JUndefined | JNull => false
  | JBool b => b
  | JNum n => negb (n =? 0)%Z
  | JStr s => negb (String.eqb s "")
  | JArr _ | JObj _ => true
  end.

Fixpoint assoc (k : string) (props : list (string * JsVal)) : JsVal :=
  match props with
  | [] => JUndefined
  | (k', v) :: props' => if String.eqb k k' then v else assoc k props'
  end.

(** [data.k] for the property names the script reads ([apiName], [url],
    [title], [content]), which no built-in prototype defines: [null] and
    [undefined] throw, an object gives its own property, anything else
    [undefined]. *)
Definition get (data : JsVal) (k : string) : Result JsVal :=
  match data with
  | JUndefined | JNull => Throw (TypeError ("Cannot read properties of null or undefined: " +:+ k))
  | JObj props => Ok (assoc k props)
  | _ => Ok JUndefined
  end.

Definition is_JStr (s : string) (v : JsVal) : bool :=
  match v with JStr s' => String.eqb s' s | _ => false end.

(** [v.includes(s)]: strings and arrays have the method. *)
Definition call_includes (v : JsVal) (s : string) : Result bool :=
  match v with
  | JStr t => Ok (JsString.includes t s)
  | JArr items => Ok (existsb (is_JStr s) items)
  | JUndefined | JNull => Throw (TypeError "Cannot read properties of null or undefined: includes")
  | _ => Throw (TypeError "includes is not a function")
  end.

(** ** The world the script runs in *)

(** One line on the console; the constructor stands for the template
    string of the call that prints it. *)
Inductive ConsoleLine :=
| CouldNotFetchRobots (url : string)                (* console.warn *)
| ErrorCheckingRobots (url : string) (e : JsError)  (* console.error *)
| Enqueued (url : string)                           (* console.log *)
| SkippingNotAllowed (url : string)                 (* console.warn *)
| DeletedStorageNoRequests                          (* console.log *)
| ErrorDeletingStorage (e : JsError)                (* console.error *)
| DeletingInvalidFile (file : string)               (* console.log *)
| MovedAndRenamed (newFileName : string)            (* console.log *)
| MovedValidFile (file : string)                    (* console.log *)
| ErrorReadingOrParsing (file : string) (e : JsError) (* console.error *)
| DeletedStorageAfterMoving                         (* console.log *)
| LoadedApis (n : nat)                              (* console.log *)
| Scraped (url : string)                            (* log.info *)
| FailedToScrape (url : string) (e : JsError)       (* console.error *)
| NoRequestsEnqueued                                (* console.log *)
| ScrapingCompleted.                                (* console.log *)

Inductive Level := LevelLog | LevelInfo | LevelWarn | LevelError.

Definition level (l : ConsoleLine) : Level :=
  match l with
  | CouldNotFetchRobots _ | SkippingNotAllowed _ => LevelWarn
  | ErrorCheckingRobots _ _ | ErrorDeletingStorage _
  | ErrorReadingOrParsing _ _ | FailedToScrape _ _ => LevelError
  | Scraped _ => LevelInfo
  | _ => LevelLog
  end.

(** A row of the catalog, as [csv-parse] delivers it with [columns: true]. *)
Record Api := {
  API_Name : string;
  Official_Documentation_URL : string;
}.

(** A request registered with the crawler:
    [{ url, userData: { apiName } }]. *)
Record Request := {
  url : string;
  userData_apiName : string;
}.

Record World := {
  files : tree;                 (* the disk *)
  console : list ConsoleLine;   (* what was printed, oldest first *)
  requests : list Request;      (* the crawler's request queue *)
  crawler_runs : nat;           (* how often crawler.run() was called *)
  dates_taken : nat;            (* how often new Date() was evaluated *)
}.

(** The [fetch] response, as far as the script looks at it. *)
Record Response := {
  ok : bool;
  text : Result string;
}.

(** What the crawler hands to the request handler for a fetched page:
    [$('title').text()] and [$('body').text().trim()]. *)
Record Page := {
  page_title : string;
  page_body_trimmed : string;
}.

(** The surroundings of a run: the built-ins whose results the script
    only consumes, and the outside world's answers. *)
Record Env := {
  JSON_parse : string -> Result JsVal;
  JSON_stringify : JsVal -> string;
  new_Date : nat -> DateTime;                 (* the k-th [new Date()] *)
  robots_href : string -> Result string;      (* new URL('/robots.txt', url).href *)
  fetch : string -> Result Response;
  crawl_schedule : list Request -> list Request; (* the requests the engine settles, in its order *)
  crawl_page : Request -> Result Page;        (* the engine's fetch of a page *)
}.

(** ** Computations: world passing with exceptions

    A thrown exception keeps the effects that happened before it. *)

Definition M (A : Type) : Type := World -> Result A * World.

Definition ret {A} (a : A) : M A := fun w => (Ok a, w).

Definition throw {A} (e : JsError) : M A := fun w => (Throw e, w).

Definition bind {A B} (m : M A) (k : A -> M B) : M B :=
  fun w =>
    match m w with
    | (Ok a, w') => k a w'
    | (Throw e, w') => (Throw e, w')
    end.

(** [try { m } catch (e) { handler e }] *)
Definition try_catch {A} (m : M A) (handler : JsError -> M A) : M A :=
  fun w =>
    match m w with
    | (Ok a, w') => (Ok a, w')
    | (Throw e, w') => handler e w'
    end.

Definition lift {A} (r : Result A) : M A := fun w => (r, w).

Notation "x <~ m ;; k" := (bind m (fun x => k))
  (at level 100, m at next level, right associativity).
Notation "m ;;; k" := (bind m (fun _ => k))
  (at level 100, right associativity).

(** [list.forEach(body)] *)
Fixpoint forEach {A} (l : list A) (body : A -> M unit) : M unit :=
  match l with
  | [] => ret tt
  | x :: l' => body x ;;; forEach l' body
  end.

Definition print (l : ConsoleLine) : M unit :=
  fun w => (Ok tt, {| files := files w; console := console w ++ [l];
                      requests := requests w; crawler_runs := crawler_runs w;
                      dates_taken := dates_taken w |}).

Definition set_files (fs : tree) (w : World) : World :=
  {| files := fs; console := console w; requests := requests w;
     crawler_runs := crawler_runs w; dates_taken := dates_taken w |}.

(** A call that reads the disk. *)
Definition fs_read {A} (f : tree -> A) : M A := fun w => (Ok (f (files w)), w).

(** A call that reads the disk and may throw. *)
Definition fs_try {A} (f : tree -> Result A) : M A := fun w => (f (files w), w).

(** A call that changes the disk or throws. *)
Definition fs_update (f : tree -> Result tree) : M unit :=
  fun w =>
    match f (files w) with
    | Ok fs' => (Ok tt, set_files fs' w)
    | Throw e => (Throw e, w)
    end.

(** ** The script *)

Section Scraper.

Variable env : Env.

(** [canScrape(url)]: [true] or [false] from the [try] block; when the
    [catch] block has run the function ends without a [return], so its
    value is [undefined]. *)
Definition canScrape (url : string) : M JsVal :=
  try_catch
    (robotsUrl <~ lift (robots_href env url) ;;
     response <~ lift (fetch env robotsUrl) ;;
     if ok response then
       robotsText <~ lift (text response) ;;
       ret (JBool (negb (JsString.includes robotsText "Disallow: /")))
     else
       print (CouldNotFetchRobots url) ;;;
       ret (JBool true))
    (fun err =>
       print (ErrorCheckingRobots url err) ;;;
       ret JUndefined).

(** [crawler.addRequests(rs)] *)
Definition addRequests (rs : list Request) : M unit :=
  fun w => (Ok tt, {| files := files w; console := console w;
                      requests := requests w ++ rs;
                      crawler_runs := crawler_runs w;
                      dates_taken := dates_taken w |}).

(** The body of one limited task of [checkRobotsAndEnqueue], with the
    counter it increments passed through. *)
Definition checkAndEnqueueOne (enqueuedCount : nat) (api : Api) : M nat :=
  canScrapeResult <~ canScrape (Official_Documentation_URL api) ;;
  if truthy canScrapeResult then
    addRequests [{| url := Official_Documentation_URL api;
                    userData_apiName := API_Name api |}] ;;;
    print (Enqueued (Official_Documentation_URL api)) ;;;
    ret (S enqueuedCount)
  else
    print (SkippingNotAllowed (Official_Documentation_URL api)) ;;;
    ret enqueuedCount.

Fixpoint foldM {A B} (f : B -> A -> M B) (l : list A) (b : B) : M B :=
  match l with
  | [] => ret b
  | x :: l' => b' <~ f b x ;; foldM f l' b'
  end.

(** [checkRobotsAndEnqueue(apis, crawler)].  The tasks run under
    [pLimit(10)] and [Promise.all]; each resumes once, after its
    [canScrape] has settled, and then runs to its end without yielding.
    [completion] is the order in which the tasks of [apis] resume, a
    rearrangement of [apis] that the scheduler and the network decide. *)
Definition checkRobotsAndEnqueue (completion : list Api) : M nat :=
  foldM checkAndEnqueueOne completion 0.

Definition directoryPath : list string :=
  Path.resolve "./storage/request_queues/default".

Definition destinationPath : list string :=
  Path.resolve "./scrapers/datasets".

Definition storagePath : list string := Path.resolve "./storage".

(** [new Date()] followed by the formatting of [generateTimestamp]. *)
Definition generateTimestampNow : M string :=
  fun w => (Ok (generateTimestamp (new_Date env (dates_taken w))),
            {| files := files w; console := console w; requests := requests w;
               crawler_runs := crawler_runs w;
               dates_taken := S (dates_taken w) |}).

(** The test of line 109:
    [!data.apiName || !data.url || !data.title || !data.content
     || data.title.includes('404')]. *)
Definition is_invalid (data : JsVal) : Result bool :=
  match get data "apiName" with
  | Throw e => Throw e
  | Ok apiName =>
      if negb (truthy apiName) then Ok true else
      match get data "url" with
      | Throw e => Throw e
      | Ok url =>
          if negb (truthy url) then Ok true else
          match get data "title" with
          | Throw e => Throw e
          | Ok title =>
              if negb (truthy title) then Ok true else
              match get data "content" with
              | Throw e => Throw e
              | Ok content =>
                  if negb (truthy content) then Ok true
                  else call_includes title "404"
              end
          end
      end
  end.

(** The callback of [fs.readdirSync(directoryPath).forEach]. *)
Definition curateFile (file : string) : M unit :=
  let filePath := Path.join directoryPath file in
  let destinationFilePath := Path.join destinationPath file in
  if JsString.endsWith file ".json" then
    try_catch
      (content <~ fs_try (fun fs => readFileSync fs filePath) ;;
       data <~ lift (JSON_parse env content) ;;
       invalid <~ lift (is_invalid data) ;;
       if invalid then
         print (DeletingInvalidFile file) ;;;
         fs_update (fun fs => unlinkSync fs filePath)
       else
         taken <~ fs_read (fun fs => existsSync fs destinationFilePath) ;;
         if taken then
           let extname := Path.extname file in
           let basename := Path.basename file extname in
           timestamp <~ generateTimestampNow ;;
           let newFileName := basename +:+ "_" +:+ timestamp +:+ extname in
           let newFilePath := Path.join destinationPath newFileName in
           fs_update (fun fs => renameSync fs filePath newFilePath) ;;;
           print (MovedAndRenamed newFileName)
         else
           fs_update (fun fs => renameSync fs filePath destinationFilePath) ;;;
           print (MovedValidFile file))
      (fun error => print (ErrorReadingOrParsing file error))
  else ret tt.

(** The [try { fs.rmSync('./storage', { recursive: true }) ... } catch]
    block that ends both modes. *)
Definition removeStorage (done : ConsoleLine) : M unit :=
  try_catch
    (fs_update (fun fs => rmSync_recursive fs storagePath) ;;;
     print done)
    (fun error => print (ErrorDeletingStorage error)).

(** [cleanUpAndMoveFiles(removeStorageOnly)] *)
Definition cleanUpAndMoveFiles (removeStorageOnly : bool) : M unit :=
  if removeStorageOnly then
    removeStorage DeletedStorageNoRequests
  else
    present <~ fs_read (fun fs => existsSync fs destinationPath) ;;
    (if negb present
     then fs_update (fun fs => mkdirSync_recursive fs destinationPath)
     else ret tt) ;;;
    staged <~ fs_try (fun fs => readdirSync fs directoryPath) ;;
    forEach staged curateFile ;;;
    removeStorage DeletedStorageAfterMoving.

(** The record the request handler writes. *)
Definition pageRecord (apiName url title content : string) : JsVal :=
  JObj [("apiName", JStr apiName); ("url", JStr url);
        ("title", JStr title); ("content", JStr content)].

(** [requestHandler({ request, $, log })] *)
Definition requestHandler (request : Request) (page : Page) : M unit :=
  let title := page_title page in
  let content := page_body_trimmed page in
  let apiNameFormatted := JsString.replace_spaces (userData_apiName request) in
  let datasetPath := Path.join directoryPath (apiNameFormatted +:+ ".json") in
  present <~ fs_read (fun fs => existsSync fs directoryPath) ;;
  (if negb present
   then fs_update (fun fs => mkdirSync fs directoryPath)
   else ret tt) ;;;
  fs_update (fun fs =>
    writeFileSync fs datasetPath
      (JSON_stringify env
         (pageRecord (userData_apiName request) (url request) title content))) ;;;
  print (Scraped (url request)).

(** [failedRequestHandler({ request }, error)] *)
Definition failedRequestHandler (request : Request) (error : JsError) : M unit :=
  print (FailedToScrape (url request) error).

(** What the crawler does with one request: the request handler on a
    fetched page, the failure handler when the fetch or the handler
    fails. *)
Definition settle (request : Request) : M unit :=
  try_catch
    (page <~ lift (crawl_page env request) ;;
     requestHandler request page)
    (failedRequestHandler request).

(** [crawler.run()] *)
Definition crawler_run : M unit :=
  (fun w => (Ok tt, {| files := files w; console := console w;
                       requests := requests w;
                       crawler_runs := S (crawler_runs w);
                       dates_taken := dates_taken w |})) ;;;
  queue <~ (fun w => (Ok (crawl_schedule env (requests w)), w)) ;;
  forEach queue settle.

(** [scrapeDocs()], given what [parseCSV('./api-docs-urls.csv')] settles
    to and the order in which the robots checks complete. *)
Definition scrapeDocs (csv : Result (list Api))
    (completion : list Api -> list Api) : M unit :=
  apis <~ lift csv ;;
  print (LoadedApis (length apis)) ;;;
  enqueuedCount <~ checkRobotsAndEnqueue (completion apis) ;;
  if enqueuedCount =? 0 then
    print NoRequestsEnqueued ;;;
    cleanUpAndMoveFiles true
  else
    crawler_run ;;;
    cleanUpAndMoveFiles false.

(** The last statement of the script:
    [scrapeDocs().then(() => console.log('Scraping completed...'))]. *)
Definition main (csv : Result (list Api))
    (completion : list Api -> list Api) : M unit :=
  scrapeDocs csv completion ;;;
  print ScrapingCompleted.

End Scraper.

(** * Vocabulary of the statements *)

Definition say (l : ConsoleLine) (w : World) : World :=
  {| files := files w; console := console w ++ [l]; requests := requests w;
     crawler_runs := crawler_runs w; dates_taken := dates_taken w |}.

(** What [canScrape] comes to, case by case. *)
Definition gate_value (env : Env) (url : string) : JsVal :=
  match robots_href env url with
  | Throw _ => JUndefined
  | Ok robotsUrl =>
      match fetch env robotsUrl with
      | Throw _ => JUndefined
      | Ok response =>
          if ok response then
            match text response with
            | Throw _ => JUndefined
            | Ok robotsText =>
                JBool (negb (JsString.includes robotsText "Disallow: /"))
            end
          else JBool true
      end
  end.

(** A world with nothing in it. *)
Definition blank : World :=
  {| files := ∅; console := []; requests := []; crawler_runs := 0;
     dates_taken := 0 |}.

(** The gate's answer for a catalog entry as [checkRobotsAndEnqueue] reads
    it: the truthiness of what [canScrape] returns. *)
Definition resolves_to_allow (env : Env) (api : Api) : bool :=
  match (canScrape env (Official_Documentation_URL api) blank).1 with
  | Ok v => truthy v
  | Throw _ => false
  end.

(** What the fetch of the policy resource of [url] settles to. *)
Definition policy_response (env : Env) (url : string) : Result Response :=
  match robots_href env url with
  | Ok robotsUrl => fetch env robotsUrl
  | Throw e => Throw e
  end.

Definition request_of (api : Api) : Request :=
  {| url := Official_Documentation_URL api; userData_apiName := API_Name api |}.

(** The path of a staged file and of a dataset file. *)
Definition staged (file : string) : list string := directoryPath ++ [file].

Definition accepted (name : string) : list string := destinationPath ++ [name].

(** The name line 117 builds for a file whose own name is taken, at the
    [k]-th reading of the clock. *)
Definition renamed (env : Env) (k : nat) (file : string) : string :=
  Path.basename file (Path.extname file) +:+ "_"
  +:+ generateTimestamp (new_Date env k) +:+ Path.extname file.

(** The console line that reports a failed removal of [./storage]. *)
Definition is_storage_error (l : ConsoleLine) : bool :=
  match l with
  | ErrorDeletingStorage _ => true
  | _ => false
  end.

(** The first step of normal mode: the dataset folder is made when it is
    not there. *)
Definition ensure_destination (fs : tree) : Result tree :=
  if existsSync fs destinationPath then Ok fs
  else mkdirSync_recursive fs destinationPath.

(** Nothing is left at [./storage] or below it. *)
Definition storage_gone (fs : tree) : Prop :=
  forall p, storagePath `prefix_of` p -> fs !! p = None.

(** The substring of a title that marks a not-found page. *)
Definition not_found_marker : string := "404".

(** Validity of a page record in the words of the specification: the four
    fields are non-empty and the title does not contain the marker of a
    not-found page. *)
Definition valid_record (apiName url title content : string) : Prop :=
  apiName ≠ "" /\ url ≠ "" /\ title ≠ "" /\ content ≠ ""
  /\ JsString.includes title not_found_marker = false.

(** A number below 100 on two decimal digits. *)
Definition two_digits (n : nat) : string :=
  String (JsString.digit (n / 10)) (String (JsString.digit (n mod 10)) EmptyString).

(** The stamp MMDDYYHHMMSS of a date, in the words of the specification:
    month, day, year on two digits, hours, minutes, seconds, each padded
    with a zero. *)
Definition MMDDYYHHMMSS (now : DateTime) : string :=
  two_digits (getMonth now + 1) +:+ two_digits (getDate now)
  +:+ two_digits (getFullYear now mod 100) +:+ two_digits (getHours now)
  +:+ two_digits (getMinutes now) +:+ two_digits (getSeconds now).

(** The ranges of the getters of a [Date] of our era. *)
Definition plausible (now : DateTime) : Prop :=
  getMonth now < 12 /\ 1 <= getDate now <= 31 /\ 10 <= getFullYear now
  /\ getHours now < 24 /\ getMinutes now < 60 /\ getSeconds now < 60.

(** The name of the staged file of an API: line 149 and the template of
    line 150. *)
Definition staged_name (apiName : string) : string :=
  JsString.replace_spaces apiName +:+ ".json".

(** The text the request handler writes for a request and a page. *)
Definition record_text (env : Env) (request : Request) (page : Page) : string :=
  JSON_stringify env
    (pageRecord (userData_apiName request) (url request)
       (page_title page) (page_body_trimmed page)).

(** The JSON values that are neither an object nor [null]. *)
Definition plain_value (v : JsVal) : bool :=
  match v with
  | JBool _ | JNum _ | JStr _ | JArr _ => true
  | _ => false
  end.

(** The property names line 109 reads. *)
Definition record_fields : list string := ["apiName"; "url"; "title"; "content"].

(** Every field of the record is there and truthy. *)
Definition fields_truthy (props : list (string * JsVal)) : bool :=
  forallb (fun k => truthy (assoc k props)) record_fields.

(** The two lines a task of [checkRobotsAndEnqueue] ends with. *)
Definition is_enqueued_line (l : ConsoleLine) : bool :=
  match l with Enqueued _ => true | _ => false end.

Definition is_skip_line (l : ConsoleLine) : bool :=
  match l with SkippingNotAllowed _ => true | _ => false end.

(** * Examples of the environments *)

Module Demo.

(** A small Internet.  [new URL('/robots.txt', url).href] and [fetch] on
    the addresses used below; an address that is not listed does not
    parse, and a resource that is not listed cannot be reached. *)
Definition hrefs : list (string * string) :=
  [("https://docs.stripe.com/api", "https://docs.stripe.com/robots.txt");
   ("https://closed.example/docs", "https://closed.example/robots.txt");
   ("https://bare.example/docs", "https://bare.example/robots.txt");
   ("https://down.example/docs", "https://down.example/robots.txt")].

Definition resources : list (string * Response) :=
  [("https://docs.stripe.com/robots.txt",
     {| ok := true; text := Ok "User-agent: *
Allow: /" |});
   ("https://closed.example/robots.txt",
     {| ok := true; text := Ok "User-agent: *
Disallow: /" |});
   ("https://bare.example/robots.txt",
     {| ok := false; text := Ok "Not Found" |})].

Fixpoint table {A} (k : string) (t : list (string * A)) : option A :=
  match t with
  | [] => None
  | (k', a) :: t' => if String.eqb k k' then Some a else table k t'
  end.

Definition dq : string := String (Ascii.ascii_of_nat 34) EmptyString.

Definition nl : string := String (Ascii.ascii_of_nat 10) EmptyString.

(** [JSON.stringify(record, null, 2)] for an object whose properties are
    strings without quotes, backslashes or control characters, as all the
    records below are. *)
Definition member (kv : string * JsVal) : string :=
  match kv.2 with
  | JStr s => "  " +:+ dq +:+ kv.1 +:+ dq +:+ ": " +:+ dq +:+ s +:+ dq
  | _ => "  " +:+ dq +:+ kv.1 +:+ dq +:+ ": null"
  end.

Fixpoint members (props : list (string * JsVal)) : string :=
  match props with
  | [] => EmptyString
  | [kv] => member kv +:+ nl
  | kv :: props' => member kv +:+ "," +:+ nl +:+ members props'
  end.

Definition stringify (v : JsVal) : string :=
  match v with
  | JObj props => "{" +:+ nl +:+ members props +:+ "}"
  | _ => "null"
  end.

Definition stripe_record : JsVal :=
  pageRecord "Stripe API" "https://docs.stripe.com/api" "Stripe API Reference"
    "The Stripe API is organized around REST.".

Definition missing_record : JsVal :=
  pageRecord "Gone API" "https://gone.example/docs" "404 Not Found"
    "The page you are looking for does not exist.".

Definition earlier_record : JsVal :=
  pageRecord "Stripe API" "https://docs.stripe.com/api" "Stripe API Reference"
    "An earlier text of the reference.".

(** [JSON.parse] on the texts of the records in the examples; the other
    texts that are parsed below are not JSON. *)
Definition texts : list (string * JsVal) :=
  [(stringify stripe_record, stripe_record);
   (stringify missing_record, missing_record);
   (stringify earlier_record, earlier_record)].

Definition now : DateTime :=
  {| getMonth := 10; getDate := 2; getFullYear := 2026;
     getHours := 9; getMinutes := 5; getSeconds := 30 |}.

Definition env : Env :=
  {| JSON_parse := fun s =>
       match table s texts with
       | Some v => Ok v
       | None => Throw (SyntaxError "Unexpected token")
       end;
     JSON_stringify := stringify;
     new_Date := fun _ => now;
     robots_href := fun u =>
       match table u hrefs with
       | Some r => Ok r
       | None => Throw (TypeError "Invalid URL")
       end;
     fetch := fun r =>
       match table r resources with
       | Some resp => Ok resp
       | None => Throw (NetworkError "fetch failed")
       end;
     crawl_schedule := fun rs => rs;
     crawl_page := fun _ => Throw (NetworkError "request failed") |}.

Definition stripe : Api :=
  {| API_Name := "Stripe API";
     Official_Documentation_URL := "https://docs.stripe.com/api" |}.

Definition closed : Api :=
  {| API_Name := "Closed API";
     Official_Documentation_URL := "https://closed.example/docs" |}.

Definition down : Api :=
  {| API_Name := "Down API";
     Official_Documentation_URL := "https://down.example/docs" |}.

End Demo.

Module DemoDisk.

(** The text of a record accepted by an earlier run. *)
Definition older : string := Demo.stringify Demo.earlier_record.

(** A disk after a crawl: four staged files (a good record, the record
    of a not-found page, a file that is not JSON, and a text file), and a
    dataset folder that already holds a [Stripe_API.json]. *)
Definition disk : tree :=
  list_to_map
    [(["storage"], Dir);
     (["storage"; "request_queues"], Dir);
     (["storage"; "request_queues"; "default"], Dir);
     (staged "Stripe_API.json", File (Demo.stringify Demo.stripe_record));
     (staged "Gone_API.json", File (Demo.stringify Demo.missing_record));
     (staged "broken.json", File "<html>Bad Gateway</html>");
     (staged "notes.txt", File "scratch");
     (["scrapers"], Dir);
     (["scrapers"; "datasets"], Dir);
     (accepted "Stripe_API.json", File older)].

Definition world : World :=
  {| files := disk; console := []; requests := []; crawler_runs := 0;
     dates_taken := 0 |}.

(** A disk on which nothing was ever crawled. *)
Definition fresh : World :=
  {| files := list_to_map [(["scrapers"], Dir); (["scrapers"; "datasets"], Dir);
                           (accepted "Stripe_API.json", File older)];
     console := []; requests := []; crawler_runs := 0; dates_taken := 0 |}.

End DemoDisk.

Module DemoFirstRun.

(** The disk of a first run: two staged records and an empty dataset
    folder. *)
Definition disk : tree :=
  list_to_map
    [(["storage"], Dir);
     (["storage"; "request_queues"], Dir);
     (["storage"; "request_queues"; "default"], Dir);
     (staged "Stripe_API.json", File (Demo.stringify Demo.stripe_record));
     (staged "Gone_API.json", File (Demo.stringify Demo.missing_record));
     (["scrapers"], Dir);
     (["scrapers"; "datasets"], Dir)].

Definition world : World :=
  {| files := disk; console := []; requests := []; crawler_runs := 0;
     dates_taken := 0 |}.

End DemoFirstRun.

Module DemoSlash.

(** An API whose name has a slash in it, and its page. *)
Definition request : Request :=
  {| url := "https://ci.example/docs"; userData_apiName := "CI/CD API" |}.

Definition page : Page :=
  {| page_title := "CI/CD API Reference"; page_body_trimmed := "Pipelines." |}.

(** The small Internet with a crawler that fetches that page. *)
Definition env : Env :=
  {| JSON_parse := JSON_parse Demo.env;
     JSON_stringify := JSON_stringify Demo.env;
     new_Date := new_Date Demo.env;
     robots_href := robots_href Demo.env;
     fetch := fetch Demo.env;
     crawl_schedule := crawl_schedule Demo.env;
     crawl_page := fun _ => Ok page |}.

End DemoSlash.

Module DemoRobots.

(** A site whose policy closes one folder only. *)
Definition partly : Api :=
  {| API_Name := "Partly API";
     Official_Documentation_URL := "https://partly.example/docs" |}.

Definition robots : string := "User-agent: *
Disallow: /private/
Allow: /docs".

Definition env : Env :=
  {| JSON_parse := JSON_parse Demo.env;
     JSON_stringify := JSON_stringify Demo.env;
     new_Date := new_Date Demo.env;
     robots_href := fun _ => Ok "https://partly.example/robots.txt";
     fetch := fun _ => Ok {| ok := true; text := Ok robots |};
     crawl_schedule := crawl_schedule Demo.env;
     crawl_page := crawl_page Demo.env |}.

End DemoRobots.

Module DemoJson.

(** Texts that are JSON without being page records, with the values
    [JSON.parse] gives for them. *)
Definition queue_entry : JsVal :=
  JObj [("id", JStr "k3Jx0a9"); ("url", JStr "https://docs.stripe.com/api");
        ("uniqueKey", JStr "https://docs.stripe.com/api")].

Definition numbered : JsVal :=
  JObj [("apiName", JStr "Status API"); ("url", JStr "https://status.example");
        ("title", JNum 200); ("content", JStr "All systems operational.")].

Definition numbered_text : string :=
  "{" +:+ Demo.dq +:+ "apiName" +:+ Demo.dq +:+ ":" +:+ Demo.dq +:+ "Status API" +:+ Demo.dq
  +:+ "," +:+ Demo.dq +:+ "url" +:+ Demo.dq +:+ ":" +:+ Demo.dq +:+ "https://status.example" +:+ Demo.dq
  +:+ "," +:+ Demo.dq +:+ "title" +:+ Demo.dq +:+ ":200"
  +:+ "," +:+ Demo.dq +:+ "content" +:+ Demo.dq +:+ ":" +:+ Demo.dq
  +:+ "All systems operational." +:+ Demo.dq +:+ "}".

Definition texts : list (string * JsVal) :=
  [("null", JNull); ("42", JNum 42);
   (Demo.stringify queue_entry, queue_entry);
   (numbered_text, numbered);
   (Demo.stringify Demo.stripe_record, Demo.stripe_record);
   (Demo.stringify Demo.missing_record, Demo.missing_record)].

Definition env : Env :=
  {| JSON_parse := fun s =>
       match Demo.table s texts with
       | Some v => Ok v
       | None => Throw (SyntaxError "Unexpected token")
       end;
     JSON_stringify := Demo.stringify;
     new_Date := new_Date Demo.env;
     robots_href := robots_href Demo.env;
     fetch := fetch Demo.env;
     crawl_schedule := crawl_schedule Demo.env;
     crawl_page := crawl_page Demo.env |}.

Definition disk : tree :=
  list_to_map
    [(["storage"], Dir);
     (["storage"; "request_queues"], Dir);
     (["storage"; "request_queues"; "default"], Dir);
     (staged "null.json", File "null");
     (staged "count.json", File "42");
     (staged "k3Jx0a9.json", File (Demo.stringify queue_entry));
     (staged "Status_API.json", File numbered_text);
     (staged "folder.json", Dir);
     (["scrapers"], Dir);
     (["scrapers"; "datasets"], Dir)].

Definition world : World :=
  {| files := disk; console := []; requests := []; crawler_runs := 0;
     dates_taken := 0 |}.

End DemoJson.

Module DemoNames.

(** Two catalog names that differ by a space and an underscore. *)
Definition spaced : Request :=
  {| url := "https://my.example/v1"; userData_apiName := "My API" |}.

Definition underscored : Request :=
  {| url := "https://my.example/v2"; userData_apiName := "My_API" |}.

Definition page1 : Page :=
  {| page_title := "My API v1"; page_body_trimmed := "First." |}.

Definition page2 : Page :=
  {| page_title := "My API v2"; page_body_trimmed := "Second." |}.

(** A request whose name climbs out of the staging folder. *)
Definition climbing : Request :=
  {| url := "https://up.example"; userData_apiName := "../../../notes" |}.

(** The page of the Stripe reference, and one the site answers for a page
    that is gone. *)
Definition stripe_page : Page :=
  {| page_title := "Stripe API Reference";
     page_body_trimmed := "The Stripe API is organized around REST." |}.

Definition gone_request : Request :=
  {| url := "https://gone.example/docs"; userData_apiName := "Gone API" |}.

Definition gone_page : Page :=
  {| page_title := "404 Not Found";
     page_body_trimmed := "The page you are looking for does not exist." |}.

End DemoNames.

Module DemoClash.

(** The disk of [DemoDisk] with one more dataset file: a record that was
    renamed by an earlier run in the very second of this one. *)
Definition twin : string := Demo.stringify Demo.missing_record.

Definition world : World :=
  {| files := <[accepted "Stripe_API_110226090530.json" := File twin]> DemoDisk.disk;
     console := []; requests := []; crawler_runs := 0; dates_taken := 0 |}.

End DemoClash.

(** * Properties *)

(** ** The built-ins on examples *)

Example includes_ex : JsString.includes "User-agent: *
Disallow: /private" "Disallow: /" = true.
Proof. reflexivity. Qed.

Example toString_ex : JsString.toString 2026 = "2026" /\ JsString.toString 0 = "0".
Proof. split; reflexivity. Qed.

Example split_ex : JsString.split "/" "./a//b/" = ["."; "a"; ""; "b"; ""].
Proof. reflexivity. Qed.

Example join_ex :
  Path.join (Path.resolve "./storage/request_queues/default") "Stripe_API.json"
  = ["storage"; "request_queues"; "default"; "Stripe_API.json"]
  /\ Path.join ["a"; "b"] "../../../x//./y" = [".."; "x"; "y"]
  /\ Path.resolve "./scrapers/datasets" = ["scrapers"; "datasets"].
Proof. repeat split; reflexivity. Qed.

Example extname_ex :
  Path.extname "Stripe_API.json" = ".json" /\ Path.extname ".json" = ""
  /\ Path.extname "a.b.json" = ".json" /\ Path.extname "..json" = ".json"
  /\ Path.extname "README" = "" /\ Path.extname ".." = ""
  /\ Path.basename "Stripe_API.json" ".json" = "Stripe_API"
  /\ Path.basename ".json" "" = ".json".
Proof. repeat split; reflexivity. Qed.

Example generateTimestamp_ex :
  generateTimestamp {| getMonth := 10; getDate := 2; getFullYear := 2026;
                       getHours := 9; getMinutes := 5; getSeconds := 30 |}
  = "110226090530".
Proof. reflexivity. Qed.


(** ** The robots gate *)

Lemma canScrape_returns env url w :
  exists w', canScrape env url w = (Ok (gate_value env url), w')
    /\ files w' = files w /\ requests w' = requests w
    /\ crawler_runs w' = crawler_runs w /\ dates_taken w' = dates_taken w
    /\ exists lines, console w' = console w ++ lines.
Proof.
  unfold canScrape, gate_value, try_catch, bind, lift, ret, print.
  destruct (robots_href env url) as [r|e]; simpl.
  2:{ eexists; split; [reflexivity|]; simpl; eauto 10. }
  destruct (fetch env r) as [resp|e]; simpl.
  2:{ eexists; split; [reflexivity|]; simpl; eauto 10. }
  destruct (ok resp); simpl.
  - destruct (text resp) as [t|e]; simpl.
    + eexists; split; [reflexivity|]; simpl.
      repeat split; try done. exists []. by rewrite app_nil_r.
    + eexists; split; [reflexivity|]; simpl; eauto 10.
  - eexists; split; [reflexivity|]; simpl; eauto 10.
Qed.

Example stringify_ex :
  Demo.stringify (pageRecord "A" "u" "t" "c")
  = "{" +:+ Demo.nl
    +:+ "  " +:+ Demo.dq +:+ "apiName" +:+ Demo.dq +:+ ": " +:+ Demo.dq +:+ "A" +:+ Demo.dq +:+ "," +:+ Demo.nl
    +:+ "  " +:+ Demo.dq +:+ "url" +:+ Demo.dq +:+ ": " +:+ Demo.dq +:+ "u" +:+ Demo.dq +:+ "," +:+ Demo.nl
    +:+ "  " +:+ Demo.dq +:+ "title" +:+ Demo.dq +:+ ": " +:+ Demo.dq +:+ "t" +:+ Demo.dq +:+ "," +:+ Demo.nl
    +:+ "  " +:+ Demo.dq +:+ "content" +:+ Demo.dq +:+ ": " +:+ Demo.dq +:+ "c" +:+ Demo.dq +:+ Demo.nl
    +:+ "}".
Proof. reflexivity. Qed.

Lemma canScrape_value env url w :
  (canScrape env url w).1 = Ok (gate_value env url).
Proof.
  destruct (canScrape_returns env url w) as (w' & -> & _). done.
Qed.

Lemma resolves_to_allow_gate env api :
  resolves_to_allow env api
  = truthy (gate_value env (Official_Documentation_URL api)).
Proof. unfold resolves_to_allow. by rewrite canScrape_value. Qed.

Lemma gate_value_response env url :
  gate_value env url =
  match policy_response env url with
  | Throw _ => JUndefined
  | Ok response =>
      if ok response then
        match text response with
        | Throw _ => JUndefined
        | Ok robotsText =>
            JBool (negb (JsString.includes robotsText "Disallow: /"))
        end
      else JBool true
  end.
Proof.
  unfold gate_value, policy_response.
  destruct (robots_href env url); [|done]. done.
Qed.

(** C2.  When the fetch of the policy resource throws, [canScrape] catches
    the exception and prints it with [console.error], and the run goes on;
    but the function then returns [undefined], which is falsy: the task of
    [checkRobotsAndEnqueue] takes the branch of a refusal, registers no
    request, leaves the counter as it is and prints the skip notice.  The
    exception path does not resolve to allow. *)
Theorem canScrape_exception_is_not_allow env api robotsUrl e n w :
  robots_href env (Official_Documentation_URL api) = Ok robotsUrl ->
  fetch env robotsUrl = Throw e ->
  let url := Official_Documentation_URL api in
  canScrape env url w = (Ok JUndefined, say (ErrorCheckingRobots url e) w)
  /\ level (ErrorCheckingRobots url e) = LevelError
  /\ resolves_to_allow env api = false
  /\ checkAndEnqueueOne env n api w
     = (Ok n, say (SkippingNotAllowed url) (say (ErrorCheckingRobots url e) w))
  /\ requests (checkAndEnqueueOne env n api w).2 = requests w.
Proof.
  intros Hr Hf url.
  assert (Hc : canScrape env url w
               = (Ok JUndefined, say (ErrorCheckingRobots url e) w)).
  { unfold canScrape, try_catch, bind, lift. subst url. rewrite Hr. simpl.
    rewrite Hf. reflexivity. }
  assert (Hone : checkAndEnqueueOne env n api w
     = (Ok n, say (SkippingNotAllowed url) (say (ErrorCheckingRobots url e) w))).
  { unfold checkAndEnqueueOne, bind. fold url. rewrite Hc. reflexivity. }
  repeat split; try done.
  - rewrite resolves_to_allow_gate. unfold gate_value. fold url.
    subst url. rewrite Hr, Hf. done.
  - rewrite Hone. done.
Qed.

Lemma canScrape_exception_is_not_allow_witness :
  canScrape Demo.env "https://down.example/docs" blank
  = (Ok JUndefined,
     say (ErrorCheckingRobots "https://down.example/docs"
            (NetworkError "fetch failed")) blank)
  /\ checkAndEnqueueOne Demo.env 0 Demo.down blank
     = (Ok 0,
        say (SkippingNotAllowed "https://down.example/docs")
          (say (ErrorCheckingRobots "https://down.example/docs"
                  (NetworkError "fetch failed")) blank)).
Proof.
  pose proof (canScrape_exception_is_not_allow Demo.env Demo.down
                "https://down.example/robots.txt" (NetworkError "fetch failed")
                0 blank eq_refl eq_refl) as H.
  simpl in H. destruct H as (H1 & _ & _ & H2 & _). split; assumption.
Defined.

(** C6.  [canScrape] always returns, and what it returns is settled by
    the response alone.  It returns [false] exactly when the policy
    resource came with a success status and its text contains
    ["Disallow: /"]; it returns [true] for a non-success status and for a
    text without the directive.  When the resource cannot be reached (the
    address does not parse, [fetch] or [text()] throws) it returns neither:
    the value is [undefined], which the caller reads as a refusal. *)
Theorem canScrape_decision env url w :
  exists v w',
    canScrape env url w = (Ok v, w')
    /\ (v = JBool false <->
        exists response robotsText,
          policy_response env url = Ok response /\ ok response = true
          /\ text response = Ok robotsText
          /\ JsString.includes robotsText "Disallow: /" = true)
    /\ (forall response, policy_response env url = Ok response ->
          ok response = false -> v = JBool true)
    /\ (forall response robotsText, policy_response env url = Ok response ->
          ok response = true -> text response = Ok robotsText ->
          JsString.includes robotsText "Disallow: /" = false -> v = JBool true)
    /\ (forall e, policy_response env url = Throw e ->
          v = JUndefined /\ truthy v = false)
    /\ (forall env' url' w0,
          policy_response env' url' = policy_response env url ->
          (canScrape env' url' w0).1 = Ok v).
Proof.
  destruct (canScrape_returns env url w) as (w' & Hc & _).
  exists (gate_value env url), w'. split; [exact Hc|].
  rewrite gate_value_response.
  refine (conj _ (conj _ (conj _ (conj _ _)))).
  - split.
    + destruct (policy_response env url) as [resp|e]; [|done].
      destruct (ok resp) eqn:Hok; [|done].
      destruct (text resp) as [t|e] eqn:Ht; [|done].
      destruct (JsString.includes t "Disallow: /") eqn:Hi; [|done].
      intros _. exists resp, t. done.
    + intros (resp & t & -> & -> & -> & ->). done.
  - intros resp -> ->. done.
  - intros resp t -> -> -> ->. done.
  - by intros e ->.
  - intros env' url' w0 Heq. rewrite canScrape_value, gate_value_response.
    by rewrite Heq.
Qed.

(** The unreachable case of C6 on the small Internet. *)
Example canScrape_unreachable_ex :
  (canScrape Demo.env "https://down.example/docs" blank).1 = Ok JUndefined
  /\ (canScrape Demo.env "https://bare.example/docs" blank).1 = Ok (JBool true)
  /\ (canScrape Demo.env "https://closed.example/docs" blank).1 = Ok (JBool false)
  /\ (canScrape Demo.env "https://docs.stripe.com/api" blank).1 = Ok (JBool true).
Proof. repeat split; reflexivity. Qed.

(** ** Enqueueing *)

Lemma checkAndEnqueueOne_spec env n api w :
  exists w',
    checkAndEnqueueOne env n api w
    = (Ok (if resolves_to_allow env api then S n else n), w')
    /\ requests w'
       = requests w ++ (if resolves_to_allow env api then [request_of api] else [])
    /\ files w' = files w /\ crawler_runs w' = crawler_runs w
    /\ dates_taken w' = dates_taken w
    /\ (exists lines, console w' = console w ++ lines)
    /\ (resolves_to_allow env api = false ->
        SkippingNotAllowed (Official_Documentation_URL api) ∈ console w').
Proof.
  unfold checkAndEnqueueOne, bind.
  destruct (canScrape_returns env (Official_Documentation_URL api) w)
    as (w1 & -> & Hf & Hr & Hc & Hd & lines & Hl).
  rewrite resolves_to_allow_gate.
  destruct (truthy (gate_value env (Official_Documentation_URL api))); simpl.
  - eexists; split; [reflexivity|]. simpl. rewrite Hr, Hf, Hc, Hd, Hl.
    repeat split; try done. exists (lines ++ [Enqueued (Official_Documentation_URL api)]).
    by rewrite app_assoc.
  - eexists; split; [reflexivity|]. simpl. rewrite Hr, Hf, Hc, Hd, Hl, app_nil_r.
    repeat split; try done.
    + exists (lines ++ [SkippingNotAllowed (Official_Documentation_URL api)]).
      by rewrite app_assoc.
    + intros _. set_solver.
Qed.

Lemma foldM_checkAndEnqueueOne env l : forall n w,
  exists w',
    foldM (checkAndEnqueueOne env) l n w
    = (Ok (n + length (filter (fun api => resolves_to_allow env api = true) l)), w')
    /\ requests w'
       = requests w
         ++ map request_of (filter (fun api => resolves_to_allow env api = true) l)
    /\ files w' = files w /\ crawler_runs w' = crawler_runs w
    /\ dates_taken w' = dates_taken w
    /\ (exists lines, console w' = console w ++ lines)
    /\ (forall api, api ∈ l -> resolves_to_allow env api = false ->
        SkippingNotAllowed (Official_Documentation_URL api) ∈ console w').
Proof.
  induction l as [|api l IH]; intros n w; simpl.
  - exists w. unfold ret. rewrite Nat.add_0_r, app_nil_r.
    repeat split; try done.
    + exists []. by rewrite app_nil_r.
    + intros api Hin. by apply elem_of_nil in Hin.
  - unfold bind.
    destruct (checkAndEnqueueOne_spec env n api w)
      as (w1 & -> & Hr1 & Hf1 & Hc1 & Hd1 & (lines1 & Hl1) & Hskip1).
    destruct (IH (if resolves_to_allow env api then S n else n) w1)
      as (w2 & -> & Hr2 & Hf2 & Hc2 & Hd2 & (lines2 & Hl2) & Hskip2).
    exists w2.
    rewrite Hr2, Hr1, Hf2, Hf1, Hc2, Hc1, Hd2, Hd1.
    rewrite filter_cons.
    destruct (resolves_to_allow env api) eqn:Ha.
    + rewrite decide_True by done. simpl.
      repeat split; try done.
      * do 2 f_equal. lia.
      * by rewrite <- app_assoc.
      * exists (lines1 ++ lines2). by rewrite Hl2, Hl1, app_assoc.
      * intros api' Hin Hno. apply elem_of_cons in Hin as [->|Hin].
        -- congruence.
        -- by apply Hskip2.
    + rewrite decide_False by done. simpl.
      repeat split; try done.
      * by rewrite app_nil_r.
      * exists (lines1 ++ lines2). by rewrite Hl2, Hl1, app_assoc.
      * intros api' Hin Hno. apply elem_of_cons in Hin as [->|Hin].
        -- rewrite Hl2. apply elem_of_app. left. by apply Hskip1.
        -- by apply Hskip2.
Qed.

(** C5.  Whatever the order in which the robots checks complete,
    [checkRobotsAndEnqueue] returns, and it returns the number of catalog
    entries the gate allowed; the crawler's queue has grown by exactly one
    request per allowed entry, carrying the entry's URL and its API name,
    and by nothing else; every refused entry has its skip notice on the
    console.  For a catalog of two entries, one refused and one allowed,
    the count is 1 and the one new request is the allowed entry's. *)
Theorem checkRobotsAndEnqueue_registers_allowed env apis completion w :
  apis ≡ₚ completion ->
  let allowed := filter (fun api => resolves_to_allow env api = true) apis in
  exists w',
    checkRobotsAndEnqueue env completion w = (Ok (length allowed), w')
    /\ (exists added, requests w' = requests w ++ added
                      /\ added ≡ₚ map request_of allowed)
    /\ (forall api, api ∈ apis -> resolves_to_allow env api = false ->
        SkippingNotAllowed (Official_Documentation_URL api) ∈ console w')
    /\ (forall refused granted,
          apis ≡ₚ [refused; granted] ->
          resolves_to_allow env refused = false ->
          resolves_to_allow env granted = true ->
          length allowed = 1
          /\ requests w' = requests w ++ [request_of granted]).
Proof.
  intros Hperm allowed. unfold checkRobotsAndEnqueue.
  destruct (foldM_checkAndEnqueueOne env completion 0 w)
    as (w' & Hrun & Hreq & _ & _ & _ & _ & Hskip).
  assert (Hfp : filter (fun api => resolves_to_allow env api = true) completion
                ≡ₚ allowed).
  { subst allowed. by rewrite Hperm. }
  exists w'. split; [|split; [|split]].
  - rewrite Hrun. simpl. by rewrite Hfp.
  - eexists. split; [exact Hreq|]. by rewrite Hfp.
  - intros api Hin. apply Hskip. by rewrite <- Hperm.
  - intros refused granted Hp2 Hno Hyes.
    assert (Hal : allowed ≡ₚ [granted]).
    { subst allowed. rewrite Hp2. rewrite filter_cons, decide_False by congruence.
      rewrite filter_cons, decide_True by done. by rewrite filter_nil. }
    split.
    + by rewrite Hal.
    + rewrite Hreq. f_equal.
      apply Permutation_singleton_r in Hal.
      assert (Hc : filter (fun api => resolves_to_allow env api = true) completion
                   = [granted]).
      { apply Permutation_singleton_r. by rewrite Hfp, Hal. }
      by rewrite Hc.
Qed.

Lemma checkRobotsAndEnqueue_registers_allowed_witness :
  exists w',
    checkRobotsAndEnqueue Demo.env [Demo.stripe; Demo.closed] blank = (Ok 1, w')
    /\ requests w' = [request_of Demo.stripe]
    /\ SkippingNotAllowed "https://closed.example/docs" ∈ console w'.
Proof.
  destruct (checkRobotsAndEnqueue_registers_allowed Demo.env
              [Demo.closed; Demo.stripe] [Demo.stripe; Demo.closed] blank
              (Permutation_swap _ _ _))
    as (w' & Hrun & _ & Hskip & Htwo).
  destruct (Htwo Demo.closed Demo.stripe (Permutation_refl _) eq_refl eq_refl)
    as [_ Hreq].
  exists w'. split; [exact Hrun|]. split; [exact Hreq|].
  apply (Hskip Demo.closed); [|reflexivity].
  apply elem_of_cons. by left.
Defined.

(** ** Strings and paths *)

Section StringFacts.

Implicit Types s t u : string.

Lemma app_cons a s t : String a s +:+ t = String a (s +:+ t).
Proof. reflexivity. Qed.

Lemma app_empty_r s : s +:+ "" = s.
Proof. induction s as [|a s IH]; [done|]. by rewrite app_cons, IH. Qed.

Lemma app_assoc_s s t u : (s +:+ t) +:+ u = s +:+ (t +:+ u).
Proof. induction s as [|a s IH]; [done|]. by rewrite !app_cons, IH. Qed.

Lemma length_app_s s t :
  String.length (s +:+ t) = String.length s + String.length t.
Proof. induction s as [|a s IH]; [done|]. rewrite app_cons. simpl. by rewrite IH. Qed.

Lemma rev_app_app s t u : String.rev_app s t +:+ u = String.rev_app s (t +:+ u).
Proof. revert t. induction s as [|a s IH]; intros t; [done|]. simpl. by rewrite IH. Qed.

Lemma contains_char_app c s t :
  JsString.contains_char c (s +:+ t)
  = JsString.contains_char c s || JsString.contains_char c t.
Proof.
  induction s as [|a s IH]; [done|]. rewrite app_cons. simpl.
  rewrite IH. by rewrite orb_assoc.
Qed.

Lemma split_go_no_sep c s cur :
  JsString.contains_char c s = false ->
  JsString.split_go c s cur = [String.rev cur +:+ s].
Proof.
  revert cur. induction s as [|a s IH]; intros cur H; simpl in *.
  - by rewrite app_empty_r.
  - apply orb_false_iff in H as [Ha Hs]. rewrite Ha, IH by done.
    unfold String.rev. simpl. by rewrite !rev_app_app.
Qed.

Lemma split_no_sep c s :
  JsString.contains_char c s = false -> JsString.split c s = [s].
Proof. intros H. unfold JsString.split. by rewrite split_go_no_sep. Qed.

Lemma valid_name_spec n :
  Path.valid_name n = true <->
  n ≠ "" /\ n ≠ "." /\ n ≠ ".." /\ JsString.contains_char "/" n = false.
Proof.
  unfold Path.valid_name.
  rewrite !andb_true_iff, !negb_true_iff, !String.eqb_neq. tauto.
Qed.

Lemma join_valid_name dir n :
  Path.valid_name n = true -> Path.join dir n = dir ++ [n].
Proof.
  intros (H1 & H2 & H3 & H4)%valid_name_spec.
  unfold Path.join. rewrite split_no_sep by done. simpl.
  unfold Path.norm_step.
  apply String.eqb_neq in H1, H2, H3. by rewrite H1, H2, H3.
Qed.

Lemma endsWith_spec s suffix :
  JsString.endsWith s suffix = true <-> exists pre, s = pre +:+ suffix.
Proof.
  induction s as [|a s IH].
  - change (JsString.endsWith "" suffix) with (String.eqb "" suffix || false).
    rewrite orb_false_r, String.eqb_eq. split.
    + intros <-. by exists "".
    + intros [[|b pre] H]; [done|]. by rewrite app_cons in H.
  - change (JsString.endsWith (String a s) suffix)
      with (String.eqb (String a s) suffix || JsString.endsWith s suffix).
    rewrite orb_true_iff, String.eqb_eq, IH. split.
    + intros [<-|[pre ->]]; [by exists ""|]. by exists (String a pre).
    + intros [[|b pre] H]; [by left|]. rewrite app_cons in H.
      injection H as -> ->. right. by exists pre.
Qed.

Lemma endsWith_false_ne s t suffix :
  JsString.endsWith s suffix = false -> JsString.endsWith t suffix = true -> s ≠ t.
Proof. intros H1 H2 ->. congruence. Qed.

End StringFacts.

Section NormalPaths.

Implicit Types p q : list string.

Lemma valid_name_not_dotdot n : Path.valid_name n = true -> String.eqb n ".." = false.
Proof. intros (_ & _ & H & _)%valid_name_spec. by apply String.eqb_neq. Qed.

Lemma ancestor_cons n p :
  is_ancestor_of_cwd (n :: p) = String.eqb ".." n && is_ancestor_of_cwd p.
Proof. reflexivity. Qed.

Lemma ancestor_normal p : is_ancestor_of_cwd p = true -> normal p = true.
Proof.
  induction p as [|n p IH]; [done|]. rewrite ancestor_cons.
  intros [Hn Hp]%andb_true_iff. unfold normal. simpl.
  rewrite String.eqb_sym, Hn. by apply IH.
Qed.

Lemma ancestor_snoc p n :
  is_ancestor_of_cwd (p ++ [n]) = is_ancestor_of_cwd p && String.eqb ".." n.
Proof.
  unfold is_ancestor_of_cwd. rewrite forallb_app. simpl. by rewrite andb_true_r.
Qed.

Lemma valid_snoc_not_ancestor p n :
  Path.valid_name n = true -> is_ancestor_of_cwd (p ++ [n]) = false.
Proof.
  intros H%valid_name_not_dotdot. rewrite ancestor_snoc, String.eqb_sym, H.
  apply andb_false_r.
Qed.

Lemma normal_snoc_valid p n :
  normal p = true -> Path.valid_name n = true -> normal (p ++ [n]) = true.
Proof.
  intros Hp Hn. induction p as [|m p IH].
  - unfold normal. simpl. rewrite (valid_name_not_dotdot n Hn). simpl.
    by rewrite Hn.
  - unfold normal in *. simpl in *. destruct (String.eqb m ".."); [by apply IH|].
    change (m :: p ++ [n]) with ((m :: p) ++ [n]).
    rewrite forallb_app, Hp. simpl. by rewrite Hn.
Qed.

Lemma normal_snoc_dotdot p :
  is_ancestor_of_cwd p = true -> normal (p ++ [".."]) = true.
Proof.
  intros H. apply ancestor_normal. rewrite ancestor_snoc, H. done.
Qed.

Lemma forallb_removelast {A} (f : A -> bool) (l : list A) :
  forallb f l = true -> forallb f (removelast l) = true.
Proof.
  induction l as [|a l IHl]; [done|]. intros [Ha Hl]%andb_true_iff.
  destruct l as [|b l]; [done|].
  change (removelast (a :: b :: l)) with (a :: removelast (b :: l)).
  change (f a && forallb f (removelast (b :: l)) = true).
  rewrite Ha. by apply IHl.
Qed.

Lemma normal_removelast p : normal p = true -> normal (removelast p) = true.
Proof.
  induction p as [|m p IH]; [done|]. intros H.
  destruct p as [|m' p]; [done|].
  change (removelast (m :: m' :: p)) with (m :: removelast (m' :: p)).
  unfold normal in *.
  change (skip_dotdots (m :: removelast (m' :: p)))
    with (if String.eqb m ".." then skip_dotdots (removelast (m' :: p))
          else m :: removelast (m' :: p)).
  change (skip_dotdots (m :: m' :: p))
    with (if String.eqb m ".." then skip_dotdots (m' :: p)
          else m :: m' :: p) in H.
  destruct (String.eqb m ".."); [by apply IH|].
  change (m :: removelast (m' :: p)) with (removelast (m :: m' :: p)).
  by apply forallb_removelast.
Qed.

Lemma normal_last_dotdot p :
  normal p = true -> last p = Some ".." -> is_ancestor_of_cwd p = true.
Proof.
  induction p as [|m p IH]; [done|]. intros Hn Hl.
  rewrite ancestor_cons. unfold normal in Hn. simpl in Hn.
  destruct (String.eqb m "..") eqn:Hm.
  - rewrite String.eqb_sym, Hm. simpl. destruct p as [|m' p]; [done|].
    apply IH; [done|]. by rewrite last_cons_cons in Hl.
  - exfalso. apply (forallb_forall Path.valid_name) with (x := "..") in Hn.
    + done.
    + apply list_elem_of_In. apply last_Some in Hl as [l' ->].
      apply elem_of_app. right. by apply list_elem_of_singleton.
Qed.

Lemma parent_snoc p n : parent (p ++ [n]) = p.
Proof. unfold parent. apply removelast_last. Qed.

Lemma split_go_no_sep_in c s cur :
  JsString.contains_char c (String.rev cur) = false ->
  Forall (fun x => JsString.contains_char c x = false) (JsString.split_go c s cur).
Proof.
  revert cur. induction s as [|a s IH]; intros cur Hcur; simpl.
  - by constructor.
  - destruct (Ascii.eqb a c) eqn:Ha.
    + constructor; [done|]. by apply IH.
    + apply IH. unfold String.rev in *. simpl.
      pose proof (rev_app_app cur "" (String a "")) as E.
      change ("" +:+ String a "") with (String a "") in E. rewrite <- E.
      rewrite contains_char_app, Hcur. simpl. by rewrite Ha.
Qed.

Lemma norm_step_normal stack c :
  normal stack = true -> JsString.contains_char "/" c = false ->
  normal (Path.norm_step stack c) = true.
Proof.
  intros Hs Hc. unfold Path.norm_step.
  destruct (String.eqb c "") eqn:H1; [done|].
  destruct (String.eqb c ".") eqn:H2; [done|]. simpl.
  destruct (String.eqb c "..") eqn:H3.
  - apply String.eqb_eq in H3 as ->.
    destruct (last stack) as [top|] eqn:Hl.
    + destruct (String.eqb top "..") eqn:Ht.
      * apply String.eqb_eq in Ht as ->.
        apply normal_snoc_dotdot. by apply normal_last_dotdot.
      * by apply normal_removelast.
    + apply last_None in Hl as ->. done.
  - apply normal_snoc_valid; [done|]. apply valid_name_spec.
    by rewrite <- !String.eqb_neq.
Qed.

Lemma join_normal dir rel : normal dir = true -> normal (Path.join dir rel) = true.
Proof.
  unfold Path.join, JsString.split.
  pose proof (split_go_no_sep_in "/" rel "" eq_refl) as H.
  revert dir. induction H as [|c l Hc Hl IH]; intros dir Hd; [done|].
  simpl. apply IH. by apply norm_step_normal.
Qed.

End NormalPaths.

(** ** The file system *)

Section FsFacts.

Implicit Types (fs : tree) (p q : list string).

Lemma stat_lookup fs p : is_ancestor_of_cwd p = false -> stat fs p = fs !! p.
Proof. unfold stat. by intros ->. Qed.

Lemma stat_ancestor fs p : is_ancestor_of_cwd p = true -> stat fs p = Some Dir.
Proof. unfold stat. by intros ->. Qed.

Lemma stat_None fs p : stat fs p = None -> is_ancestor_of_cwd p = false /\ fs !! p = None.
Proof. unfold stat. destruct (is_ancestor_of_cwd p); [done|]. done. Qed.

Lemma stat_File fs p c :
  stat fs p = Some (File c) -> is_ancestor_of_cwd p = false /\ fs !! p = Some (File c).
Proof. unfold stat. destruct (is_ancestor_of_cwd p); [done|]. done. Qed.

Lemma not_ancestor_ne_parent p : is_ancestor_of_cwd p = false -> parent p ≠ p.
Proof.
  destruct p as [|n p] using rev_ind; [done|]. intros _.
  rewrite parent_snoc. intros H. apply (f_equal length) in H.
  rewrite length_app in H. simpl in H. lia.
Qed.

Lemma wf_lookup fs p n : wf fs -> fs !! p = Some n -> wf_entry fs p.
Proof. intros Hwf Hp. exact (Hwf p n Hp). Qed.

Lemma wf_insert fs p n :
  wf fs -> normal p = true -> is_ancestor_of_cwd p = false ->
  stat fs (parent p) = Some Dir ->
  (fs !! p = Some Dir -> n = Dir) ->
  wf (<[p := n]> fs).
Proof.
  intros Hwf Hn Ha Hpar Hkeep k m Hk.
  assert (Hstat : forall q, stat fs q = Some Dir -> stat (<[p := n]> fs) q = Some Dir).
  { intros q Hq. unfold stat in *. destruct (is_ancestor_of_cwd q); [done|].
    destruct (decide (p = q)) as [->|Hne].
    - rewrite lookup_insert_eq. f_equal. by apply Hkeep.
    - by rewrite lookup_insert_ne. }
  destruct (decide (p = k)) as [->|Hne].
  - repeat split; try done. by apply Hstat.
  - rewrite lookup_insert_ne in Hk by done.
    destruct (wf_lookup _ _ _ Hwf Hk) as (H1 & H2 & H3).
    repeat split; try done. by apply Hstat.
Qed.

Lemma wf_delete fs p :
  wf fs -> fs !! p ≠ Some Dir -> wf (delete p fs).
Proof.
  intros Hwf Hp k m Hk.
  apply lookup_delete_Some in Hk as [Hne Hk].
  destruct (wf_lookup _ _ _ Hwf Hk) as (H1 & H2 & H3).
  repeat split; try done.
  unfold stat in *. destruct (is_ancestor_of_cwd (parent k)); [done|].
  rewrite lookup_delete_ne; [done|]. intros ->. done.
Qed.

Lemma prefix_parent p q : p `prefix_of` parent q -> p `prefix_of` q.
Proof.
  intros H. destruct q as [|n q] using rev_ind; [done|].
  rewrite parent_snoc in H. by apply prefix_app_r.
Qed.

Lemma remove_tree_lookup fs p q :
  remove_tree fs p !! q = if decide (p `prefix_of` q) then None else fs !! q.
Proof.
  unfold remove_tree. destruct (decide (p `prefix_of` q)) as [H|H].
  - apply map_lookup_filter_None. right. intros n _. simpl. tauto.
  - destruct (fs !! q) as [n|] eqn:Hq.
    + apply map_lookup_filter_Some. done.
    + apply map_lookup_filter_None. by left.
Qed.

Lemma wf_remove_tree fs p : wf fs -> wf (remove_tree fs p).
Proof.
  intros Hwf k m Hk. rewrite remove_tree_lookup in Hk.
  destruct (decide (p `prefix_of` k)) as [|Hpre]; [done|].
  destruct (wf_lookup _ _ _ Hwf Hk) as (H1 & H2 & H3).
  repeat split; try done.
  unfold stat in *. destruct (is_ancestor_of_cwd (parent k)); [done|].
  rewrite remove_tree_lookup. rewrite decide_False; [done|].
  intros H. by apply Hpre, prefix_parent.
Qed.

(** In a well-formed tree nothing lies below a missing path. *)
Lemma wf_nothing_below fs p q :
  wf fs -> stat fs p = None -> p `prefix_of` q -> fs !! q = None.
Proof.
  intros Hwf Hp [r ->]. induction r as [|n r IH] using rev_ind.
  - rewrite app_nil_r. by apply stat_None in Hp as [_ ?].
  - destruct (fs !! (p ++ r ++ [n])) as [m|] eqn:Hq; [|done].
    destruct (wf_lookup _ _ _ Hwf Hq) as (_ & _ & H3).
    rewrite app_assoc, parent_snoc in H3.
    apply stat_None in Hp as [Hanc Hp].
    assert (is_ancestor_of_cwd (p ++ r) = false) as Hanc'.
    { unfold is_ancestor_of_cwd in *. rewrite forallb_app, Hanc. done. }
    rewrite stat_lookup in H3 by done. rewrite IH in H3. done.
Qed.

(** In a well-formed tree only directories have entries. *)
Lemma wf_parent_dir fs p n m :
  wf fs -> fs !! (p ++ [n]) = Some m -> stat fs p = Some Dir.
Proof.
  intros Hwf Hq. destruct (wf_lookup _ _ _ Hwf Hq) as (_ & _ & H3).
  by rewrite parent_snoc in H3.
Qed.

End FsFacts.

Section NameFacts.

Lemma contains_char_substring c s : forall n m,
  JsString.contains_char c s = false ->
  JsString.contains_char c (String.substring n m s) = false.
Proof.
  induction s as [|a s IH]; intros n m H.
  - by destruct n, m.
  - simpl in H. apply orb_false_iff in H as [Ha Hs].
    destruct n as [|n]; simpl.
    + destruct m as [|m]; [done|]. simpl. rewrite Ha. by apply IH.
    + by apply IH.
Qed.

Lemma digit_not_slash d : d < 10 -> Ascii.eqb (JsString.digit d) "/" = false.
Proof.
  intros H. do 10 (destruct d as [|d]; [reflexivity|]). lia.
Qed.

Lemma digits_fuel_S fuel n acc :
  JsString.digits_fuel (S fuel) n acc
  = if n / 10 =? 0 then String (JsString.digit (n mod 10)) acc
    else JsString.digits_fuel fuel (n / 10) (String (JsString.digit (n mod 10)) acc).
Proof. reflexivity. Qed.

Lemma contains_char_cons c a s :
  JsString.contains_char c (String a s) = Ascii.eqb a c || JsString.contains_char c s.
Proof. reflexivity. Qed.

Lemma digits_fuel_no_slash fuel : forall n acc,
  JsString.contains_char "/" acc = false ->
  JsString.contains_char "/" (JsString.digits_fuel fuel n acc) = false.
Proof.
  induction fuel as [|fuel IH]; intros n acc H; [done|].
  rewrite digits_fuel_S.
  assert (JsString.contains_char "/" (String (JsString.digit (n mod 10)) acc) = false) as H'.
  { rewrite contains_char_cons, digit_not_slash, H; [done|].
    apply Nat.mod_upper_bound. lia. }
  destruct (n / 10 =? 0); [done|]. by apply IH.
Qed.

Lemma toString_no_slash n : JsString.contains_char "/" (JsString.toString n) = false.
Proof. by apply digits_fuel_no_slash. Qed.

Lemma padStart0_no_slash k s :
  JsString.contains_char "/" s = false ->
  JsString.contains_char "/" (JsString.padStart0 k s) = false.
Proof.
  intros H. unfold JsString.padStart0. rewrite contains_char_app, H, orb_false_r.
  induction (k - String.length s) as [|j IH]; [done|]. simpl. exact IH.
Qed.

Lemma generateTimestamp_no_slash now :
  JsString.contains_char "/" (generateTimestamp now) = false.
Proof.
  unfold generateTimestamp. cbv zeta.
  rewrite !contains_char_app.
  rewrite !padStart0_no_slash by apply toString_no_slash.
  unfold JsString.slice_last.
  by rewrite contains_char_substring by apply toString_no_slash.
Qed.

Lemma basename_no_slash file suffix :
  JsString.contains_char "/" file = false ->
  JsString.contains_char "/" (Path.basename file suffix) = false.
Proof.
  intros H. unfold Path.basename.
  destruct (_ && _); [|done].
  destruct (String.eqb file suffix); [done|].
  destruct (JsString.endsWith file suffix); [|done].
  by apply contains_char_substring.
Qed.

Lemma extname_no_slash file :
  JsString.contains_char "/" file = false ->
  JsString.contains_char "/" (Path.extname file) = false.
Proof.
  intros H. unfold Path.extname.
  destruct (JsString.lastIndexOf "." file) as [[|i]|]; try done.
  destruct (String.eqb file ".."); [done|].
  by apply contains_char_substring.
Qed.

Lemma renamed_valid env k file :
  Path.valid_name file = true -> Path.valid_name (renamed env k file) = true.
Proof.
  intros (_ & _ & _ & Hs)%valid_name_spec.
  assert (JsString.contains_char "_" (renamed env k file) = true) as Hu.
  { unfold renamed. rewrite !contains_char_app. simpl. by rewrite orb_true_r. }
  apply valid_name_spec. repeat split.
  - intros E. by rewrite E in Hu.
  - intros E. by rewrite E in Hu.
  - intros E. by rewrite E in Hu.
  - unfold renamed. rewrite !contains_char_app.
    rewrite basename_no_slash, extname_no_slash, generateTimestamp_no_slash by done.
    done.
Qed.

End NameFacts.

(** ** Curating one staged file *)

Section CurateFile.

Variable env : Env.

Lemma directoryPath_eq : directoryPath = ["storage"; "request_queues"; "default"].
Proof. reflexivity. Qed.

Lemma destinationPath_eq : destinationPath = ["scrapers"; "datasets"].
Proof. reflexivity. Qed.

Lemma storagePath_eq : storagePath = ["storage"].
Proof. reflexivity. Qed.

Lemma join_staged file :
  Path.valid_name file = true -> Path.join directoryPath file = staged file.
Proof. apply join_valid_name. Qed.

Lemma join_accepted name :
  Path.valid_name name = true -> Path.join destinationPath name = accepted name.
Proof. apply join_valid_name. Qed.

Lemma staged_not_ancestor file : is_ancestor_of_cwd (staged file) = false.
Proof. reflexivity. Qed.

Lemma accepted_not_ancestor name : is_ancestor_of_cwd (accepted name) = false.
Proof. reflexivity. Qed.

Lemma staged_ne_accepted file name : staged file ≠ accepted name.
Proof. discriminate. Qed.

Lemma parent_staged file : parent (staged file) = directoryPath.
Proof. apply parent_snoc. Qed.

Lemma parent_accepted name : parent (accepted name) = destinationPath.
Proof. apply parent_snoc. Qed.

Lemma staged_inj f g : staged f = staged g -> f = g.
Proof. unfold staged. intros H. by apply app_inj_1 in H as [_ [= ->]]. Qed.

Lemma accepted_inj f g : accepted f = accepted g -> f = g.
Proof. unfold accepted. intros H. by apply app_inj_1 in H as [_ [= ->]]. Qed.

(** A file that is not a [.json] file is passed over. *)
Lemma curateFile_other file w :
  JsString.endsWith file ".json" = false -> curateFile env file w = (Ok tt, w).
Proof. intros H. unfold curateFile. by rewrite H. Qed.

(** Reading fails. *)
Lemma curateFile_unreadable file w e :
  Path.valid_name file = true -> JsString.endsWith file ".json" = true ->
  readFileSync (files w) (staged file) = Throw e ->
  curateFile env file w = (Ok tt, say (ErrorReadingOrParsing file e) w).
Proof.
  intros Hv Hj Hr. unfold curateFile. rewrite Hj, join_staged by done.
  unfold try_catch, bind, fs_try. rewrite Hr. reflexivity.
Qed.

(** Parsing fails. *)
Lemma curateFile_unparsable file w content e :
  Path.valid_name file = true -> JsString.endsWith file ".json" = true ->
  readFileSync (files w) (staged file) = Ok content ->
  JSON_parse env content = Throw e ->
  curateFile env file w = (Ok tt, say (ErrorReadingOrParsing file e) w).
Proof.
  intros Hv Hj Hr Hp. unfold curateFile. rewrite Hj, join_staged by done.
  unfold try_catch, bind, fs_try, lift. rewrite Hr, Hp. reflexivity.
Qed.

(** The validity test itself throws. *)
Lemma curateFile_untestable file w content data e :
  Path.valid_name file = true -> JsString.endsWith file ".json" = true ->
  readFileSync (files w) (staged file) = Ok content ->
  JSON_parse env content = Ok data ->
  is_invalid data = Throw e ->
  curateFile env file w = (Ok tt, say (ErrorReadingOrParsing file e) w).
Proof.
  intros Hv Hj Hr Hp Hi. unfold curateFile. rewrite Hj, join_staged by done.
  unfold try_catch, bind, fs_try, lift. rewrite Hr, Hp, Hi. reflexivity.
Qed.

Lemma readFileSync_Ok fs p content :
  readFileSync fs p = Ok content <-> stat fs p = Some (File content).
Proof.
  unfold readFileSync. destruct (stat fs p) as [[c|]|]; split; intros H; by simplify_eq.
Qed.

(** An invalid record is unlinked. *)
Lemma curateFile_invalid file w content data :
  Path.valid_name file = true -> JsString.endsWith file ".json" = true ->
  readFileSync (files w) (staged file) = Ok content ->
  JSON_parse env content = Ok data ->
  is_invalid data = Ok true ->
  curateFile env file w
  = (Ok tt, set_files (delete (staged file) (files w))
              (say (DeletingInvalidFile file) w)).
Proof.
  intros Hv Hj Hr Hp Hi. unfold curateFile. rewrite Hj, join_staged by done.
  unfold try_catch, bind, fs_try, lift. rewrite Hr, Hp, Hi.
  apply readFileSync_Ok in Hr.
  unfold print, fs_update, unlinkSync. simpl. rewrite Hr. reflexivity.
Qed.

Lemma renameSync_file fs src dst content :
  stat fs src = Some (File content) ->
  stat fs dst ≠ Some Dir ->
  stat fs (parent dst) = Some Dir ->
  renameSync fs src dst = Ok (<[dst := File content]> (delete src fs)).
Proof.
  intros Hs Hd Hp. unfold renameSync. rewrite Hs.
  destruct (stat fs dst) as [[c|]|]; [done|done|]. by rewrite Hp.
Qed.

(** A valid record whose name is free in the dataset folder moves there. *)
Lemma curateFile_moved file w content data :
  Path.valid_name file = true -> JsString.endsWith file ".json" = true ->
  readFileSync (files w) (staged file) = Ok content ->
  JSON_parse env content = Ok data ->
  is_invalid data = Ok false ->
  stat (files w) (accepted file) = None ->
  stat (files w) destinationPath = Some Dir ->
  curateFile env file w
  = (Ok tt, say (MovedValidFile file)
              (set_files (<[accepted file := File content]>
                            (delete (staged file) (files w))) w)).
Proof.
  intros Hv Hj Hr Hp Hi Hfree Hdir. unfold curateFile.
  rewrite Hj, join_staged, join_accepted by done.
  unfold try_catch, bind, fs_try, lift. rewrite Hr, Hp, Hi.
  apply readFileSync_Ok in Hr.
  unfold fs_read, existsSync. rewrite Hfree.
  unfold fs_update.
  rewrite (renameSync_file _ _ _ content); try done.
  by rewrite Hfree.
Qed.

(** A valid record whose name is taken moves under the name with the
    timestamp. *)
Lemma curateFile_renamed file w content data :
  Path.valid_name file = true -> JsString.endsWith file ".json" = true ->
  readFileSync (files w) (staged file) = Ok content ->
  JSON_parse env content = Ok data ->
  is_invalid data = Ok false ->
  stat (files w) (accepted file) ≠ None ->
  stat (files w) (accepted (renamed env (dates_taken w) file)) ≠ Some Dir ->
  stat (files w) destinationPath = Some Dir ->
  curateFile env file w
  = (Ok tt,
     {| files := <[accepted (renamed env (dates_taken w) file) := File content]>
                   (delete (staged file) (files w));
        console := console w ++ [MovedAndRenamed (renamed env (dates_taken w) file)];
        requests := requests w; crawler_runs := crawler_runs w;
        dates_taken := S (dates_taken w) |}).
Proof.
  intros Hv Hj Hr Hp Hi Htaken Hnodir Hdir. unfold curateFile.
  rewrite Hj, join_staged, join_accepted by done.
  unfold try_catch, bind, fs_try, lift. rewrite Hr, Hp, Hi.
  apply readFileSync_Ok in Hr.
  unfold fs_read, existsSync.
  destruct (stat (files w) (accepted file)) as [n|] eqn:Hn; [|done].
  unfold generateTimestampNow.
  fold (renamed env (dates_taken w) file).
  rewrite join_accepted by by apply renamed_valid.
  unfold fs_update. simpl files.
  by rewrite (renameSync_file _ _ _ content).
Qed.

End CurateFile.

Section CurateShape.

Variable env : Env.

Lemma renameSync_file_cases fs src dst content :
  wf fs -> is_ancestor_of_cwd dst = false ->
  stat fs src = Some (File content) ->
  (renameSync fs src dst = Ok (<[dst := File content]> (delete src fs))
   /\ stat fs dst ≠ Some Dir /\ stat fs (parent dst) = Some Dir)
  \/ exists e, renameSync fs src dst = Throw e.
Proof.
  intros Hwf Hanc Hs. unfold renameSync. rewrite Hs.
  destruct (stat fs dst) as [[c|]|] eqn:Hd.
  - left. repeat split; try done.
    rewrite stat_lookup in Hd by done.
    by destruct (wf_lookup _ _ _ Hwf Hd) as (_ & _ & ?).
  - right. by eexists.
  - destruct (stat fs (parent dst)) as [[c|]|] eqn:Hp.
    + right. by eexists.
    + left. done.
    + right. by eexists.
Qed.

(** What one call of the callback can do to the world. *)
Lemma curateFile_shape file w :
  Path.valid_name file = true -> wf (files w) ->
  exists w',
    curateFile env file w = (Ok tt, w')
    /\ requests w' = requests w /\ crawler_runs w' = crawler_runs w
    /\ (exists lines, console w' = console w ++ lines
          /\ Forall (fun l => is_storage_error l = false) lines)
    /\ (files w' = files w
        \/ (exists content,
              stat (files w) (staged file) = Some (File content)
              /\ files w' = delete (staged file) (files w))
        \/ (exists content name,
              stat (files w) (staged file) = Some (File content)
              /\ Path.valid_name name = true
              /\ ((name = file /\ stat (files w) (accepted file) = None)
                  \/ (name = renamed env (dates_taken w) file
                      /\ stat (files w) (accepted file) ≠ None))
              /\ stat (files w) (accepted name) ≠ Some Dir
              /\ stat (files w) destinationPath = Some Dir
              /\ files w' = <[accepted name := File content]>
                              (delete (staged file) (files w)))).
Proof.
  intros Hv Hwf.
  assert (Herr : forall e w0, files w0 = files w -> requests w0 = requests w ->
            crawler_runs w0 = crawler_runs w -> console w0 = console w ->
            exists w', (Ok tt, say (ErrorReadingOrParsing file e) w0) = (Ok tt, w')
    /\ requests w' = requests w /\ crawler_runs w' = crawler_runs w
    /\ (exists lines, console w' = console w ++ lines
          /\ Forall (fun l => is_storage_error l = false) lines)
    /\ (files w' = files w
        \/ (exists content,
              stat (files w) (staged file) = Some (File content)
              /\ files w' = delete (staged file) (files w))
        \/ (exists content name,
              stat (files w) (staged file) = Some (File content)
              /\ Path.valid_name name = true
              /\ ((name = file /\ stat (files w) (accepted file) = None)
                  \/ (name = renamed env (dates_taken w) file
                      /\ stat (files w) (accepted file) ≠ None))
              /\ stat (files w) (accepted name) ≠ Some Dir
              /\ stat (files w) destinationPath = Some Dir
              /\ files w' = <[accepted name := File content]>
                              (delete (staged file) (files w))))).
  { intros e w0 H1 H2 H3 H4. eexists. split; [reflexivity|]. simpl.
    rewrite H1, H2, H3, H4. repeat split; try done.
    - eexists. split; [done|]. by repeat constructor.
    - by left. }
  destruct (JsString.endsWith file ".json") eqn:Hj.
  2:{ rewrite curateFile_other by done. exists w. repeat split; try done.
      - exists []. by rewrite app_nil_r.
      - by left. }
  destruct (readFileSync (files w) (staged file)) as [content|e] eqn:Hr.
  2:{ rewrite (curateFile_unreadable env file w e) by done. by apply Herr. }
  destruct (JSON_parse env content) as [data|e] eqn:Hp.
  2:{ rewrite (curateFile_unparsable env file w content e) by done. by apply Herr. }
  destruct (is_invalid data) as [[|]|e] eqn:Hi.
  3:{ rewrite (curateFile_untestable env file w content data e) by done.
      by apply Herr. }
  - rewrite (curateFile_invalid env file w content data) by done.
    eexists. split; [reflexivity|]. simpl. repeat split; try done.
    + eexists. split; [done|]. by repeat constructor.
    + right. left. exists content. split; [|done]. by apply readFileSync_Ok.
  - pose proof Hr as Hs. apply readFileSync_Ok in Hs.
    unfold curateFile. rewrite Hj, join_staged, join_accepted by done.
    unfold try_catch, bind, fs_try, lift. rewrite Hr, Hp, Hi.
    unfold fs_read, existsSync.
    destruct (stat (files w) (accepted file)) as [n|] eqn:Hn.
    + unfold generateTimestampNow.
      fold (renamed env (dates_taken w) file).
      rewrite join_accepted by by apply renamed_valid.
      unfold fs_update. simpl files.
      destruct (renameSync_file_cases (files w) (staged file)
                  (accepted (renamed env (dates_taken w) file)) content)
        as [(-> & Hnd & Hpd)|[e ->]]; try done.
      * eexists. split; [reflexivity|]. simpl. repeat split; try done.
        -- eexists. split; [done|]. by repeat constructor.
        -- right. right. exists content, (renamed env (dates_taken w) file).
           split_and!; try done; [by apply renamed_valid|].
           by right.
      * apply (Herr e); done.
    + unfold fs_update.
      destruct (renameSync_file_cases (files w) (staged file)
                  (accepted file) content)
        as [(-> & Hnd & Hpd)|[e ->]]; try done.
      * eexists. split; [reflexivity|]. simpl. repeat split; try done.
        -- eexists. split; [done|]. by repeat constructor.
        -- right. right. exists content, file. split_and!; try done.
           by left.
      * apply (Herr e); done.
Qed.

End CurateShape.

Section CurateLoop.

Variable env : Env.

Lemma normal_app_l p q : normal (p ++ q) = true -> normal p = true.
Proof.
  induction q as [|x q IH] using rev_ind.
  - by rewrite app_nil_r.
  - intros H. apply IH. apply normal_removelast in H.
    by rewrite app_assoc, removelast_last in H.
Qed.

Lemma mkdir_p_spec below : forall fs above fs',
  wf fs -> normal (above ++ below) = true -> stat fs above = Some Dir ->
  mkdir_p fs above below = Ok fs' ->
  wf fs' /\ stat fs' (above ++ below) = Some Dir
  /\ (forall p n, fs !! p = Some n -> fs' !! p = Some n)
  /\ (forall p n, fs !! p = None -> fs' !! p = Some n ->
        n = Dir /\ p `prefix_of` above ++ below).
Proof.
  induction below as [|c below IH]; intros fs above fs' Hwf Hn Ha Hm.
  - simpl in Hm. injection Hm as <-. rewrite app_nil_r.
    refine (conj Hwf (conj Ha (conj _ _))); [done|].
    intros p n H1 H2. rewrite H1 in H2. done.
  - simpl in Hm.
    assert (Hd : normal (above ++ [c]) = true).
    { apply (normal_app_l _ below). by rewrite <- app_assoc. }
    replace (above ++ c :: below) with ((above ++ [c]) ++ below) in *
      by by rewrite <- app_assoc.
    destruct (stat fs (above ++ [c])) as [[content|]|] eqn:Hs; [done| |].
    + by apply (IH fs (above ++ [c]) fs').
    + apply stat_None in Hs as [Hanc Hnone].
      assert (Hwf1 : wf (<[above ++ [c] := Dir]> fs)).
      { apply wf_insert; try done. by rewrite parent_snoc. }
      destruct (IH (<[above ++ [c] := Dir]> fs) (above ++ [c]) fs' Hwf1 Hn)
        as (H1 & H2 & H3 & H4); [|done|].
      { rewrite stat_lookup by done. apply lookup_insert_eq. }
      refine (conj H1 (conj H2 (conj _ _))).
      * intros p n Hp. apply H3. rewrite lookup_insert_ne; [done|].
        intros <-. congruence.
      * intros p n Hp0 Hp'. destruct (decide (above ++ [c] = p)) as [<-|Hne].
        -- pose proof (H3 (above ++ [c]) Dir (lookup_insert_eq _ _ _)) as E.
           rewrite E in Hp'. injection Hp' as <-.
           split; [done|]. by apply prefix_app_r.
        -- apply (H4 p n); [|done]. by rewrite lookup_insert_ne.
Qed.

Lemma curateFile_keeps file w :
  Path.valid_name file = true -> wf (files w) ->
  exists w',
    curateFile env file w = (Ok tt, w')
    /\ wf (files w')
    /\ requests w' = requests w /\ crawler_runs w' = crawler_runs w
    /\ (exists lines, console w' = console w ++ lines
          /\ Forall (fun l => is_storage_error l = false) lines)
    /\ (forall p, p ≠ staged file -> parent p ≠ destinationPath ->
          files w' !! p = files w !! p)
    /\ (forall p, files w !! p = Some Dir -> files w' !! p = Some Dir).
Proof.
  intros Hv Hwf.
  destruct (curateFile_shape env file w Hv Hwf)
    as (w' & Hrun & Hreq & Hcr & Hcon & Hfiles).
  exists w'. split; [done|].
  destruct Hfiles as [->|[(content & Hs & ->)|(content & name & Hs & Hname & _ & Hnd & Hdd & ->)]].
  - split_and!; try done.
  - apply stat_File in Hs as [_ Hs].
    split_and!; try done.
    + apply wf_delete; [done|]. congruence.
    + intros p Hp _. by rewrite lookup_delete_ne.
    + intros p Hp. rewrite lookup_delete_ne; [done|]. congruence.
  - apply stat_File in Hs as [_ Hs].
    assert (Hwf1 : wf (delete (staged file) (files w))).
    { apply wf_delete; [done|]. congruence. }
    split_and!; try done.
    + apply wf_insert; try done.
      * apply normal_snoc_valid; done.
      * rewrite parent_accepted. rewrite stat_lookup in * by done.
        rewrite lookup_delete_ne; [done|]. discriminate.
      * rewrite lookup_delete_ne by apply staged_ne_accepted.
        intros Hd. by rewrite stat_lookup in Hnd.
    + intros p Hp Hpar. rewrite lookup_insert_ne, lookup_delete_ne; try done.
      intros <-. by rewrite parent_accepted in Hpar.
    + intros p Hp. rewrite lookup_insert_ne, lookup_delete_ne; try done.
      * congruence.
      * intros <-. by rewrite stat_lookup in Hnd.
Qed.

Lemma forEach_curateFile_keeps l : forall w,
  Forall (fun file => Path.valid_name file = true) l -> wf (files w) ->
  exists w',
    forEach l (curateFile env) w = (Ok tt, w')
    /\ wf (files w')
    /\ requests w' = requests w /\ crawler_runs w' = crawler_runs w
    /\ (exists lines, console w' = console w ++ lines
          /\ Forall (fun l => is_storage_error l = false) lines)
    /\ (forall p, (forall file, file ∈ l -> p ≠ staged file) ->
          parent p ≠ destinationPath -> files w' !! p = files w !! p)
    /\ (forall p, files w !! p = Some Dir -> files w' !! p = Some Dir).
Proof.
  induction l as [|file l IH]; intros w Hl Hwf.
  - exists w. split_and!; try done. exists []. by rewrite app_nil_r.
  - apply Forall_cons in Hl as [Hv Hl]. simpl. unfold bind.
    destruct (curateFile_keeps file w Hv Hwf)
      as (w1 & -> & Hwf1 & Hr1 & Hc1 & (lines1 & Hl1 & Hf1) & Hfr1 & Hd1).
    destruct (IH w1 Hl Hwf1)
      as (w2 & -> & Hwf2 & Hr2 & Hc2 & (lines2 & Hl2 & Hf2) & Hfr2 & Hd2).
    exists w2. split_and!; try done; try congruence.
    + exists (lines1 ++ lines2). rewrite Hl2, Hl1, app_assoc. split; [done|].
      by apply Forall_app.
    + intros p Hp Hpar. rewrite Hfr2, Hfr1; try done.
      * apply Hp. by left.
      * intros g Hg. apply Hp. by right.
    + intros p Hp. by apply Hd2, Hd1.
Qed.

End CurateLoop.

(** ** The whole clean-up *)

Section CleanUp.

Variable env : Env.

Lemma set_files_same w : set_files (files w) w = w.
Proof. by destruct w. Qed.

Lemma child_name_spec p k n : child_name p k = Some n <-> k = p ++ [n].
Proof.
  unfold child_name. split.
  - destruct (decide (take (length p) k = p)) as [Ht|]; [|done].
    destruct (drop (length p) k) as [|m [|? ?]] eqn:Hd; try done.
    intros [= ->]. by rewrite <- (take_drop (length p) k), Ht, Hd.
  - intros ->. rewrite take_app_length, decide_True by done.
    by rewrite drop_app_length.
Qed.

Lemma children_spec fs p n : n ∈ children fs p <-> is_Some (fs !! (p ++ [n])).
Proof.
  unfold children. rewrite list_elem_of_omap. split.
  - intros ([k m] & Hin & Hc). apply elem_of_map_to_list in Hin.
    apply child_name_spec in Hc. simpl in Hc. subst k. by exists m.
  - intros [m Hm]. exists (p ++ [n], m). split.
    + by apply elem_of_map_to_list.
    + by apply child_name_spec.
Qed.

Lemma staged_valid fs file :
  wf fs -> is_Some (fs !! staged file) -> Path.valid_name file = true.
Proof.
  intros Hwf [m Hm]. destruct (wf_lookup _ _ _ Hwf Hm) as (Hn & _ & _).
  unfold normal, staged in Hn. rewrite directoryPath_eq in Hn. simpl in Hn.
  by repeat (apply andb_true_iff in Hn as [? Hn]).
Qed.

Lemma children_staged_valid fs :
  wf fs ->
  Forall (fun file => Path.valid_name file = true) (children fs directoryPath).
Proof.
  intros Hwf. apply Forall_forall. intros file Hin.
  apply children_spec in Hin. by apply (staged_valid fs).
Qed.

Lemma ensure_destination_spec fs fs1 :
  wf fs -> ensure_destination fs = Ok fs1 ->
  wf fs1
  /\ (stat fs1 destinationPath = Some Dir
      \/ exists content, stat fs destinationPath = Some (File content))
  /\ (forall p n, fs !! p = Some n -> fs1 !! p = Some n)
  /\ (forall p n, fs !! p = None -> fs1 !! p = Some n ->
        n = Dir /\ p `prefix_of` destinationPath).
Proof.
  intros Hwf. unfold ensure_destination, existsSync.
  destruct (stat fs destinationPath) as [[c|]|] eqn:Hd.
  - intros [= <-]. split_and!; try done.
    + right. by exists c.
    + intros p n H1 H2. congruence.
  - intros [= <-]. split_and!; try done.
    + by left.
    + intros p n H1 H2. congruence.
  - intros Hm.
    destruct (mkdir_p_spec destinationPath fs [] fs1 Hwf eq_refl eq_refl Hm)
      as (H1 & H2 & H3 & H4).
    split_and!; try done. by left.
Qed.

Lemma stat_kept fs fs1 p :
  (forall q n, fs !! q = Some n -> fs1 !! q = Some n) ->
  stat fs p ≠ None -> stat fs1 p = stat fs p.
Proof.
  intros Hk. unfold stat. destruct (is_ancestor_of_cwd p); [done|].
  destruct (fs !! p) as [n|] eqn:Hp; [|done]. intros _. by apply Hk.
Qed.

(** The removal of [./storage] that ends both modes. *)
Lemma removeStorage_spec done w :
  exists w',
    removeStorage done w = (Ok tt, w')
    /\ requests w' = requests w /\ crawler_runs w' = crawler_runs w
    /\ dates_taken w' = dates_taken w
    /\ ((stat (files w) storagePath ≠ None
         /\ w' = say done (set_files (remove_tree (files w) storagePath) w))
        \/ (stat (files w) storagePath = None
            /\ w' = say (ErrorDeletingStorage
                           (FsError (missing_code (files w) storagePath) "rm"
                              storagePath)) w)).
Proof.
  unfold removeStorage, try_catch, bind, fs_update, rmSync_recursive.
  destruct (stat (files w) storagePath) as [n|] eqn:Hs.
  - eexists. split; [reflexivity|]. simpl. split_and!; try done. by left.
  - eexists. split; [reflexivity|]. simpl. split_and!; try done. by right.
Qed.

Lemma remove_tree_gone fs : storage_gone (remove_tree fs storagePath).
Proof. intros p Hp. rewrite remove_tree_lookup. by rewrite decide_True. Qed.

Lemma removeStorage_gone done w w' :
  wf (files w) -> removeStorage done w = (Ok tt, w') ->
  storage_gone (files w') /\ wf (files w')
  /\ (forall p, ¬ storagePath `prefix_of` p -> files w' !! p = files w !! p).
Proof.
  intros Hwf Hrun.
  destruct (removeStorage_spec done w) as (w1 & Hrun1 & _ & _ & _ & Hcase).
  rewrite Hrun in Hrun1. injection Hrun1 as <-.
  destruct Hcase as [[_ ->]|[Hnone ->]]; simpl.
  - split_and!.
    + apply remove_tree_gone.
    + by apply wf_remove_tree.
    + intros p Hp. rewrite remove_tree_lookup. by rewrite decide_False.
  - split_and!; try done.
    intros p Hp. by apply (wf_nothing_below _ storagePath).
Qed.

(** A directory at the staging path puts a directory at [./storage]. *)
Lemma staging_in_storage fs :
  wf fs -> stat fs directoryPath = Some Dir -> stat fs storagePath = Some Dir.
Proof.
  intros Hwf Hd. rewrite stat_lookup in Hd by done.
  destruct (wf_lookup _ _ _ Hwf Hd) as (_ & _ & H1).
  rewrite stat_lookup in H1 by done.
  destruct (wf_lookup _ _ _ Hwf H1) as (_ & _ & H2).
  exact H2.
Qed.

Lemma cleanUp_normal_unfold w :
  cleanUpAndMoveFiles env false w =
  match ensure_destination (files w) with
  | Throw e => (Throw e, w)
  | Ok fs1 =>
      match readdirSync fs1 directoryPath with
      | Throw e => (Throw e, set_files fs1 w)
      | Ok names =>
          match forEach names (curateFile env) (set_files fs1 w) with
          | (Ok _, w1) => removeStorage DeletedStorageAfterMoving w1
          | (Throw e, w1) => (Throw e, w1)
          end
      end
  end.
Proof.
  unfold cleanUpAndMoveFiles, ensure_destination, bind, fs_read, fs_update, fs_try.
  destruct (existsSync (files w) destinationPath); simpl.
  - rewrite set_files_same.
    destruct (readdirSync (files w) directoryPath); [|done].
    by destruct (forEach _ _ _) as [[[]|e] w1].
  - destruct (mkdirSync_recursive (files w) destinationPath) as [fs1|e]; [|done].
    simpl.
    destruct (readdirSync fs1 directoryPath); [|done].
    by destruct (forEach _ _ _) as [[[]|e] w1].
Qed.

Lemma readdirSync_Ok fs p names :
  readdirSync fs p = Ok names <-> stat fs p = Some Dir /\ names = children fs p.
Proof.
  unfold readdirSync. destruct (stat fs p) as [[c|]|]; split; try done.
  - by intros [? _].
  - by intros [= <-].
  - by intros [_ ->].
  - by intros [? _].
Qed.

(** Normal mode, once the dataset folder is there and the staging folder
    is a directory: the loop runs over the staged names, and the removal
    of [./storage] succeeds. *)
Lemma cleanUp_normal_run w fs1 :
  wf (files w) -> ensure_destination (files w) = Ok fs1 ->
  stat fs1 directoryPath = Some Dir ->
  exists w1,
    forEach (children fs1 directoryPath) (curateFile env) (set_files fs1 w)
    = (Ok tt, w1)
    /\ wf (files w1)
    /\ stat (files w1) storagePath = Some Dir
    /\ cleanUpAndMoveFiles env false w
       = (Ok tt, say DeletedStorageAfterMoving
                   (set_files (remove_tree (files w1) storagePath) w1)).
Proof.
  intros Hwf He Hd.
  destruct (ensure_destination_spec _ _ Hwf He) as (Hwf1 & _ & _ & _).
  destruct (forEach_curateFile_keeps env (children fs1 directoryPath)
              (set_files fs1 w) (children_staged_valid _ Hwf1) Hwf1)
    as (w1 & Hloop & Hwf2 & _ & _ & _ & _ & Hdirs).
  assert (Hst : stat (files w1) storagePath = Some Dir).
  { apply staging_in_storage; [done|]. rewrite stat_lookup in * by done.
    by apply Hdirs. }
  exists w1. split_and!; try done.
  rewrite cleanUp_normal_unfold, He.
  rewrite (proj2 (readdirSync_Ok fs1 directoryPath _) (conj Hd eq_refl)).
  rewrite Hloop.
  destruct (removeStorage_spec DeletedStorageAfterMoving w1)
    as (w' & -> & _ & _ & _ & [[_ ->]|[Hnone _]]); [done|congruence].
Qed.

(** Normal mode returns only along that path. *)
Lemma cleanUp_normal_returned w w' :
  cleanUpAndMoveFiles env false w = (Ok tt, w') ->
  exists fs1, ensure_destination (files w) = Ok fs1
              /\ stat fs1 directoryPath = Some Dir.
Proof.
  rewrite cleanUp_normal_unfold.
  destruct (ensure_destination (files w)) as [fs1|e]; [|done].
  destruct (readdirSync fs1 directoryPath) as [names|e] eqn:Hr; [|done].
  intros _. exists fs1. split; [done|]. by apply readdirSync_Ok in Hr as [? _].
Qed.

(** Normal mode throws only before the loop: when the dataset folder
    cannot be made or the staging folder cannot be listed.  Nothing has
    been removed then. *)
Lemma cleanUp_normal_thrown w e w' :
  wf (files w) -> cleanUpAndMoveFiles env false w = (Throw e, w') ->
  (ensure_destination (files w) = Throw e /\ w' = w)
  \/ (exists fs1, ensure_destination (files w) = Ok fs1
                  /\ readdirSync fs1 directoryPath = Throw e
                  /\ w' = set_files fs1 w).
Proof.
  intros Hwf. rewrite cleanUp_normal_unfold.
  destruct (ensure_destination (files w)) as [fs1|e1] eqn:He.
  - destruct (readdirSync fs1 directoryPath) as [names|e2] eqn:Hr.
    + apply readdirSync_Ok in Hr as [Hd ->].
      destruct (ensure_destination_spec _ _ Hwf He) as (Hwf1 & _).
      destruct (forEach_curateFile_keeps env (children fs1 directoryPath)
                  (set_files fs1 w) (children_staged_valid _ Hwf1) Hwf1)
        as (w1 & -> & _).
      by destruct (removeStorage_spec DeletedStorageAfterMoving w1)
        as (w2 & -> & _).
    + intros [= <- <-]. right. by exists fs1.
  - intros [= <- <-]. by left.
Qed.

Lemma cleanUp_zero_run w :
  exists w', cleanUpAndMoveFiles env true w = (Ok tt, w')
    /\ requests w' = requests w /\ crawler_runs w' = crawler_runs w
    /\ dates_taken w' = dates_taken w
    /\ ((stat (files w) storagePath ≠ None
         /\ w' = say DeletedStorageNoRequests
                   (set_files (remove_tree (files w) storagePath) w))
        \/ (stat (files w) storagePath = None
            /\ w' = say (ErrorDeletingStorage
                           (FsError (missing_code (files w) storagePath) "rm"
                              storagePath)) w)).
Proof. apply removeStorage_spec. Qed.

Lemma cleanUp_gone mode w w' :
  wf (files w) -> cleanUpAndMoveFiles env mode w = (Ok tt, w') ->
  storage_gone (files w') /\ wf (files w').
Proof.
  intros Hwf Hrun. destruct mode.
  - destruct (removeStorage_gone _ _ _ Hwf Hrun) as (? & ? & _). done.
  - destruct (cleanUp_normal_returned _ _ Hrun) as (fs1 & He & Hd).
    destruct (cleanUp_normal_run w fs1 Hwf He Hd) as (w1 & _ & Hwf1 & _ & Hrun1).
    rewrite Hrun in Hrun1. injection Hrun1 as ->. simpl. split.
    + apply remove_tree_gone.
    + by apply wf_remove_tree.
Qed.

End CleanUp.

(** ** The request handler and the crawl *)

Section Crawl.

Variable env : Env.

Lemma writeFileSync_Ok fs p data fs' :
  writeFileSync fs p data = Ok fs' ->
  fs' = <[p := File data]> fs /\ is_ancestor_of_cwd p = false
  /\ fs !! p ≠ Some Dir
  /\ (fs !! p = None -> stat fs (parent p) = Some Dir).
Proof.
  unfold writeFileSync. destruct (stat fs p) as [[c|]|] eqn:Hs.
  - intros [= <-]. apply stat_File in Hs as [? Hs]. split_and!; try done.
    all: congruence.
  - done.
  - apply stat_None in Hs as [? Hs].
    destruct (stat fs (parent p)) as [[c|]|] eqn:Hp; try done.
    intros [= <-]. split_and!; try done. congruence.
Qed.

Lemma wf_writeFileSync fs p data fs' :
  wf fs -> normal p = true -> writeFileSync fs p data = Ok fs' -> wf fs'.
Proof.
  intros Hwf Hn (-> & Ha & Hnd & Hpar)%writeFileSync_Ok.
  apply wf_insert; try done.
  destruct (fs !! p) as [n|] eqn:Hp.
  - by destruct (wf_lookup _ _ _ Hwf Hp) as (_ & _ & ?).
  - by apply Hpar.
Qed.

Lemma mkdirSync_Ok fs p fs' :
  mkdirSync fs p = Ok fs' ->
  fs' = <[p := Dir]> fs /\ stat fs p = None /\ stat fs (parent p) = Some Dir.
Proof.
  unfold mkdirSync. destruct (stat fs p) as [n|] eqn:Hs; [done|].
  destruct (stat fs (parent p)) as [[c|]|] eqn:Hp; try done.
  by intros [= <-].
Qed.

Lemma wf_mkdirSync fs p fs' :
  wf fs -> normal p = true -> mkdirSync fs p = Ok fs' -> wf fs'.
Proof.
  intros Hwf Hn (-> & [Ha Hnone]%stat_None & Hpar)%mkdirSync_Ok.
  apply wf_insert; try done.
Qed.

Lemma requestHandler_keeps request page w :
  wf (files w) ->
  exists r w',
    requestHandler env request page w = (r, w')
    /\ wf (files w') /\ requests w' = requests w
    /\ crawler_runs w' = crawler_runs w.
Proof.
  intros Hwf. unfold requestHandler, bind, fs_read, fs_update, print.
  set (p := Path.join directoryPath _).
  assert (Hp : normal p = true) by by apply join_normal.
  set (data := JSON_stringify env _).
  destruct (existsSync (files w) directoryPath); simpl.
  - destruct (writeFileSync (files w) p data) as [fs'|e] eqn:Hw.
    + eexists _, _. split; [reflexivity|]. simpl. split_and!; try done.
      by apply (wf_writeFileSync _ _ _ _ Hwf Hp Hw).
    + eexists _, _. split; [reflexivity|]. done.
  - destruct (mkdirSync (files w) directoryPath) as [fs1|e] eqn:Hm.
    + simpl. pose proof (wf_mkdirSync _ directoryPath _ Hwf eq_refl Hm) as Hwf1.
      destruct (writeFileSync fs1 p data) as [fs'|e] eqn:Hw.
      * eexists _, _. split; [reflexivity|]. simpl. split_and!; try done.
        by apply (wf_writeFileSync _ _ _ _ Hwf1 Hp Hw).
      * eexists _, _. split; [reflexivity|]. done.
    + eexists _, _. split; [reflexivity|]. done.
Qed.

Lemma settle_keeps request w :
  wf (files w) ->
  exists w',
    settle env request w = (Ok tt, w')
    /\ wf (files w') /\ requests w' = requests w
    /\ crawler_runs w' = crawler_runs w.
Proof.
  intros Hwf. unfold settle, try_catch, bind, lift, failedRequestHandler, print.
  destruct (crawl_page env request) as [page|e].
  - destruct (requestHandler_keeps request page w Hwf)
      as ([[]|e] & w' & -> & H1 & H2 & H3).
    + by exists w'.
    + eexists. split; [reflexivity|]. done.
  - eexists. split; [reflexivity|]. done.
Qed.

Lemma forEach_settle_keeps queue : forall w,
  wf (files w) ->
  exists w',
    forEach queue (settle env) w = (Ok tt, w')
    /\ wf (files w') /\ requests w' = requests w
    /\ crawler_runs w' = crawler_runs w.
Proof.
  induction queue as [|request queue IH]; intros w Hwf.
  - by exists w.
  - simpl. unfold bind.
    destruct (settle_keeps request w Hwf) as (w1 & -> & H1 & H2 & H3).
    destruct (IH w1 H1) as (w2 & -> & H4 & H5 & H6).
    exists w2. split_and!; try done; congruence.
Qed.

Lemma crawler_run_keeps w :
  wf (files w) ->
  exists w',
    crawler_run env w = (Ok tt, w')
    /\ wf (files w') /\ requests w' = requests w
    /\ crawler_runs w' = S (crawler_runs w).
Proof.
  intros Hwf. unfold crawler_run, bind. simpl.
  set (w0 := {| files := files w; console := console w; requests := requests w;
                crawler_runs := S (crawler_runs w);
                dates_taken := dates_taken w |}).
  destruct (forEach_settle_keeps (crawl_schedule env (requests w)) w0 Hwf)
    as (w' & -> & H1 & H2 & H3).
  by exists w'.
Qed.

End Crawl.

(** ** The run *)

Section Run.

Variable env : Env.

Lemma checkRobotsAndEnqueue_keeps l w :
  exists count w1,
    checkRobotsAndEnqueue env l w = (Ok count, w1)
    /\ files w1 = files w /\ crawler_runs w1 = crawler_runs w.
Proof.
  destruct (foldM_checkAndEnqueueOne env l 0 w) as (w1 & H & _ & Hf & Hc & _).
  by eexists _, w1.
Qed.

Lemma scrapeDocs_unfold apis completion w :
  scrapeDocs env (Ok apis) completion w =
  match checkRobotsAndEnqueue env (completion apis)
          (say (LoadedApis (length apis)) w) with
  | (Ok count, w1) =>
      if count =? 0 then cleanUpAndMoveFiles env true (say NoRequestsEnqueued w1)
      else
        match crawler_run env w1 with
        | (Ok _, w2) => cleanUpAndMoveFiles env false w2
        | (Throw e, w2) => (Throw e, w2)
        end
  | (Throw e, w1) => (Throw e, w1)
  end.
Proof.
  unfold scrapeDocs, bind, lift, print. fold (say (LoadedApis (length apis)) w).
  destruct (checkRobotsAndEnqueue env _ _) as [[count|e] w1]; [|done].
  destruct (count =? 0); [done|].
  by destruct (crawler_run env w1) as [[[]|e] w2].
Qed.

Lemma scrapeDocs_gone csv completion w w' :
  wf (files w) -> scrapeDocs env csv completion w = (Ok tt, w') ->
  storage_gone (files w').
Proof.
  intros Hwf. destruct csv as [apis|e]; [|done].
  rewrite scrapeDocs_unfold.
  destruct (checkRobotsAndEnqueue_keeps (completion apis)
              (say (LoadedApis (length apis)) w)) as (count & w1 & -> & Hf & _).
  simpl in Hf.
  destruct (count =? 0).
  - intros H. apply (cleanUp_gone env true (say NoRequestsEnqueued w1)); [|done].
    simpl. by rewrite Hf.
  - destruct (crawler_run_keeps env w1) as (w2 & -> & Hwf2 & _).
    { by rewrite Hf. }
    intros H. by apply (cleanUp_gone env false w2).
Qed.

End Run.

(** C1.  On a well-formed disk, when [cleanUpAndMoveFiles] returns, in
    either mode, nothing is left at [./storage] or below it, so the staging
    folder [./storage/request_queues/default] does not exist; the same
    holds when a whole run of [scrapeDocs] returns.  The clean-up does
    return: always in the mode for no requests, and in normal mode whenever
    the dataset folder is there or can be made and the staging folder is a
    directory, whatever the staged files are. *)
Theorem storage_gone_after_run env w :
  wf (files w) ->
  (forall removeStorageOnly w',
      cleanUpAndMoveFiles env removeStorageOnly w = (Ok tt, w') ->
      storage_gone (files w')
      /\ existsSync (files w') storagePath = false
      /\ existsSync (files w') directoryPath = false)
  /\ (exists w', cleanUpAndMoveFiles env true w = (Ok tt, w'))
  /\ (forall fs1, ensure_destination (files w) = Ok fs1 ->
        stat (files w) directoryPath = Some Dir ->
        exists w', cleanUpAndMoveFiles env false w = (Ok tt, w'))
  /\ (forall csv completion w',
        scrapeDocs env csv completion w = (Ok tt, w') ->
        storage_gone (files w')
        /\ existsSync (files w') directoryPath = false).
Proof.
  intros Hwf.
  assert (Hex : forall fs, storage_gone fs ->
            existsSync fs storagePath = false
            /\ existsSync fs directoryPath = false).
  { intros fs Hg. unfold existsSync. rewrite !stat_lookup by done.
    rewrite (Hg storagePath), (Hg directoryPath); [done| |done].
    by exists ["request_queues"; "default"]. }
  split_and!.
  - intros mode w' Hrun.
    destruct (cleanUp_gone env mode w w' Hwf Hrun) as [Hg _].
    split; [done|]. by apply Hex.
  - destruct (cleanUp_zero_run env w) as (w' & H & _). by exists w'.
  - intros fs1 He Hd.
    destruct (ensure_destination_spec _ _ Hwf He) as (_ & _ & Hkeep & _).
    destruct (cleanUp_normal_run env w fs1 Hwf He) as (w1 & _ & _ & _ & Hrun).
    + rewrite (stat_kept (files w)); [done|done|congruence].
    + by eexists.
  - intros csv completion w' Hrun.
    pose proof (scrapeDocs_gone env csv completion w w' Hwf Hrun) as Hg.
    split; [done|]. by apply Hex.
Qed.

Lemma storage_gone_after_run_witness :
  exists w',
    cleanUpAndMoveFiles Demo.env false DemoDisk.world = (Ok tt, w')
    /\ existsSync (files w') directoryPath = false.
Proof.
  assert (Hwf : wf (files DemoDisk.world)).
  { apply (bool_decide_unpack _). vm_compute. exact I. }
  destruct (storage_gone_after_run Demo.env DemoDisk.world Hwf)
    as (Hgone & _ & Hnormal & _).
  destruct (Hnormal (files DemoDisk.world) eq_refl eq_refl) as (w' & Hrun).
  exists w'. split; [exact Hrun|].
  by destruct (Hgone false w' Hrun) as (_ & _ & ?).
Defined.

(** C7.  When [checkRobotsAndEnqueue] returns 0, [scrapeDocs] does not
    call [crawler.run()]: it calls [cleanUpAndMoveFiles(true)] and returns.
    That call only removes [./storage] with what is below it, printing an
    error and returning all the same when [./storage] is missing; every
    path outside [./storage], the dataset folder and its files among them,
    is as it was.  A catalog without entries gives the count 0. *)
Theorem nothing_enqueued_only_removes_storage env apis completion w w1 :
  checkRobotsAndEnqueue env (completion apis) (say (LoadedApis (length apis)) w)
  = (Ok 0, w1) ->
  exists w',
    scrapeDocs env (Ok apis) completion w = (Ok tt, w')
    /\ cleanUpAndMoveFiles env true (say NoRequestsEnqueued w1) = (Ok tt, w')
    /\ crawler_runs w' = crawler_runs w
    /\ files w' = (if existsSync (files w) storagePath
                   then remove_tree (files w) storagePath else files w)
    /\ (forall p, ¬ storagePath `prefix_of` p -> files w' !! p = files w !! p)
    /\ (forall p, destinationPath `prefix_of` p -> files w' !! p = files w !! p)
    /\ (forall w0, checkRobotsAndEnqueue env [] w0 = (Ok 0, w0)).
Proof.
  intros Hcount.
  destruct (checkRobotsAndEnqueue_keeps env (completion apis)
              (say (LoadedApis (length apis)) w)) as (count & w1' & Hc & Hf & Hr).
  rewrite Hcount in Hc. injection Hc as <- <-. simpl in Hf, Hr.
  destruct (cleanUp_zero_run env (say NoRequestsEnqueued w1))
    as (w' & Hrun & _ & Hruns & _ & Hcase).
  simpl in Hruns, Hcase. rewrite Hf in Hcase.
  assert (Hfiles : files w' = (if existsSync (files w) storagePath
                   then remove_tree (files w) storagePath else files w)).
  { unfold existsSync.
    destruct Hcase as [[Hs ->]|[Hs ->]]; simpl.
    - by destruct (stat (files w) storagePath).
    - by rewrite Hs. }
  assert (Hframe : forall p, ¬ storagePath `prefix_of` p ->
                             files w' !! p = files w !! p).
  { intros p Hp. rewrite Hfiles. destruct (existsSync _ _); [|done].
    rewrite remove_tree_lookup. by rewrite decide_False. }
  exists w'. split_and!; try done.
  - rewrite scrapeDocs_unfold, Hcount. exact Hrun.
  - congruence.
  - intros p [q ->]. apply Hframe. by intros [r [=]].
Qed.

Lemma nothing_enqueued_only_removes_storage_witness :
  exists w',
    scrapeDocs Demo.env (Ok [Demo.closed; Demo.down]) (fun l => l) DemoDisk.world
    = (Ok tt, w')
    /\ crawler_runs w' = 0
    /\ files w' !! accepted "Stripe_API.json" = Some (File DemoDisk.older)
    /\ files w' !! staged "Stripe_API.json" = None.
Proof.
  destruct (nothing_enqueued_only_removes_storage Demo.env
              [Demo.closed; Demo.down] (fun l => l) DemoDisk.world _ eq_refl)
    as (w' & Hrun & _ & Hruns & Hfiles & _ & Hdata & _).
  exists w'. split; [exact Hrun|]. split; [exact Hruns|]. split.
  - rewrite Hdata; [reflexivity|]. by exists ["Stripe_API.json"].
  - rewrite Hfiles. vm_compute. reflexivity.
Defined.

(** ** Files the loop leaves where they are *)

Section LeftBehind.

Variable env : Env.

Lemma forEach_curateFile_left (P : list ConsoleLine -> Prop) l : forall w file,
  Forall (fun file => Path.valid_name file = true) l -> wf (files w) ->
  (forall c lines, P c -> P (c ++ lines)) ->
  (forall w0, files w0 !! staged file = files w !! staged file ->
     (exists lines0, console w0 = console w ++ lines0) ->
     files (curateFile env file w0).2 = files w0
     /\ P (console (curateFile env file w0).2)) ->
  exists w',
    forEach l (curateFile env) w = (Ok tt, w')
    /\ files w' !! staged file = files w !! staged file
    /\ (file ∈ l -> P (console w')).
Proof.
  induction l as [|g l IH]; intros w file Hl Hwf Hmono Hleft.
  - exists w. split_and!; try done. by intros ?%elem_of_nil.
  - apply Forall_cons in Hl as [Hv Hl]. simpl. unfold bind.
    destruct (curateFile_keeps env g w Hv Hwf)
      as (w1 & Hrun & Hwf1 & _ & _ & (lines1 & Hlines1 & _) & Hframe & _).
    rewrite Hrun.
    assert (Hnow : exists lines0, console w = console w ++ lines0).
    { exists []. by rewrite app_nil_r. }
    assert (Hsame : files w1 !! staged file = files w !! staged file).
    { destruct (decide (g = file)) as [->|Hne].
      - destruct (Hleft w eq_refl Hnow) as [Hf _]. rewrite Hrun in Hf.
        simpl in Hf. by rewrite Hf.
      - apply Hframe; [|done]. intros E. by apply staged_inj in E. }
    destruct (IH w1 file Hl Hwf1 Hmono) as (w2 & Hrun2 & Hsame2 & Hin2).
    { intros w0 Hw0 [lines0 Hc0]. apply Hleft; [by rewrite Hw0|].
      exists (lines1 ++ lines0). by rewrite Hc0, Hlines1, app_assoc. }
    rewrite Hrun2. exists w2. split_and!; try done.
    + by rewrite Hsame2.
    + intros [->|Hin]%elem_of_cons; [|by apply Hin2].
      destruct (Hleft w eq_refl Hnow) as [_ HP]. rewrite Hrun in HP. simpl in HP.
      destruct (forEach_curateFile_keeps env l w1 Hl Hwf1)
        as (w2' & Hrun2' & _ & _ & _ & (lines & Hlines & _) & _).
      rewrite Hrun2 in Hrun2'. injection Hrun2' as <-.
      rewrite Hlines. by apply Hmono.
Qed.

End LeftBehind.

(** C10.  A staged file whose name does not end in [.json] is passed over
    by the loop: the callback returns at once and leaves the world as it
    is (nothing read, printed, unlinked or renamed).  The file is listed,
    and after the whole loop it is still in the staging folder with its
    content; it goes only when the call that removes [./storage] runs. *)
Theorem other_files_left_to_removal env w file content :
  wf (files w) ->
  files w !! staged file = Some (File content) ->
  JsString.endsWith file ".json" = false ->
  (forall w0, curateFile env file w0 = (Ok tt, w0))
  /\ (forall fs1, ensure_destination (files w) = Ok fs1 ->
      exists w1,
        file ∈ children fs1 directoryPath
        /\ forEach (children fs1 directoryPath) (curateFile env) (set_files fs1 w)
           = (Ok tt, w1)
        /\ files w1 !! staged file = Some (File content)
        /\ cleanUpAndMoveFiles env false w
           = (Ok tt, say DeletedStorageAfterMoving
                       (set_files (remove_tree (files w1) storagePath) w1))
        /\ remove_tree (files w1) storagePath !! staged file = None).
Proof.
  intros Hwf Hfile Hext. split.
  - intros w0. by apply curateFile_other.
  - intros fs1 He.
    destruct (ensure_destination_spec _ _ Hwf He) as (Hwf1 & _ & Hkeep & _).
    pose proof (Hkeep _ _ Hfile) as Hfile1.
    assert (Hd : stat fs1 directoryPath = Some Dir).
    { by apply (wf_parent_dir fs1 directoryPath file (File content)). }
    destruct (cleanUp_normal_run env w fs1 Hwf He Hd) as (w1 & Hloop & _ & _ & Hrun).
    destruct (forEach_curateFile_left env (fun _ => True)
                (children fs1 directoryPath) (set_files fs1 w) file
                (children_staged_valid _ Hwf1) Hwf1)
      as (w1' & Hloop' & Hsame & _).
    { done. }
    { intros w0 _ _. by rewrite curateFile_other. }
    rewrite Hloop in Hloop'. injection Hloop' as <-.
    exists w1. split_and!; try done.
    + apply children_spec. by exists (File content).
    + by rewrite Hsame.
    + rewrite remove_tree_lookup. rewrite decide_True; [done|].
      by exists ["request_queues"; "default"; file].
Qed.

Lemma other_files_left_to_removal_witness :
  curateFile Demo.env "notes.txt" DemoDisk.world = (Ok tt, DemoDisk.world)
  /\ exists w1,
      forEach (children DemoDisk.disk directoryPath) (curateFile Demo.env)
        (set_files DemoDisk.disk DemoDisk.world) = (Ok tt, w1)
      /\ files w1 !! staged "notes.txt" = Some (File "scratch").
Proof.
  assert (Hwf : wf (files DemoDisk.world)).
  { apply (bool_decide_unpack _). vm_compute. exact I. }
  destruct (other_files_left_to_removal Demo.env DemoDisk.world "notes.txt"
              "scratch" Hwf eq_refl eq_refl) as [Hstep Hloop].
  split; [apply Hstep|].
  destruct (Hloop DemoDisk.disk eq_refl) as (w1 & _ & Hrun & Hstill & _).
  exists w1. split; [exact Hrun|exact Hstill].
Defined.

(** C8, as the code has it.  A staged [.json] file whose text
    [JSON.parse] rejects is reported on the console and left where it is,
    and the loop goes on through the other files.  After the loop the
    file is still in the staging folder.  The removal of [./storage] that
    follows is a recursive one: it succeeds, takes the left-behind file
    with it and prints the line of success; no error about the storage
    folder is printed. *)
Theorem unparsable_left_then_removed env w file content e :
  wf (files w) ->
  files w !! staged file = Some (File content) ->
  JsString.endsWith file ".json" = true ->
  JSON_parse env content = Throw e ->
  (forall w0, files w0 !! staged file = Some (File content) ->
     curateFile env file w0 = (Ok tt, say (ErrorReadingOrParsing file e) w0))
  /\ (forall fs1, ensure_destination (files w) = Ok fs1 ->
      exists w1 lines,
        forEach (children fs1 directoryPath) (curateFile env) (set_files fs1 w)
        = (Ok tt, w1)
        /\ files w1 !! staged file = Some (File content)
        /\ console w1 = console w ++ lines
        /\ ErrorReadingOrParsing file e ∈ lines
        /\ Forall (fun l => is_storage_error l = false) lines
        /\ cleanUpAndMoveFiles env false w
           = (Ok tt, say DeletedStorageAfterMoving
                       (set_files (remove_tree (files w1) storagePath) w1))
        /\ remove_tree (files w1) storagePath !! staged file = None).
Proof.
  intros Hwf Hfile Hext Hparse.
  assert (Hv : Path.valid_name file = true).
  { apply (staged_valid (files w)); [done|]. by eexists. }
  assert (Hstep : forall w0, files w0 !! staged file = Some (File content) ->
     curateFile env file w0 = (Ok tt, say (ErrorReadingOrParsing file e) w0)).
  { intros w0 Hw0. apply (curateFile_unparsable env file w0 content); try done.
    apply readFileSync_Ok. by rewrite stat_lookup. }
  split; [exact Hstep|].
  intros fs1 He.
  destruct (ensure_destination_spec _ _ Hwf He) as (Hwf1 & _ & Hkeep & _).
  pose proof (Hkeep _ _ Hfile) as Hfile1.
  assert (Hd : stat fs1 directoryPath = Some Dir).
  { by apply (wf_parent_dir fs1 directoryPath file (File content)). }
  destruct (cleanUp_normal_run env w fs1 Hwf He Hd) as (w1 & Hloop & _ & _ & Hrun).
  destruct (forEach_curateFile_keeps env (children fs1 directoryPath)
              (set_files fs1 w) (children_staged_valid _ Hwf1) Hwf1)
    as (w1' & Hloop' & _ & _ & _ & (lines & Hlines & Hnoerr) & _).
  rewrite Hloop in Hloop'. injection Hloop' as <-. simpl in Hlines.
  destruct (forEach_curateFile_left env
              (fun c => exists ls, c = console w ++ ls
                                   /\ ErrorReadingOrParsing file e ∈ ls)
              (children fs1 directoryPath) (set_files fs1 w) file
              (children_staged_valid _ Hwf1) Hwf1)
    as (w1' & Hloop' & Hsame & Hin).
  { intros c ls (ls0 & -> & Hin). exists (ls0 ++ ls).
    rewrite app_assoc. split; [done|]. apply elem_of_app. by left. }
  { intros w0 Hw0 [lines0 Hc0]. simpl in Hw0, Hc0.
    rewrite Hstep by by rewrite Hw0. simpl. split; [done|].
    exists (lines0 ++ [ErrorReadingOrParsing file e]).
    rewrite Hc0, app_assoc. split; [done|]. apply elem_of_app. right.
    by apply list_elem_of_singleton. }
  rewrite Hloop in Hloop'. injection Hloop' as <-.
  destruct Hin as (ls & Hls & Hin).
  { apply children_spec. by eexists. }
  rewrite Hlines in Hls. apply app_inv_head in Hls as <-.
  exists w1, lines. split_and!; try done.
  - by rewrite Hsame.
  - rewrite remove_tree_lookup. rewrite decide_True; [done|].
    by exists ["request_queues"; "default"; file].
Qed.

Lemma unparsable_left_then_removed_witness :
  curateFile Demo.env "broken.json" DemoDisk.world
  = (Ok tt, say (ErrorReadingOrParsing "broken.json"
                   (SyntaxError "Unexpected token")) DemoDisk.world)
  /\ exists w1,
      cleanUpAndMoveFiles Demo.env false DemoDisk.world
      = (Ok tt, say DeletedStorageAfterMoving
                  (set_files (remove_tree (files w1) storagePath) w1)).
Proof.
  assert (Hwf : wf (files DemoDisk.world)).
  { apply (bool_decide_unpack _). vm_compute. exact I. }
  destruct (unparsable_left_then_removed Demo.env DemoDisk.world "broken.json"
              "<html>Bad Gateway</html>" (SyntaxError "Unexpected token")
              Hwf eq_refl eq_refl eq_refl) as [Hstep Hloop].
  split; [by apply Hstep|].
  destruct (Hloop DemoDisk.disk eq_refl) as (w1 & lines & _ & _ & _ & _ & _ & Hrun & _).
  by exists w1.
Defined.

(** The claim of C8 that the removal fails loudly when files were left
    behind does not hold: with the unparsable [broken.json] in the staging
    folder the clean-up prints the line of success after the error about
    the file, prints no error about the storage folder, and the file is
    gone with the folder. *)
Lemma removal_succeeds_over_leftover :
  (cleanUpAndMoveFiles Demo.env false DemoDisk.world).1 = Ok tt
  /\ In (ErrorReadingOrParsing "broken.json" (SyntaxError "Unexpected token"))
       (console (cleanUpAndMoveFiles Demo.env false DemoDisk.world).2)
  /\ last (console (cleanUpAndMoveFiles Demo.env false DemoDisk.world).2)
     = Some DeletedStorageAfterMoving
  /\ existsb is_storage_error
       (console (cleanUpAndMoveFiles Demo.env false DemoDisk.world).2) = false
  /\ files (cleanUpAndMoveFiles Demo.env false DemoDisk.world).2
     !! staged "broken.json" = None
  /\ existsSync (files (cleanUpAndMoveFiles Demo.env false DemoDisk.world).2)
       storagePath = false.
Proof.
  split; [vm_compute; reflexivity|].
  split; [vm_compute; tauto|].
  repeat split; vm_compute; reflexivity.
Qed.

(** ** The timestamp *)

Section Timestamp.

Lemma digits_fuel_enough n : forall fuel1 fuel2 acc,
  n < fuel1 -> n < fuel2 ->
  JsString.digits_fuel fuel1 n acc = JsString.digits_fuel fuel2 n acc.
Proof.
  induction n as [n IH] using lt_wf_ind. intros fuel1 fuel2 acc H1 H2.
  destruct fuel1 as [|fuel1]; [lia|]. destruct fuel2 as [|fuel2]; [lia|].
  rewrite !digits_fuel_S. destruct (n / 10 =? 0) eqn:Hq; [done|].
  apply Nat.eqb_neq in Hq.
  assert (10 <= n).
  { destruct (decide (n < 10)) as [Hs|Hs]; [|lia].
    by rewrite Nat.div_small in Hq. }
  assert (n / 10 < n) by (apply Nat.div_lt; lia).
  apply IH; lia.
Qed.

Lemma digits_fuel_acc fuel : forall n acc,
  JsString.digits_fuel (S fuel) n acc
  = JsString.digits_fuel (S fuel) n "" +:+ acc.
Proof.
  induction fuel as [|fuel IH]; intros n acc.
  - rewrite !digits_fuel_S. by destruct (n / 10 =? 0).
  - rewrite (digits_fuel_S (S fuel) n acc), (digits_fuel_S (S fuel) n "").
    destruct (n / 10 =? 0); [done|].
    rewrite IH. rewrite (IH _ (String _ "")). by rewrite app_assoc_s.
Qed.

Lemma toString_small n : n < 10 -> JsString.toString n = String (JsString.digit n) "".
Proof.
  intros H. unfold JsString.toString. rewrite digits_fuel_S.
  rewrite Nat.div_small, Nat.mod_small by lia. done.
Qed.

Lemma toString_step n :
  10 <= n ->
  JsString.toString n
  = JsString.toString (n / 10) +:+ String (JsString.digit (n mod 10)) "".
Proof.
  intros H. unfold JsString.toString. rewrite digits_fuel_S.
  destruct (n / 10 =? 0) eqn:Hq.
  { apply Nat.eqb_eq in Hq. apply Nat.div_small_iff in Hq; lia. }
  assert (n / 10 < n) by (apply Nat.div_lt; lia).
  destruct n as [|n]; [lia|].
  rewrite (digits_fuel_enough _ (S n) (S (S n / 10))) by lia.
  apply digits_fuel_acc.
Qed.

Lemma padStart0_two n : n < 100 -> JsString.padStart0 2 (JsString.toString n) = two_digits n.
Proof.
  intros H. unfold two_digits. destruct (decide (n < 10)) as [Hs|Hs].
  - rewrite toString_small by done. rewrite Nat.div_small, Nat.mod_small by lia.
    reflexivity.
  - rewrite toString_step by lia.
    assert (n / 10 < 10) by (apply Nat.Div0.div_lt_upper_bound; lia).
    rewrite toString_small by done. reflexivity.
Qed.

Lemma substring_suffix pre s :
  String.substring (String.length pre) (String.length s) (pre +:+ s) = s.
Proof.
  induction pre as [|a pre IH].
  - change ("" +:+ s) with s. simpl String.length.
    induction s as [|b s IHs]; [done|]. simpl. by rewrite IHs.
  - rewrite app_cons. exact IH.
Qed.

Lemma slice_last_year y :
  10 <= y -> JsString.slice_last 2 (JsString.toString y) = two_digits (y mod 100).
Proof.
  intros H.
  assert (Hshape : exists pre, JsString.toString y = pre +:+ two_digits (y mod 100)).
  { unfold two_digits.
    assert (E : y mod 100 = y mod 10 + 10 * ((y / 10) mod 10)).
    { change 100 with (10 * 10). apply Nat.Div0.mod_mul_r. }
    assert (y mod 10 < 10) by (apply Nat.mod_upper_bound; lia).
    replace (y mod 100 / 10) with ((y / 10) mod 10).
    2:{ rewrite E, (Nat.mul_comm 10), Nat.div_add by lia.
        rewrite (Nat.div_small (y mod 10)) by done. lia. }
    replace ((y mod 100) mod 10) with (y mod 10).
    2:{ rewrite E, (Nat.mul_comm 10), Nat.Div0.mod_add.
        by rewrite Nat.Div0.mod_mod. }
    rewrite toString_step by done.
    destruct (decide (y / 10 < 10)) as [Hs|Hs].
    - exists "". rewrite toString_small by done.
      by rewrite (Nat.mod_small (y / 10)) by done.
    - exists (JsString.toString (y / 10 / 10)).
      rewrite (toString_step (y / 10)) by lia. by rewrite app_assoc_s. }
  destruct Hshape as [pre Hpre]. unfold JsString.slice_last. rewrite Hpre.
  rewrite length_app_s. change (String.length (two_digits (y mod 100))) with 2.
  replace (String.length pre + 2 - 2) with (String.length pre) by lia.
  apply (substring_suffix pre (two_digits (y mod 100))).
Qed.

Lemma generateTimestamp_plausible now :
  plausible now -> generateTimestamp now = MMDDYYHHMMSS now.
Proof.
  intros (Hm & Hd & Hy & Hh & Hmi & Hs).
  unfold generateTimestamp, MMDDYYHHMMSS. cbv zeta.
  rewrite !padStart0_two by lia. by rewrite slice_last_year.
Qed.

Lemma length_two_digits n : String.length (two_digits n) = 2.
Proof. reflexivity. Qed.

Lemma length_MMDDYYHHMMSS now : String.length (MMDDYYHHMMSS now) = 12.
Proof. unfold MMDDYYHHMMSS. by rewrite !length_app_s. Qed.

End Timestamp.

(** ** Names with the timestamp *)

Section Renamed.

Variable env : Env.

Lemma lastIndexOf_go_app c s1 : forall s2 i found,
  JsString.lastIndexOf_go c (s1 +:+ s2) i found
  = JsString.lastIndexOf_go c s2 (i + String.length s1)
      (JsString.lastIndexOf_go c s1 i found).
Proof.
  induction s1 as [|a s1 IH]; intros s2 i found.
  - change ("" +:+ s2) with s2. simpl. by rewrite Nat.add_0_r.
  - rewrite app_cons. simpl. rewrite IH. f_equal. lia.
Qed.

Lemma substring_prefix pre s :
  String.substring 0 (String.length pre) (pre +:+ s) = pre.
Proof.
  induction pre as [|a pre IH].
  - change ("" +:+ s) with s. by destruct s.
  - rewrite app_cons. simpl. by rewrite IH.
Qed.

Lemma lastIndexOf_json stem :
  JsString.lastIndexOf "." (stem +:+ ".json") = Some (String.length stem).
Proof. unfold JsString.lastIndexOf. by rewrite lastIndexOf_go_app. Qed.

Lemma extname_json stem :
  stem ≠ "" -> Path.extname (stem +:+ ".json") = ".json".
Proof.
  intros Hstem. unfold Path.extname. rewrite lastIndexOf_json.
  destruct (String.length stem) as [|n] eqn:Hlen; [by destruct stem|].
  destruct (String.eqb (stem +:+ ".json") "..") eqn:E.
  { apply String.eqb_eq in E. apply (f_equal String.length) in E.
    rewrite length_app_s in E. simpl in E. lia. }
  rewrite length_app_s, Hlen.
  replace (S n + String.length ".json" - S n) with (String.length ".json") by lia.
  rewrite <- Hlen. apply substring_suffix.
Qed.

Lemma basename_json stem :
  stem ≠ "" -> Path.basename (stem +:+ ".json") ".json" = stem.
Proof.
  intros Hstem. unfold Path.basename.
  rewrite length_app_s. simpl negb.
  destruct (_ <=? _) eqn:Hle.
  2:{ apply Nat.leb_gt in Hle. lia. }
  simpl andb.
  destruct (String.eqb (stem +:+ ".json") ".json") eqn:E.
  { apply String.eqb_eq in E. apply (f_equal String.length) in E.
    rewrite length_app_s in E. destruct stem; [done|]. simpl in E. lia. }
  rewrite (proj2 (endsWith_spec _ _)) by by exists stem.
  replace (String.length stem + String.length ".json" - String.length ".json")
    with (String.length stem) by lia.
  apply substring_prefix.
Qed.

(** The new name of a [.json] file: the stamp goes before the extension. *)
Lemma renamed_json k stem :
  stem ≠ "" ->
  renamed env k (stem +:+ ".json")
  = stem +:+ "_" +:+ generateTimestamp (new_Date env k) +:+ ".json".
Proof.
  intros Hstem. unfold renamed. by rewrite extname_json, basename_json.
Qed.

(** The file called just [.json] has no extension for [path.extname]. *)
Lemma renamed_dot_json k :
  renamed env k ".json" = ".json_" +:+ generateTimestamp (new_Date env k).
Proof. unfold renamed. simpl. by rewrite app_empty_r. Qed.

Lemma renamed_ne k file :
  JsString.endsWith file ".json" = true -> renamed env k file ≠ file.
Proof.
  intros [stem ->]%endsWith_spec. destruct (decide (stem = "")) as [->|Hstem].
  - change ("" +:+ ".json") with ".json". rewrite renamed_dot_json.
    intros E. apply (f_equal String.length) in E.
    rewrite length_app_s in E. simpl in E. lia.
  - rewrite renamed_json by done. intros E.
    apply (f_equal String.length) in E.
    rewrite !length_app_s in E. simpl in E. lia.
Qed.

(** A file of the dataset folder that no new name can hit stays as it is
    through the whole loop. *)
Lemma forEach_curateFile_keeps_existing l : forall w name old,
  Forall (fun file => Path.valid_name file = true) l -> wf (files w) ->
  files w !! accepted name = Some old ->
  (forall g k, g ∈ l -> renamed env k g ≠ name) ->
  exists w1,
    forEach l (curateFile env) w = (Ok tt, w1)
    /\ files w1 !! accepted name = Some old.
Proof.
  induction l as [|g l IH]; intros w name old Hl Hwf Hold Hfresh.
  - by exists w.
  - apply Forall_cons in Hl as [Hv Hl]. simpl. unfold bind.
    destruct (curateFile_keeps env g w Hv Hwf) as (w1 & Hrun & Hwf1 & _).
    destruct (curateFile_shape env g w Hv Hwf) as (w1' & Hrun' & _ & _ & _ & Hshape).
    rewrite Hrun in Hrun'. injection Hrun' as <-. rewrite Hrun.
    apply IH; try done.
    + destruct Hshape as [->|[(c & _ & ->)|(c & n & _ & _ & Hn & _ & _ & ->)]].
      * done.
      * by rewrite lookup_delete_ne by apply staged_ne_accepted.
      * rewrite lookup_insert_ne, lookup_delete_ne;
          [done|apply staged_ne_accepted|].
        intros E%accepted_inj. subst n.
        destruct Hn as [[-> Hfree]|[-> _]].
        -- rewrite stat_lookup in Hfree by done. congruence.
        -- apply (Hfresh g (dates_taken w)); [by left|done].
    + intros g' k Hin. apply Hfresh. by right.
Qed.

End Renamed.

(** C4.  When the callback meets a valid record whose name is taken in
    the dataset folder, it renames the staged file to the name with an
    underscore and the timestamp put before the extension (for a name
    [stem.json], [stem_<stamp>.json]); the new name differs from the old
    one, the file that was there under the old name is as it was, and the
    incoming file arrives with its content unchanged.  For a date with
    two or more digits in the year the stamp is MMDDYYHHMMSS, every part
    on two digits.  Through the whole loop the file that was there stays
    untouched as long as no staged file's new name is its name. *)
Theorem collision_keeps_existing env w file content data old :
  wf (files w) ->
  files w !! staged file = Some (File content) ->
  JsString.endsWith file ".json" = true ->
  JSON_parse env content = Ok data ->
  is_invalid data = Ok false ->
  files w !! accepted file = Some old ->
  let stamp := generateTimestamp (new_Date env (dates_taken w)) in
  let newFileName := renamed env (dates_taken w) file in
  files w !! accepted newFileName ≠ Some Dir ->
  exists w',
    curateFile env file w = (Ok tt, w')
    /\ files w' = <[accepted newFileName := File content]>
                    (delete (staged file) (files w))
    /\ files w' !! accepted file = Some old
    /\ files w' !! accepted newFileName = Some (File content)
    /\ files w' !! staged file = None
    /\ newFileName ≠ file
    /\ newFileName
       = Path.basename file (Path.extname file) +:+ "_" +:+ stamp
         +:+ Path.extname file
    /\ (forall stem, stem ≠ "" -> file = stem +:+ ".json" ->
          newFileName = stem +:+ "_" +:+ stamp +:+ ".json")
    /\ (plausible (new_Date env (dates_taken w)) ->
          stamp = MMDDYYHHMMSS (new_Date env (dates_taken w))
          /\ String.length stamp = 12)
    /\ console w' = console w ++ [MovedAndRenamed newFileName]
    /\ (forall l,
          Forall (fun g => Path.valid_name g = true) l ->
          (forall g k, g ∈ l -> renamed env k g ≠ file) ->
          exists w1, forEach l (curateFile env) w = (Ok tt, w1)
                     /\ files w1 !! accepted file = Some old).
Proof.
  intros Hwf Hfile Hext Hparse Hvalid Hold stamp newFileName Hnodir.
  assert (Hv : Path.valid_name file = true).
  { apply (staged_valid (files w)); [done|]. by eexists. }
  assert (Hne : newFileName ≠ file) by by apply renamed_ne.
  eexists. split.
  { apply (curateFile_renamed env file w content data); try done.
    - apply readFileSync_Ok. by rewrite stat_lookup.
    - rewrite stat_lookup by done. congruence.
    - by apply (wf_parent_dir (files w) destinationPath file old). }
  simpl. split_and!; try done.
  - rewrite lookup_insert_ne, lookup_delete_ne;
      [done|apply staged_ne_accepted|].
    by intros E%accepted_inj.
  - apply lookup_insert_eq.
  - rewrite lookup_insert_ne by (symmetry; apply staged_ne_accepted).
    apply lookup_delete_eq.
  - intros stem Hstem ->. by apply renamed_json.
  - intros Hp. subst stamp. rewrite generateTimestamp_plausible by done.
    split; [done|]. apply length_MMDDYYHHMMSS.
  - intros l Hl Hfresh.
    by apply (forEach_curateFile_keeps_existing env l w file old).
Qed.

Lemma collision_keeps_existing_witness :
  exists w',
    curateFile Demo.env "Stripe_API.json" DemoDisk.world = (Ok tt, w')
    /\ files w' !! accepted "Stripe_API.json" = Some (File DemoDisk.older)
    /\ files w' !! accepted "Stripe_API_110226090530.json"
       = Some (File (Demo.stringify Demo.stripe_record)).
Proof.
  assert (Hwf : wf (files DemoDisk.world)).
  { apply (bool_decide_unpack _). vm_compute. exact I. }
  destruct (collision_keeps_existing Demo.env DemoDisk.world "Stripe_API.json"
              (Demo.stringify Demo.stripe_record) Demo.stripe_record
              (File DemoDisk.older) Hwf eq_refl eq_refl eq_refl eq_refl eq_refl)
    as (w' & Hrun & _ & Hold & Hnew & _).
  { vm_compute. discriminate. }
  exists w'. split; [exact Hrun|]. split; [exact Hold|exact Hnew].
Defined.

(** ** Valid and invalid records *)

Section Records.

Variable env : Env.

Lemma is_invalid_pageRecord apiName url title content :
  is_invalid (pageRecord apiName url title content)
  = Ok (negb (negb (String.eqb apiName "") && negb (String.eqb url "")
              && negb (String.eqb title "") && negb (String.eqb content "")
              && negb (JsString.includes title "404"))).
Proof.
  unfold is_invalid, pageRecord, get. simpl.
  destruct (String.eqb apiName ""); [done|].
  destruct (String.eqb url ""); [done|].
  destruct (String.eqb title ""); [done|].
  destruct (String.eqb content ""); [done|].
  simpl. by rewrite negb_involutive.
Qed.

Lemma valid_record_spec apiName url title content :
  valid_record apiName url title content <->
  is_invalid (pageRecord apiName url title content) = Ok false.
Proof.
  rewrite is_invalid_pageRecord. unfold valid_record, not_found_marker.
  rewrite <- !String.eqb_neq.
  destruct (String.eqb apiName ""), (String.eqb url ""), (String.eqb title ""),
    (String.eqb content ""), (JsString.includes title "404"); simpl;
    split; (intros (? & ? & ? & ? & ?) || intros ?); try done.
Qed.

Lemma invalid_record_spec apiName url title content :
  ¬ valid_record apiName url title content <->
  is_invalid (pageRecord apiName url title content) = Ok true.
Proof.
  rewrite valid_record_spec, is_invalid_pageRecord.
  destruct (negb _); split; try done.
Qed.

(** The loop when no staged name is taken in the dataset folder. *)
Lemma forEach_curateFile_free l : forall w,
  Forall (fun file => Path.valid_name file = true) l -> wf (files w) ->
  stat (files w) destinationPath = Some Dir ->
  (forall g, is_Some (files w !! staged g) -> files w !! accepted g = None) ->
  exists w1,
    forEach l (curateFile env) w = (Ok tt, w1)
    /\ (forall file content data,
          file ∈ l -> files w !! staged file = Some (File content) ->
          JsString.endsWith file ".json" = true ->
          JSON_parse env content = Ok data ->
          (is_invalid data = Ok true ->
             files w1 !! staged file = None /\ files w1 !! accepted file = None)
          /\ (is_invalid data = Ok false ->
                files w1 !! staged file = None
                /\ files w1 !! accepted file = Some (File content)))
    /\ (forall name, files w !! staged name = None ->
          files w1 !! staged name = None
          /\ files w1 !! accepted name = files w !! accepted name).
Proof.
  induction l as [|h l IH]; intros w Hl Hwf Hdest Hfree.
  - exists w. split_and!; try done. intros file content data Hin.
    by apply elem_of_nil in Hin.
  - apply Forall_cons in Hl as [Hv Hl]. simpl. unfold bind.
    destruct (curateFile_keeps env h w Hv Hwf)
      as (w1 & Hrun & Hwf1 & _ & _ & _ & Hframe & Hdirs).
    destruct (curateFile_shape env h w Hv Hwf)
      as (w1' & Hrun' & _ & _ & _ & Hshape).
    rewrite Hrun in Hrun'. injection Hrun' as <-. rewrite Hrun.
    assert (Hdest1 : stat (files w1) destinationPath = Some Dir).
    { rewrite stat_lookup in * by done. by apply Hdirs. }
    (* what the step does to the two folders *)
    assert (Hstep :
      (forall g, g ≠ h -> files w1 !! staged g = files w !! staged g
                          /\ files w1 !! accepted g = files w !! accepted g)
      /\ (files w1 !! staged h = None \/ files w1 = files w)
      /\ (files w !! staged h = None -> files w1 = files w)).
    { destruct Hshape as [E|[(c & Hs & E)|(c & n & Hs & _ & Hn & _ & _ & E)]].
      - rewrite E. split_and!; try done. by right.
      - rewrite E. apply stat_File in Hs as [_ Hs]. split_and!.
        + intros g Hg. split.
          * rewrite lookup_delete_ne; [done|]. by intros ?%staged_inj.
          * by rewrite lookup_delete_ne by apply staged_ne_accepted.
        + left. apply lookup_delete_eq.
        + congruence.
      - apply stat_File in Hs as [_ Hs].
        destruct Hn as [[-> _]|[_ Htaken]].
        2:{ exfalso. apply Htaken. rewrite stat_lookup by done.
            apply Hfree. by eexists. }
        rewrite E. split_and!.
        + intros g Hg. split.
          * rewrite lookup_insert_ne by (symmetry; apply staged_ne_accepted).
            rewrite lookup_delete_ne; [done|]. by intros ?%staged_inj.
          * rewrite lookup_insert_ne by by intros ?%accepted_inj.
            by rewrite lookup_delete_ne by apply staged_ne_accepted.
        + left. rewrite lookup_insert_ne by (symmetry; apply staged_ne_accepted).
          apply lookup_delete_eq.
        + congruence. }
    destruct Hstep as (Hothers & Hgone & Habsent).
    assert (Hfree1 : forall g, is_Some (files w1 !! staged g) ->
                               files w1 !! accepted g = None).
    { intros g Hg. destruct Hgone as [Hnone|E].
      - destruct (decide (g = h)) as [->|Hne].
        + rewrite Hnone in Hg. by destruct Hg.
        + destruct (Hothers g Hne) as [E1 E2]. rewrite E2. apply Hfree.
          by rewrite <- E1.
      - rewrite E in *. by apply Hfree. }
    destruct (IH w1 Hl Hwf1 Hdest1 Hfree1) as (w2 & Hrun2 & Hrec2 & Hfr2).
    exists w2. split; [done|]. split.
    + intros file content data Hin Hfile Hext Hparse.
      destruct (decide (file = h)) as [->|Hne].
      * assert (Hread : readFileSync (files w) (staged h) = Ok content).
        { apply readFileSync_Ok. by rewrite stat_lookup. }
        assert (Hfh : stat (files w) (accepted h) = None).
        { rewrite stat_lookup by done. apply Hfree. by eexists. }
        split; intros Hinv.
        -- rewrite (curateFile_invalid env h w content data) in Hrun by done.
           injection Hrun as <-.
           destruct (Hfr2 h) as [E1 E2]; [apply lookup_delete_eq|].
           split; [done|]. rewrite E2. simpl.
           rewrite lookup_delete_ne by apply staged_ne_accepted.
           apply Hfree. by eexists.
        -- rewrite (curateFile_moved env h w content data) in Hrun by done.
           injection Hrun as <-.
           destruct (Hfr2 h) as [E1 E2].
           { simpl. rewrite lookup_insert_ne by (symmetry; apply staged_ne_accepted).
             apply lookup_delete_eq. }
           split; [done|]. rewrite E2. simpl. apply lookup_insert_eq.
      * apply elem_of_cons in Hin as [?|Hin]; [done|].
        destruct (Hothers file Hne) as [E1 E2].
        apply (Hrec2 file content data); try done. by rewrite E1.
    + intros name Hname.
      assert (E : files w1 !! staged name = files w !! staged name
                  /\ files w1 !! accepted name = files w !! accepted name).
      { destruct (decide (name = h)) as [->|Hne].
        - by rewrite (Habsent Hname).
        - by apply Hothers. }
      destruct E as [E1 E2].
      destruct (Hfr2 name) as [F1 F2]; [by rewrite E1|].
      split; [done|]. by rewrite F2.
Qed.

End Records.

Lemma ensure_destination_lookup fs fs1 p :
  wf fs -> ensure_destination fs = Ok fs1 ->
  ¬ p `prefix_of` destinationPath -> fs1 !! p = fs !! p.
Proof.
  intros Hwf He Hp.
  destruct (ensure_destination_spec _ _ Hwf He) as (_ & _ & Hkeep & Hnew).
  destruct (fs !! p) as [n|] eqn:Hfs; [by apply Hkeep|].
  destruct (fs1 !! p) as [n|] eqn:Hfs1; [|done].
  by destruct (Hnew p n Hfs Hfs1).
Qed.

(** C3.  The test of line 109 on a page record is the validity of the
    specification: it passes exactly when the four fields are non-empty
    and the title does not contain ["404"].  The callback unlinks a
    staged record that is not valid, and renames a valid one into the
    dataset folder, under its own name when that is free and under the
    name with the timestamp otherwise; the file arrives with the text it
    had.  When no staged name is taken in the dataset folder, at the end
    of the loop every valid staged record is in the dataset folder under
    its name with its text, and every invalid one is in neither folder. *)
Theorem valid_records_move_invalid_go env w file text apiName url title content :
  wf (files w) ->
  files w !! staged file = Some (File text) ->
  JsString.endsWith file ".json" = true ->
  JSON_parse env text = Ok (pageRecord apiName url title content) ->
  (valid_record apiName url title content <->
   is_invalid (pageRecord apiName url title content) = Ok false)
  /\ (¬ valid_record apiName url title content <->
      is_invalid (pageRecord apiName url title content) = Ok true)
  /\ (¬ valid_record apiName url title content ->
      curateFile env file w
      = (Ok tt, set_files (delete (staged file) (files w))
                  (say (DeletingInvalidFile file) w)))
  /\ (valid_record apiName url title content ->
      stat (files w) destinationPath = Some Dir ->
      files w !! accepted file = None ->
      curateFile env file w
      = (Ok tt, say (MovedValidFile file)
                  (set_files (<[accepted file := File text]>
                                (delete (staged file) (files w))) w)))
  /\ (valid_record apiName url title content ->
      files w !! accepted file ≠ None ->
      files w !! accepted (renamed env (dates_taken w) file) ≠ Some Dir ->
      exists w',
        curateFile env file w = (Ok tt, w')
        /\ files w'
           = <[accepted (renamed env (dates_taken w) file) := File text]>
               (delete (staged file) (files w)))
  /\ (forall fs1,
        ensure_destination (files w) = Ok fs1 ->
        stat fs1 destinationPath = Some Dir ->
        Forall (fun g => files w !! accepted g = None)
          (children (files w) directoryPath) ->
        exists w1,
          forEach (children fs1 directoryPath) (curateFile env) (set_files fs1 w)
          = (Ok tt, w1)
          /\ cleanUpAndMoveFiles env false w
             = (Ok tt, say DeletedStorageAfterMoving
                         (set_files (remove_tree (files w1) storagePath) w1))
          /\ files w1 !! staged file = None
          /\ (valid_record apiName url title content ->
                files w1 !! accepted file = Some (File text)
                /\ remove_tree (files w1) storagePath !! accepted file
                   = Some (File text))
          /\ (¬ valid_record apiName url title content ->
                files w1 !! accepted file = None
                /\ remove_tree (files w1) storagePath !! accepted file = None)).
Proof.
  intros Hwf Hfile Hext Hparse.
  assert (Hv : Path.valid_name file = true).
  { apply (staged_valid (files w)); [done|]. by eexists. }
  assert (Hread : readFileSync (files w) (staged file) = Ok text).
  { apply readFileSync_Ok. by rewrite stat_lookup. }
  split_and!.
  - apply valid_record_spec.
  - apply invalid_record_spec.
  - intros Hinv%invalid_record_spec.
    by apply (curateFile_invalid env file w text
                (pageRecord apiName url title content)).
  - intros Hval%valid_record_spec Hdest Hfree.
    by apply (curateFile_moved env file w text
                (pageRecord apiName url title content)).
  - intros Hval%valid_record_spec Htaken Hnodir.
    destruct (files w !! accepted file) as [old|] eqn:Hold; [|done].
    eexists. split.
    { apply (curateFile_renamed env file w text
               (pageRecord apiName url title content)); try done.
      - rewrite stat_lookup by done. congruence.
      - by apply (wf_parent_dir (files w) destinationPath file old). }
    done.
  - intros fs1 He Hdest Hfree.
    destruct (ensure_destination_spec _ _ Hwf He) as (Hwf1 & _ & Hkeep & _).
    assert (Hsame : forall g, fs1 !! staged g = files w !! staged g
                              /\ fs1 !! accepted g = files w !! accepted g).
    { intros g. split; apply (ensure_destination_lookup (files w)); try done.
      - by intros [q [=]].
      - intros [q Hq]. apply (f_equal length) in Hq.
        unfold accepted in Hq. rewrite !length_app in Hq. simpl in Hq. lia. }
    assert (Hfree1 : forall g, is_Some (fs1 !! staged g) -> fs1 !! accepted g = None).
    { intros g Hg. destruct (Hsame g) as [E1 E2]. rewrite E2.
      rewrite E1 in Hg. apply children_spec in Hg.
      by apply (proj1 (Forall_forall _ _) Hfree). }
    assert (Hd : stat fs1 directoryPath = Some Dir).
    { apply (wf_parent_dir fs1 directoryPath file (File text)); [done|].
      by apply Hkeep. }
    destruct (cleanUp_normal_run env w fs1 Hwf He Hd) as (w1 & Hloop & _ & _ & Hrun).
    destruct (forEach_curateFile_free env (children fs1 directoryPath)
                (set_files fs1 w) (children_staged_valid _ Hwf1) Hwf1 Hdest Hfree1)
      as (w1' & Hloop' & Hrec & _).
    rewrite Hloop in Hloop'. injection Hloop' as <-.
    assert (Hin : file ∈ children fs1 directoryPath).
    { apply children_spec. exists (File text). by apply Hkeep. }
    destruct (Hrec file text (pageRecord apiName url title content) Hin)
      as [Hbad Hgood]; try done.
    { simpl. by apply Hkeep. }
    assert (Hout : forall x, files w1 !! accepted file = x ->
                     remove_tree (files w1) storagePath !! accepted file = x).
    { intros x <-. rewrite remove_tree_lookup. rewrite decide_False; [done|].
      by intros [q [=]]. }
    exists w1. split_and!; try done.
    + destruct (is_invalid (pageRecord apiName url title content))
        as [[|]|e] eqn:Hi.
      * by destruct Hbad.
      * by destruct Hgood.
      * by rewrite is_invalid_pageRecord in Hi.
    + intros Hval%valid_record_spec. destruct (Hgood Hval) as [_ E].
      split; [done|]. by apply Hout.
    + intros Hinv%invalid_record_spec. destruct (Hbad Hinv) as [_ E].
      split; [done|]. by apply Hout.
Qed.

Lemma valid_records_move_invalid_go_witness :
  exists w1,
    cleanUpAndMoveFiles Demo.env false DemoFirstRun.world
    = (Ok tt, say DeletedStorageAfterMoving
                (set_files (remove_tree (files w1) storagePath) w1))
    /\ remove_tree (files w1) storagePath !! accepted "Stripe_API.json"
       = Some (File (Demo.stringify Demo.stripe_record)).
Proof.
  assert (Hwf : wf (files DemoFirstRun.world)).
  { apply (bool_decide_unpack _). vm_compute. exact I. }
  destruct (valid_records_move_invalid_go Demo.env DemoFirstRun.world
              "Stripe_API.json" (Demo.stringify Demo.stripe_record)
              "Stripe API" "https://docs.stripe.com/api" "Stripe API Reference"
              "The Stripe API is organized around REST."
              Hwf eq_refl eq_refl eq_refl)
    as (_ & _ & _ & _ & _ & Hloop).
  destruct (Hloop DemoFirstRun.disk eq_refl eq_refl)
    as (w1 & _ & Hrun & _ & Hgood & _).
  - vm_compute. repeat constructor.
  - exists w1. split; [exact Hrun|]. apply Hgood.
    repeat split; discriminate.
Defined.

(** ** Staging a page *)

Section Staging.

Variable env : Env.

Lemma replace_spaces_slash s :
  JsString.contains_char "/" (JsString.replace_spaces s)
  = JsString.contains_char "/" s.
Proof.
  induction s as [|a s IH]; [done|]. simpl. rewrite IH. f_equal.
  destruct (Ascii.eqb a " ") eqn:E; [|done].
  apply Ascii.eqb_eq in E. by subst a.
Qed.

Lemma staged_name_valid apiName :
  JsString.contains_char "/" apiName = false ->
  Path.valid_name (staged_name apiName) = true.
Proof.
  intros H. unfold staged_name. apply valid_name_spec.
  assert (Hlen : 5 <= String.length (JsString.replace_spaces apiName +:+ ".json")).
  { rewrite length_app_s. simpl. lia. }
  split_and!.
  - intros E. rewrite E in Hlen. simpl in Hlen. lia.
  - intros E. rewrite E in Hlen. simpl in Hlen. lia.
  - intros E. rewrite E in Hlen. simpl in Hlen. lia.
  - by rewrite contains_char_app, replace_spaces_slash, H.
Qed.

End Staging.

(** C9, as the code has it.  For a page of an API whose name has no
    ['/'] in it, the request handler makes the staging folder when it is
    not there (in its existing parent) and leaves it alone when it is,
    then writes one file, named by the API name with every space turned
    into an underscore and [.json] appended, with the record as its text;
    a file that was there under that name is replaced, and nothing else on
    the disk changes.  (A directory under the record's name would make the
    write fail.) *)
Theorem requestHandler_stages_record env w request page :
  JsString.contains_char "/" (userData_apiName request) = false ->
  stat (files w) directoryPath = Some Dir
  \/ (stat (files w) directoryPath = None
      /\ stat (files w) (parent directoryPath) = Some Dir) ->
  files w !! staged (staged_name (userData_apiName request)) ≠ Some Dir ->
  let name := staged_name (userData_apiName request) in
  exists w',
    requestHandler env request page w = (Ok tt, w')
    /\ Path.join directoryPath name = staged name
    /\ JsString.endsWith name ".json" = true
    /\ files w'
       = <[staged name := File (record_text env request page)]>
           (if existsSync (files w) directoryPath then files w
            else <[directoryPath := Dir]> (files w))
    /\ stat (files w') directoryPath = Some Dir
    /\ files w' !! staged name = Some (File (record_text env request page))
    /\ (forall p, p ≠ staged name -> p ≠ directoryPath ->
          files w' !! p = files w !! p)
    /\ (existsSync (files w) directoryPath = true ->
          files w' !! directoryPath = files w !! directoryPath)
    /\ console w' = console w ++ [Scraped (url request)].
Proof.
  intros Hslash Hdir Hnodir name.
  assert (Hv : Path.valid_name name = true) by by apply staged_name_valid.
  assert (Hj : Path.join directoryPath name = staged name)
    by by apply join_valid_name.
  assert (Hne : staged name ≠ directoryPath).
  { intros E. apply (f_equal length) in E. unfold staged in E.
    rewrite length_app in E. simpl in E. lia. }
  unfold requestHandler, bind, fs_read, fs_update, print.
  fold (staged_name (userData_apiName request)). fold name.
  fold (record_text env request page). rewrite Hj.
  unfold existsSync.
  destruct Hdir as [Hd|[Hd Hp]]; rewrite Hd; simpl.
  - assert (Hw : writeFileSync (files w) (staged name) (record_text env request page)
                 = Ok (<[staged name := File (record_text env request page)]> (files w))).
    { unfold writeFileSync. rewrite stat_lookup by done.
      destruct (files w !! staged name) as [[c|]|] eqn:E; try done.
      by rewrite parent_staged, Hd. }
    rewrite Hw. eexists. split; [reflexivity|]. simpl. split_and!; try done.
    + by apply endsWith_spec; eexists.
    + rewrite stat_lookup in * by done. by rewrite lookup_insert_ne.
    + apply lookup_insert_eq.
    + intros p Hp _. by rewrite lookup_insert_ne.
    + intros _. by rewrite lookup_insert_ne.
  - unfold mkdirSync. rewrite Hd, Hp. simpl.
    apply stat_None in Hd as [_ Hd].
    assert (Hw : writeFileSync (<[directoryPath := Dir]> (files w)) (staged name)
                   (record_text env request page)
                 = Ok (<[staged name := File (record_text env request page)]>
                         (<[directoryPath := Dir]> (files w)))).
    { unfold writeFileSync. rewrite stat_lookup by done.
      rewrite lookup_insert_ne by done.
      destruct (files w !! staged name) as [[c|]|] eqn:E; try done.
      rewrite parent_staged, stat_lookup by done. by rewrite lookup_insert_eq. }
    rewrite Hw. eexists. split; [reflexivity|]. simpl. split_and!; try done.
    + by apply endsWith_spec; eexists.
    + rewrite stat_lookup by done. rewrite lookup_insert_ne by done.
      apply lookup_insert_eq.
    + apply lookup_insert_eq.
    + intros p Hp1 Hp2. by rewrite !lookup_insert_ne.
Qed.

Lemma requestHandler_stages_record_witness :
  exists w',
    requestHandler Demo.env (request_of Demo.stripe)
      {| page_title := "Stripe API Reference";
         page_body_trimmed := "The Stripe API is organized around REST." |}
      DemoDisk.world = (Ok tt, w')
    /\ files w' !! staged "Stripe_API.json"
       = Some (File (Demo.stringify Demo.stripe_record)).
Proof.
  destruct (requestHandler_stages_record Demo.env DemoDisk.world
              (request_of Demo.stripe)
              {| page_title := "Stripe API Reference";
                 page_body_trimmed := "The Stripe API is organized around REST." |})
    as (w' & Hrun & _ & _ & _ & _ & Hfile & _).
  - reflexivity.
  - left. reflexivity.
  - vm_compute. discriminate.
  - exists w'. split; [exact Hrun|exact Hfile].
Defined.

(** The claim of C9 for every page does not hold: the API name
    ["CI/CD API"] gives the path [.../default/CI/CD_API.json], the folder
    [CI] is not there, the write throws, and no record is staged; the
    crawler hands the exception to the failure handler. *)
Lemma requestHandler_slash_stages_nothing :
  Path.join directoryPath (JsString.replace_spaces "CI/CD API" +:+ ".json")
  = directoryPath ++ ["CI"; "CD_API.json"]
  /\ requestHandler Demo.env DemoSlash.request DemoSlash.page DemoDisk.world
     = (Throw (FsError ENOENT "open" (directoryPath ++ ["CI"; "CD_API.json"])),
        DemoDisk.world)
  /\ settle DemoSlash.env DemoSlash.request DemoDisk.world
     = (Ok tt,
        say (FailedToScrape "https://ci.example/docs"
               (FsError ENOENT "open" (directoryPath ++ ["CI"; "CD_API.json"])))
          DemoDisk.world).
Proof.
  repeat split; vm_compute; reflexivity.
Qed.

(** The folder is made with a plain [mkdirSync]: on a disk without
    [./storage/request_queues] the handler throws before it writes. *)
Example requestHandler_no_parent_ex :
  requestHandler Demo.env (request_of Demo.stripe) DemoSlash.page DemoDisk.fresh
  = (Throw (FsError ENOENT "mkdir" directoryPath), DemoDisk.fresh).
Proof. vm_compute. reflexivity. Qed.

(** * Further properties of the script *)

(** ** The substring test of the robots gate *)

Section Includes.

Lemma prefix_spec p s :
  String.prefix p s = true <-> exists rest, s = p +:+ rest.
Proof.
  revert s. induction p as [|a p IH]; intros s.
  - split; [|by destruct s]. intros _. by exists s.
  - destruct s as [|b s]; simpl.
    + split; [done|]. by intros [rest H].
    + destruct (ascii_dec a b) as [->|Hne].
      * rewrite IH. split.
        -- intros [rest ->]. by exists rest.
        -- intros [rest H]. rewrite app_cons in H. injection H as ->.
           by exists rest.
      * split; [done|]. intros [rest H]. rewrite app_cons in H.
        injection H as -> _. done.
Qed.

Lemma includes_spec s pat :
  JsString.includes s pat = true <-> exists pre rest, s = pre +:+ pat +:+ rest.
Proof.
  induction s as [|a s IH].
  - change (JsString.includes "" pat) with (String.prefix pat "" || false).
    rewrite orb_false_r, prefix_spec. split.
    + intros [rest H]. by exists "", rest.
    + intros ([|b pre] & rest & H); [by exists rest|]. by rewrite app_cons in H.
  - change (JsString.includes (String a s) pat)
      with (String.prefix pat (String a s) || JsString.includes s pat).
    rewrite orb_true_iff, prefix_spec, IH. split.
    + intros [[rest H]|(pre & rest & ->)].
      * by exists "", rest.
      * by exists (String a pre), rest.
    + intros ([|b pre] & rest & H).
      * left. by exists rest.
      * rewrite app_cons in H. injection H as -> ->. right. by exists pre, rest.
Qed.

End Includes.

(** X1.  For a policy resource that came with a success status,
    [canScrape] answers [false] exactly when the text has ["Disallow: /"]
    somewhere in it, and [true] otherwise; it prints nothing.  So a rule
    for one path (["Disallow: /private"]), a rule of another user agent's
    section or a rule in a comment refuses the whole site, and the entry
    is skipped. *)
Theorem canScrape_refuses_on_any_disallowed_path env api response robotsText n w :
  policy_response env (Official_Documentation_URL api) = Ok response ->
  ok response = true ->
  text response = Ok robotsText ->
  let url := Official_Documentation_URL api in
  (canScrape env url w = (Ok (JBool false), w) <->
   exists pre rest, robotsText = pre +:+ "Disallow: /" +:+ rest)
  /\ (canScrape env url w = (Ok (JBool true), w) <->
      ¬ exists pre rest, robotsText = pre +:+ "Disallow: /" +:+ rest)
  /\ (forall pre rest, robotsText = pre +:+ "Disallow: /" +:+ rest ->
        checkAndEnqueueOne env n api w = (Ok n, say (SkippingNotAllowed url) w)).
Proof.
  intros Hresp Hok Htext url.
  assert (Hrun : canScrape env url w
                 = (Ok (JBool (negb (JsString.includes robotsText "Disallow: /"))), w)).
  { unfold canScrape, try_catch, bind, lift, ret.
    unfold policy_response in Hresp. fold url in Hresp.
    destruct (robots_href env url) as [robotsUrl|e]; [|done]. simpl.
    rewrite Hresp. simpl. rewrite Hok, Htext. reflexivity. }
  assert (Hone : JsString.includes robotsText "Disallow: /" = true ->
            checkAndEnqueueOne env n api w = (Ok n, say (SkippingNotAllowed url) w)).
  { intros Hi. unfold checkAndEnqueueOne, bind.
    change (Official_Documentation_URL api) with url.
    rewrite Hrun, Hi. reflexivity. }
  rewrite Hrun. rewrite <- includes_spec.
  destruct (JsString.includes robotsText "Disallow: /") eqn:Hi; simpl.
  - refine (conj _ (conj _ _)).
    + done.
    + split; [done|]. intros H. by destruct H.
    + intros pre rest _. by apply Hone.
  - refine (conj _ (conj _ _)).
    + done.
    + done.
    + intros pre rest ->. exfalso.
      assert (JsString.includes (pre +:+ "Disallow: /" +:+ rest) "Disallow: /" = true)
        by (apply includes_spec; by exists pre, rest).
      congruence.
Qed.

Lemma canScrape_refuses_on_any_disallowed_path_witness :
  canScrape DemoRobots.env "https://partly.example/docs" blank
  = (Ok (JBool false), blank)
  /\ checkAndEnqueueOne DemoRobots.env 0 DemoRobots.partly blank
     = (Ok 0, say (SkippingNotAllowed "https://partly.example/docs") blank).
Proof.
  destruct (canScrape_refuses_on_any_disallowed_path DemoRobots.env
              DemoRobots.partly {| ok := true; text := Ok DemoRobots.robots |}
              DemoRobots.robots 0 blank eq_refl eq_refl eq_refl)
    as (Hfalse & _ & Hskip).
  assert (H : DemoRobots.robots
              = ("User-agent: *" +:+ Demo.nl) +:+ "Disallow: /" +:+ ("private/" +:+ Demo.nl +:+ "Allow: /docs"))
    by reflexivity.
  split.
  - apply Hfalse. eexists _, _. exact H.
  - eapply Hskip. exact H.
Defined.

(** ** Staged files that are not page records *)

Section NotRecords.

Variable env : Env.

Lemma is_invalid_plain data : plain_value data = true -> is_invalid data = Ok true.
Proof. by destruct data. Qed.

Lemma is_invalid_object props :
  is_invalid (JObj props)
  = if fields_truthy props then call_includes (assoc "title" props) "404"
    else Ok true.
Proof.
  unfold is_invalid, fields_truthy, record_fields, get. simpl.
  destruct (truthy (assoc "apiName" props)); [|done].
  destruct (truthy (assoc "url" props)); [|done].
  destruct (truthy (assoc "title" props)); [|done].
  destruct (truthy (assoc "content" props)); done.
Qed.

Lemma assoc_missing k props : k ∉ props.*1 -> assoc k props = JUndefined.
Proof.
  induction props as [|[k' v] props IH]; [done|]. simpl. intros Hk.
  apply not_elem_of_cons in Hk as [Hne Hk].
  destruct (String.eqb k k') eqn:E; [by apply String.eqb_eq in E|]. by apply IH.
Qed.

End NotRecords.

(** X2.  A staged [.json] file whose text is JSON but not an object is
    handled by its kind: for a number, a string, a boolean or an array the
    test of line 109 finds no [apiName] and the file is unlinked as
    invalid; for [null] the test itself throws, the [catch] prints the
    error and the file is left where it is. *)
Theorem curateFile_json_not_object env w file text data :
  Path.valid_name file = true ->
  JsString.endsWith file ".json" = true ->
  files w !! staged file = Some (File text) ->
  JSON_parse env text = Ok data ->
  (plain_value data = true ->
   curateFile env file w
   = (Ok tt, set_files (delete (staged file) (files w))
               (say (DeletingInvalidFile file) w)))
  /\ (data = JNull ->
      exists e, curateFile env file w
                = (Ok tt, say (ErrorReadingOrParsing file (TypeError e)) w)).
Proof.
  intros Hv Hext Hfile Hparse.
  assert (Hread : readFileSync (files w) (staged file) = Ok text).
  { apply readFileSync_Ok. by rewrite stat_lookup. }
  split.
  - intros Hplain. apply (curateFile_invalid env file w text data); try done.
    by apply is_invalid_plain.
  - intros ->. eexists.
    by apply (curateFile_untestable env file w text JNull).
Qed.

Lemma curateFile_json_not_object_witness :
  curateFile DemoJson.env "count.json" DemoJson.world
  = (Ok tt, set_files (delete (staged "count.json") DemoJson.disk)
              (say (DeletingInvalidFile "count.json") DemoJson.world))
  /\ exists e, curateFile DemoJson.env "null.json" DemoJson.world
               = (Ok tt, say (ErrorReadingOrParsing "null.json" (TypeError e))
                           DemoJson.world).
Proof.
  split.
  - apply (curateFile_json_not_object DemoJson.env DemoJson.world "count.json"
             "42" (JNum 42) eq_refl eq_refl eq_refl eq_refl). reflexivity.
  - apply (curateFile_json_not_object DemoJson.env DemoJson.world "null.json"
             "null" JNull eq_refl eq_refl eq_refl eq_refl). reflexivity.
Defined.

(** X3.  A staged [.json] file whose text is a JSON object is unlinked
    as invalid as soon as one of [apiName], [url], [title], [content] is
    missing from the object or holds a falsy value (the empty string, 0,
    [false], [null]); the other properties of the object are not looked
    at.  The files the crawler keeps for its own queue go this way. *)
Theorem curateFile_object_lacking_field env w file text props k :
  Path.valid_name file = true ->
  JsString.endsWith file ".json" = true ->
  files w !! staged file = Some (File text) ->
  JSON_parse env text = Ok (JObj props) ->
  k ∈ record_fields ->
  k ∉ props.*1 \/ truthy (assoc k props) = false ->
  is_invalid (JObj props) = Ok true
  /\ curateFile env file w
     = (Ok tt, set_files (delete (staged file) (files w))
                 (say (DeletingInvalidFile file) w)).
Proof.
  intros Hv Hext Hfile Hparse Hk Hfalsy.
  assert (Hread : readFileSync (files w) (staged file) = Ok text).
  { apply readFileSync_Ok. by rewrite stat_lookup. }
  assert (Hf : truthy (assoc k props) = false).
  { destruct Hfalsy as [Hmiss|Hf]; [|done]. by rewrite assoc_missing. }
  assert (Hinv : is_invalid (JObj props) = Ok true).
  { rewrite is_invalid_object.
    assert (fields_truthy props = false) as ->; [|done].
    unfold fields_truthy. apply not_true_iff_false. intros Hall.
    rewrite forallb_forall in Hall.
    rewrite (Hall k) in Hf; [done|]. by apply list_elem_of_In. }
  split; [done|].
  by apply (curateFile_invalid env file w text (JObj props)).
Qed.

Lemma curateFile_object_lacking_field_witness :
  curateFile DemoJson.env "k3Jx0a9.json" DemoJson.world
  = (Ok tt, set_files (delete (staged "k3Jx0a9.json") DemoJson.disk)
              (say (DeletingInvalidFile "k3Jx0a9.json") DemoJson.world)).
Proof.
  apply (curateFile_object_lacking_field DemoJson.env DemoJson.world
           "k3Jx0a9.json" (Demo.stringify DemoJson.queue_entry)
           [("id", JStr "k3Jx0a9"); ("url", JStr "https://docs.stripe.com/api");
            ("uniqueKey", JStr "https://docs.stripe.com/api")]
           "apiName" eq_refl eq_refl eq_refl eq_refl).
  - apply elem_of_cons. by left.
  - right. reflexivity.
Defined.

(** X4.  When the four properties are there and truthy, the title alone
    decides, whatever the kinds of the values are.  A string title makes
    the record invalid exactly when it contains ["404"]; an array title
    exactly when ["404"] is one of its elements; with any other title
    (a number, [true], an object) the call of [includes] throws, the file
    is reported and left in the staging folder, neither unlinked nor
    moved. *)
Theorem curateFile_title_decides env w file text props :
  Path.valid_name file = true ->
  JsString.endsWith file ".json" = true ->
  files w !! staged file = Some (File text) ->
  JSON_parse env text = Ok (JObj props) ->
  fields_truthy props = true ->
  (forall title, assoc "title" props = JStr title ->
     is_invalid (JObj props) = Ok (JsString.includes title "404"))
  /\ (forall items, assoc "title" props = JArr items ->
        is_invalid (JObj props) = Ok (existsb (is_JStr "404") items))
  /\ ((forall title, assoc "title" props ≠ JStr title) ->
      (forall items, assoc "title" props ≠ JArr items) ->
      exists e,
        curateFile env file w
        = (Ok tt, say (ErrorReadingOrParsing file (TypeError e)) w)).
Proof.
  intros Hv Hext Hfile Hparse Hall.
  assert (Hread : readFileSync (files w) (staged file) = Ok text).
  { apply readFileSync_Ok. by rewrite stat_lookup. }
  pose proof (is_invalid_object props) as Hinv. rewrite Hall in Hinv.
  split_and!.
  - intros title Ht. by rewrite Hinv, Ht.
  - intros items Ht. by rewrite Hinv, Ht.
  - intros Hnostr Hnoarr.
    assert (exists e, is_invalid (JObj props) = Throw (TypeError e)) as [e He].
    { rewrite Hinv. destruct (assoc "title" props) as [| | | |t|items|];
        simpl; try by eexists.
      - by destruct (Hnostr t).
      - by destruct (Hnoarr items). }
    exists e. by apply (curateFile_untestable env file w text (JObj props)).
Qed.

Lemma curateFile_title_decides_witness :
  exists e,
    curateFile DemoJson.env "Status_API.json" DemoJson.world
    = (Ok tt, say (ErrorReadingOrParsing "Status_API.json" (TypeError e))
                DemoJson.world).
Proof.
  destruct (curateFile_title_decides DemoJson.env DemoJson.world
              "Status_API.json" DemoJson.numbered_text
              [("apiName", JStr "Status API"); ("url", JStr "https://status.example");
               ("title", JNum 200); ("content", JStr "All systems operational.")]
              eq_refl eq_refl eq_refl eq_refl eq_refl) as (_ & _ & Hthrow).
  apply Hthrow; discriminate.
Defined.

(** ** What the request handler touches *)

Section HandlerFrame.

Variable env : Env.

Lemma writeFileSync_cases fs p data :
  (exists e, writeFileSync fs p data = Throw e)
  \/ (writeFileSync fs p data = Ok (<[p := File data]> fs) /\ fs !! p ≠ Some Dir).
Proof.
  destruct (writeFileSync fs p data) as [fs'|e] eqn:Hw.
  - right. apply writeFileSync_Ok in Hw as (-> & _ & Hnd & _). done.
  - left. by exists e.
Qed.

(** The handler on a disk where the staging folder is there. *)
Lemma requestHandler_present request page w :
  JsString.contains_char "/" (userData_apiName request) = false ->
  stat (files w) directoryPath = Some Dir ->
  files w !! staged (staged_name (userData_apiName request)) ≠ Some Dir ->
  requestHandler env request page w
  = (Ok tt, say (Scraped (url request))
              (set_files (<[staged (staged_name (userData_apiName request))
                            := File (record_text env request page)]> (files w)) w)).
Proof.
  intros Hslash Hd Hnodir.
  set (name := staged_name (userData_apiName request)) in *.
  assert (Hv : Path.valid_name name = true) by by apply staged_name_valid.
  unfold requestHandler, bind, fs_read, fs_update, print.
  fold (staged_name (userData_apiName request)). fold name.
  fold (record_text env request page). rewrite (join_valid_name _ _ Hv).
  fold (staged name). unfold existsSync. rewrite Hd. simpl.
  assert (Hw : writeFileSync (files w) (staged name) (record_text env request page)
               = Ok (<[staged name := File (record_text env request page)]> (files w))).
  { unfold writeFileSync. rewrite stat_lookup by done.
    destruct (files w !! staged name) as [[c|]|] eqn:E; try done.
    by rewrite parent_staged, Hd. }
  by rewrite Hw.
Qed.

End HandlerFrame.

(** X5.  Whatever the API name is, a call of the request handler changes
    the disk at two paths at most: the staging folder, which it may
    create, and the path the name joins to, where it may write the
    record.  It removes no entry and replaces no directory, and it
    changes neither the queue nor the run counter.  When it throws, no
    record was written and nothing was printed; when it returns, the
    record is at the joined path and the line for the page is the one line
    it printed. *)
Theorem requestHandler_touches_two_paths env w request page r w' :
  requestHandler env request page w = (r, w') ->
  let target := Path.join directoryPath (staged_name (userData_apiName request)) in
  (forall p, p ≠ directoryPath -> p ≠ target -> files w' !! p = files w !! p)
  /\ (forall p, is_Some (files w !! p) -> is_Some (files w' !! p))
  /\ (forall p, files w !! p = Some Dir -> files w' !! p = Some Dir)
  /\ requests w' = requests w /\ crawler_runs w' = crawler_runs w
  /\ (forall e, r = Throw e ->
        console w' = console w
        /\ forall p, p ≠ directoryPath -> files w' !! p = files w !! p)
  /\ (r = Ok tt ->
        files w' !! target = Some (File (record_text env request page))
        /\ console w' = console w ++ [Scraped (url request)]).
Proof.
  unfold requestHandler, bind, fs_read, fs_update, print.
  fold (staged_name (userData_apiName request)).
  fold (record_text env request page).
  set (target := Path.join directoryPath (staged_name (userData_apiName request))).
  set (text := record_text env request page).
  assert (Hstep : forall fs, (forall p, p ≠ directoryPath -> fs !! p = files w !! p) ->
            (forall p, is_Some (files w !! p) -> is_Some (fs !! p)) ->
            (forall p, files w !! p = Some Dir -> fs !! p = Some Dir) ->
            match writeFileSync fs target text with
            | Ok fs' => (Ok tt, say (Scraped (url request)) (set_files fs' (set_files fs w)))
            | Throw e => (Throw e, set_files fs w)
            end = (r, w') ->
    (forall p, p ≠ directoryPath -> p ≠ target -> files w' !! p = files w !! p)
    /\ (forall p, is_Some (files w !! p) -> is_Some (files w' !! p))
    /\ (forall p, files w !! p = Some Dir -> files w' !! p = Some Dir)
    /\ requests w' = requests w /\ crawler_runs w' = crawler_runs w
    /\ (forall e, r = Throw e ->
          console w' = console w
          /\ forall p, p ≠ directoryPath -> files w' !! p = files w !! p)
    /\ (r = Ok tt ->
          files w' !! target = Some (File text)
          /\ console w' = console w ++ [Scraped (url request)])).
  { intros fs Hsame Hkeep Hdirs.
    destruct (writeFileSync_cases fs target text) as [[e ->]|[-> Hnd]].
    - intros [= <- <-]. simpl. split_and!; try done.
      intros p Hp _. by apply Hsame.
    - intros [= <- <-]. simpl. split_and!; try done.
      + intros p Hp1 Hp2. rewrite lookup_insert_ne by done. by apply Hsame.
      + intros p Hp. destruct (decide (target = p)) as [<-|Hne].
        * rewrite lookup_insert_eq. by eexists.
        * rewrite lookup_insert_ne by done. by apply Hkeep.
      + intros p Hp. rewrite lookup_insert_ne; [by apply Hdirs|].
        intros <-. apply Hnd. by apply Hdirs.
      + intros _. split; [|done]. apply lookup_insert_eq. }
  destruct (existsSync (files w) directoryPath) eqn:Hex; simpl.
  - intros Hrun. apply (Hstep (files w)); try done.
    destruct (writeFileSync (files w) target text); by rewrite ?set_files_same in *.
  - destruct (mkdirSync (files w) directoryPath) as [fs1|e] eqn:Hm; simpl.
    + apply mkdirSync_Ok in Hm as (-> & [_ Hnone]%stat_None & _).
      intros Hrun. apply (Hstep (<[directoryPath := Dir]> (files w))).
      * intros p Hp. by rewrite lookup_insert_ne.
      * intros p Hp. destruct (decide (directoryPath = p)) as [<-|Hne].
        -- rewrite lookup_insert_eq. by eexists.
        -- by rewrite lookup_insert_ne.
      * intros p Hp. rewrite lookup_insert_ne; [done|]. intros <-. congruence.
      * destruct (writeFileSync _ target text); exact Hrun.
    + intros [= <- <-]. split_and!; try done.
Qed.

Lemma requestHandler_touches_two_paths_witness :
  exists r w',
    requestHandler Demo.env DemoNames.climbing DemoNames.page1 DemoDisk.world
    = (r, w')
    /\ Path.join directoryPath (staged_name "../../../notes") = ["notes.json"]
    /\ files w' !! ["notes.json"]
       = Some (File (record_text Demo.env DemoNames.climbing DemoNames.page1))
    /\ files w' !! staged "Stripe_API.json"
       = Some (File (Demo.stringify Demo.stripe_record)).
Proof.
  destruct (requestHandler Demo.env DemoNames.climbing DemoNames.page1
              DemoDisk.world) as [r w'] eqn:Hrun.
  destruct (requestHandler_touches_two_paths Demo.env DemoDisk.world
              DemoNames.climbing DemoNames.page1 r w' Hrun)
    as (Hframe & _ & _ & _ & _ & _ & Hok).
  exists r, w'. split; [reflexivity|]. split; [reflexivity|].
  assert (Hr : r = Ok tt).
  { apply (f_equal fst) in Hrun. vm_compute in Hrun. by symmetry. }
  split.
  - by destruct (Hok Hr) as [? _].
  - rewrite Hframe; [reflexivity|discriminate|discriminate].
Defined.

(** ** From the page to the dataset *)

(** X6.  Staging and curating compose.  On a disk with both folders,
    where the name of the API's file is free in both, and with a
    [JSON.parse] that reads back what [JSON.stringify] wrote, the record
    the request handler stages for a page is next treated by the
    callback of the clean-up as follows.  If the API name, the URL, the
    title and the trimmed body are non-empty and the title has no
    ["404"] in it, the file moves into the dataset folder under the same
    name with the same text; otherwise (an empty body, a title such as
    ["404 Not Found"]) it is unlinked and nothing reaches the dataset
    folder. *)
Theorem staged_page_is_curated env w request page :
  let apiName := userData_apiName request in
  let name := staged_name apiName in
  let text := record_text env request page in
  JsString.contains_char "/" apiName = false ->
  stat (files w) directoryPath = Some Dir ->
  stat (files w) destinationPath = Some Dir ->
  files w !! staged name = None ->
  files w !! accepted name = None ->
  JSON_parse env text
  = Ok (pageRecord apiName (url request) (page_title page) (page_body_trimmed page)) ->
  exists w1 w2,
    requestHandler env request page w = (Ok tt, w1)
    /\ curateFile env name w1 = (Ok tt, w2)
    /\ files w2 !! staged name = None
    /\ (valid_record apiName (url request) (page_title page) (page_body_trimmed page) ->
          files w2 = <[accepted name := File text]> (files w)
          /\ console w2 = console w ++ [Scraped (url request); MovedValidFile name])
    /\ (¬ valid_record apiName (url request) (page_title page) (page_body_trimmed page) ->
          files w2 = files w
          /\ console w2 = console w ++ [Scraped (url request); DeletingInvalidFile name]).
Proof.
  intros apiName name text Hslash Hdir Hdest Hfree1 Hfree2 Hparse.
  assert (Hv : Path.valid_name name = true) by by apply staged_name_valid.
  assert (Hext : JsString.endsWith name ".json" = true).
  { apply endsWith_spec. by eexists. }
  assert (Hrun : requestHandler env request page w
                 = (Ok tt, say (Scraped (url request))
                             (set_files (<[staged name := File text]> (files w)) w))).
  { apply requestHandler_present; try done. fold apiName. fold name. congruence. }
  set (w1 := say (Scraped (url request))
               (set_files (<[staged name := File text]> (files w)) w)) in *.
  assert (Hread : readFileSync (files w1) (staged name) = Ok text).
  { apply readFileSync_Ok. rewrite stat_lookup by done. apply lookup_insert_eq. }
  assert (Hback : delete (staged name) (files w1) = files w).
  { simpl. rewrite delete_insert_eq. by apply delete_id. }
  destruct (is_invalid (pageRecord apiName (url request) (page_title page)
                          (page_body_trimmed page))) as [[|]|e] eqn:Hinv.
  - exists w1, (set_files (delete (staged name) (files w1))
                  (say (DeletingInvalidFile name) w1)).
    split_and!; try done.
    + by apply (curateFile_invalid env name w1 text
                  (pageRecord apiName (url request) (page_title page)
                     (page_body_trimmed page))).
    + simpl. apply lookup_delete_eq.
    + intros Hval%valid_record_spec. congruence.
    + intros _. split; [exact Hback|]. simpl. by rewrite <- app_assoc.
  - exists w1, (say (MovedValidFile name)
                  (set_files (<[accepted name := File text]>
                                (delete (staged name) (files w1))) w1)).
    split_and!; try done.
    + apply (curateFile_moved env name w1 text
               (pageRecord apiName (url request) (page_title page)
                  (page_body_trimmed page))); try done.
      * rewrite stat_lookup by done. simpl.
        by rewrite lookup_insert_ne by apply staged_ne_accepted.
      * rewrite stat_lookup in * by done. simpl.
        by rewrite lookup_insert_ne by done.
    + simpl. rewrite lookup_insert_ne by (symmetry; apply staged_ne_accepted).
      apply lookup_delete_eq.
    + intros _. split.
      * simpl. simpl in Hback. by rewrite Hback.
      * simpl. by rewrite <- app_assoc.
    + intros Hinv'%invalid_record_spec. congruence.
  - by rewrite is_invalid_pageRecord in Hinv.
Qed.

Lemma staged_page_is_curated_witness :
  exists w1 w2,
    requestHandler Demo.env DemoNames.gone_request DemoNames.gone_page
      DemoJson.world = (Ok tt, w1)
    /\ curateFile Demo.env "Gone_API.json" w1 = (Ok tt, w2)
    /\ files w2 = files DemoJson.world.
Proof.
  destruct (staged_page_is_curated Demo.env DemoJson.world
              DemoNames.gone_request DemoNames.gone_page
              eq_refl eq_refl eq_refl eq_refl eq_refl eq_refl)
    as (w1 & w2 & H1 & H2 & _ & _ & Hbad).
  exists w1, w2. split; [exact H1|]. split; [exact H2|].
  apply Hbad. intros (_ & _ & _ & _ & H). discriminate H.
Defined.

(** X7.  Two API names that differ only in spaces and underscores share
    one staged file: when the handler has run for both, the file holds
    the record of the second page alone, and the disk is as if the first
    call had not happened. *)
Theorem same_staged_name_last_page_wins env w request1 page1 request2 page2 :
  JsString.contains_char "/" (userData_apiName request1) = false ->
  JsString.replace_spaces (userData_apiName request1)
  = JsString.replace_spaces (userData_apiName request2) ->
  stat (files w) directoryPath = Some Dir ->
  files w !! staged (staged_name (userData_apiName request1)) ≠ Some Dir ->
  exists w1 w2,
    requestHandler env request1 page1 w = (Ok tt, w1)
    /\ requestHandler env request2 page2 w1 = (Ok tt, w2)
    /\ files w2
       = <[staged (staged_name (userData_apiName request2))
           := File (record_text env request2 page2)]> (files w)
    /\ console w2 = console w ++ [Scraped (url request1); Scraped (url request2)].
Proof.
  intros Hslash Hsame Hdir Hnodir.
  assert (Hname : staged_name (userData_apiName request2)
                  = staged_name (userData_apiName request1)).
  { unfold staged_name. by rewrite Hsame. }
  assert (Hslash2 : JsString.contains_char "/" (userData_apiName request2) = false).
  { by rewrite <- replace_spaces_slash, <- Hsame, replace_spaces_slash. }
  eexists _, _. split; [by apply requestHandler_present|].
  split.
  - apply requestHandler_present; try done.
    + simpl. rewrite stat_lookup in * by done.
      by rewrite lookup_insert_ne by (rewrite directoryPath_eq; discriminate).
    + simpl. rewrite Hname, lookup_insert_eq. done.
  - simpl. rewrite Hname, insert_insert_eq. split; [done|].
    by rewrite <- app_assoc.
Qed.

Lemma same_staged_name_last_page_wins_witness :
  exists w1 w2,
    requestHandler Demo.env DemoNames.spaced DemoNames.page1 DemoDisk.world
    = (Ok tt, w1)
    /\ requestHandler Demo.env DemoNames.underscored DemoNames.page2 w1
       = (Ok tt, w2)
    /\ files w2 !! staged "My_API.json"
       = Some (File (record_text Demo.env DemoNames.underscored DemoNames.page2)).
Proof.
  destruct (same_staged_name_last_page_wins Demo.env DemoDisk.world
              DemoNames.spaced DemoNames.page1 DemoNames.underscored
              DemoNames.page2 eq_refl eq_refl eq_refl)
    as (w1 & w2 & H1 & H2 & Hfiles & _).
  { vm_compute. discriminate. }
  exists w1, w2. split; [exact H1|]. split; [exact H2|].
  rewrite Hfiles. apply lookup_insert_eq.
Defined.

(** ** Collisions of timestamps *)

Section StampInjective.

Lemma digit_inj a b : a < 10 -> b < 10 -> JsString.digit a = JsString.digit b -> a = b.
Proof.
  intros Ha Hb H. unfold JsString.digit in H.
  apply (f_equal Ascii.nat_of_ascii) in H.
  rewrite !Ascii.nat_ascii_embedding in H by lia. lia.
Qed.

Lemma two_digits_inj a b : a < 100 -> b < 100 -> two_digits a = two_digits b -> a = b.
Proof.
  intros Ha Hb H. unfold two_digits in H. injection H as H1 H2.
  assert (a / 10 < 10) by (apply Nat.Div0.div_lt_upper_bound; lia).
  assert (b / 10 < 10) by (apply Nat.Div0.div_lt_upper_bound; lia).
  assert (a mod 10 < 10) by (apply Nat.mod_upper_bound; lia).
  assert (b mod 10 < 10) by (apply Nat.mod_upper_bound; lia).
  assert (E1 : a / 10 = b / 10) by by apply digit_inj.
  assert (E2 : a mod 10 = b mod 10) by by apply digit_inj.
  rewrite (Nat.div_mod_eq a 10), (Nat.div_mod_eq b 10). by rewrite E1, E2.
Qed.

Lemma two_digits_app_inj a b s t :
  two_digits a +:+ s = two_digits b +:+ t -> two_digits a = two_digits b /\ s = t.
Proof.
  unfold two_digits. rewrite !app_cons. intros H. injection H as H1 H2 H3.
  split; [|done]. by f_equal; [|f_equal].
Qed.

End StampInjective.

(** X8.  Two dates in their plain ranges get the same timestamp exactly
    when they agree on the month, the day, the hours, the minutes, the
    seconds and the last two digits of the year: two collisions within
    the same second get one name, and so do the same instants a century
    apart. *)
Theorem generateTimestamp_collides_only_on_same_second now1 now2 :
  plausible now1 -> plausible now2 ->
  generateTimestamp now1 = generateTimestamp now2 <->
  getMonth now1 = getMonth now2 /\ getDate now1 = getDate now2
  /\ getFullYear now1 mod 100 = getFullYear now2 mod 100
  /\ getHours now1 = getHours now2 /\ getMinutes now1 = getMinutes now2
  /\ getSeconds now1 = getSeconds now2.
Proof.
  intros Hp1 Hp2. rewrite !generateTimestamp_plausible by done.
  destruct Hp1 as (Hm1 & Hd1 & Hy1 & Hh1 & Hmi1 & Hs1).
  destruct Hp2 as (Hm2 & Hd2 & Hy2 & Hh2 & Hmi2 & Hs2).
  unfold MMDDYYHHMMSS. split.
  - intros H.
    apply two_digits_app_inj in H as [E1 H].
    apply two_digits_app_inj in H as [E2 H].
    apply two_digits_app_inj in H as [E3 H].
    apply two_digits_app_inj in H as [E4 H].
    apply two_digits_app_inj in H as [E5 E6].
    assert (getFullYear now1 mod 100 < 100) by (apply Nat.mod_upper_bound; lia).
    assert (getFullYear now2 mod 100 < 100) by (apply Nat.mod_upper_bound; lia).
    apply two_digits_inj in E1; [|lia|lia].
    apply two_digits_inj in E2; [|lia|lia].
    apply two_digits_inj in E3; [|lia|lia].
    apply two_digits_inj in E4; [|lia|lia].
    apply two_digits_inj in E5; [|lia|lia].
    apply two_digits_inj in E6; [|lia|lia].
    split_and!; [lia|done..].
  - intros (-> & -> & -> & -> & -> & ->). done.
Qed.

Lemma generateTimestamp_collides_only_on_same_second_witness :
  generateTimestamp Demo.now
  = generateTimestamp {| getMonth := 10; getDate := 2; getFullYear := 2126;
                         getHours := 9; getMinutes := 5; getSeconds := 30 |}.
Proof.
  apply generateTimestamp_collides_only_on_same_second.
  - unfold plausible, Demo.now. simpl. lia.
  - unfold plausible. simpl. lia.
  - repeat split.
Defined.

(** ** Edges of the clean-up *)

Section CleanUpEdges.

Variable env : Env.

Lemma forEach_curateFile_dataset_grows l : forall w,
  Forall (fun file => Path.valid_name file = true) l -> wf (files w) ->
  exists w1,
    forEach l (curateFile env) w = (Ok tt, w1)
    /\ forall name, is_Some (files w !! accepted name) ->
                    is_Some (files w1 !! accepted name).
Proof.
  induction l as [|g l IH]; intros w Hl Hwf.
  - by exists w.
  - apply Forall_cons in Hl as [Hv Hl]. simpl. unfold bind.
    destruct (curateFile_keeps env g w Hv Hwf) as (w1 & Hrun & Hwf1 & _).
    destruct (curateFile_shape env g w Hv Hwf) as (w1' & Hrun' & _ & _ & _ & Hshape).
    rewrite Hrun in Hrun'. injection Hrun' as <-. rewrite Hrun.
    destruct (IH w1 Hl Hwf1) as (w2 & -> & Hgrow).
    exists w2. split; [done|]. intros name Hname. apply Hgrow.
    destruct Hshape as [->|[(c & _ & ->)|(c & n & _ & _ & _ & _ & _ & ->)]].
    + done.
    + by rewrite lookup_delete_ne by apply staged_ne_accepted.
    + destruct (decide (accepted n = accepted name)) as [->|Hne].
      * rewrite lookup_insert_eq. by eexists.
      * rewrite lookup_insert_ne by done.
        by rewrite lookup_delete_ne by apply staged_ne_accepted.
Qed.


End CleanUpEdges.

(** X9.  The listing of the staging folder is not guarded.  When the
    dataset folder is there or could be made but
    [./storage/request_queues/default] is not a directory (no page was
    ever staged), normal mode throws the error of [readdirSync] out of
    [cleanUpAndMoveFiles]: nothing is printed, the call that removes
    [./storage] is never reached, and apart from dataset folders that
    were just made the disk is as it was. *)
Theorem normal_mode_throws_without_staging_folder env w fs1 :
  wf (files w) ->
  ensure_destination (files w) = Ok fs1 ->
  stat (files w) directoryPath ≠ Some Dir ->
  exists code,
    cleanUpAndMoveFiles env false w
    = (Throw (FsError code "scandir" directoryPath), set_files fs1 w)
    /\ (forall p, ¬ p `prefix_of` destinationPath -> fs1 !! p = files w !! p)
    /\ (forall p, storagePath `prefix_of` p -> fs1 !! p = files w !! p)
    /\ console (set_files fs1 w) = console w.
Proof.
  intros Hwf He Hnd.
  assert (Hsame : forall p, ¬ p `prefix_of` destinationPath -> fs1 !! p = files w !! p).
  { intros p Hp. by apply ensure_destination_lookup. }
  assert (Hstat : stat fs1 directoryPath = stat (files w) directoryPath).
  { rewrite !stat_lookup by done. apply Hsame. by intros [q [=]]. }
  rewrite cleanUp_normal_unfold, He. unfold readdirSync. rewrite Hstat.
  destruct (stat (files w) directoryPath) as [[c|]|] eqn:Hd; [|done|].
  - exists ENOTDIR. split_and!; try done.
    intros p [q ->]. apply Hsame. by intros [r [=]].
  - exists (missing_code fs1 directoryPath). split_and!; try done.
    intros p [q ->]. apply Hsame. by intros [r [=]].
Qed.

Lemma normal_mode_throws_without_staging_folder_witness :
  cleanUpAndMoveFiles Demo.env false DemoDisk.fresh
  = (Throw (FsError ENOENT "scandir" directoryPath), DemoDisk.fresh).
Proof.
  assert (Hwf : wf (files DemoDisk.fresh)).
  { apply (bool_decide_unpack _). vm_compute. exact I. }
  destruct (normal_mode_throws_without_staging_folder Demo.env DemoDisk.fresh
              (files DemoDisk.fresh) Hwf eq_refl) as (code & Hrun & _).
  { vm_compute. discriminate. }
  rewrite Hrun. apply (f_equal fst) in Hrun. vm_compute in Hrun.
  injection Hrun as <-. reflexivity.
Defined.

(** X10.  What a normal clean-up that returns leaves alone: every path
    that is neither at or below [./storage], nor an entry of the dataset
    folder, nor the dataset folder or a folder above it, is as it was;
    no name disappears from the dataset folder; no directory outside
    [./storage] is removed or replaced. *)
Theorem normal_mode_frame env w w' :
  wf (files w) ->
  cleanUpAndMoveFiles env false w = (Ok tt, w') ->
  (forall p, ¬ storagePath `prefix_of` p -> parent p ≠ destinationPath ->
             ¬ p `prefix_of` destinationPath -> files w' !! p = files w !! p)
  /\ (forall name, is_Some (files w !! accepted name) ->
                   is_Some (files w' !! accepted name))
  /\ (forall p, ¬ storagePath `prefix_of` p -> files w !! p = Some Dir ->
                files w' !! p = Some Dir).
Proof.
  intros Hwf Hrun.
  destruct (cleanUp_normal_returned env _ _ Hrun) as (fs1 & He & Hd).
  destruct (ensure_destination_spec _ _ Hwf He) as (Hwf1 & _ & Hkeep & _).
  destruct (cleanUp_normal_run env w fs1 Hwf He Hd) as (w1 & Hloop & _ & _ & Hrun1).
  rewrite Hrun in Hrun1. injection Hrun1 as ->. simpl.
  destruct (forEach_curateFile_keeps env (children fs1 directoryPath)
              (set_files fs1 w) (children_staged_valid _ Hwf1) Hwf1)
    as (w1' & Hloop' & _ & _ & _ & _ & Hframe & Hdirs).
  rewrite Hloop in Hloop'. injection Hloop' as <-. simpl in Hframe, Hdirs.
  destruct (forEach_curateFile_dataset_grows env (children fs1 directoryPath)
              (set_files fs1 w) (children_staged_valid _ Hwf1) Hwf1)
    as (w1' & Hloop' & Hgrow).
  rewrite Hloop in Hloop'. injection Hloop' as <-. simpl in Hgrow.
  assert (Hout : forall p, ¬ storagePath `prefix_of` p ->
            remove_tree (files w1) storagePath !! p = files w1 !! p).
  { intros p Hp. rewrite remove_tree_lookup. by rewrite decide_False. }
  split_and!.
  - intros p Hp Hpar Hpre. rewrite Hout by done.
    rewrite Hframe; [by apply (ensure_destination_lookup (files w))| |done].
    intros file _ ->. apply Hp. by exists ["request_queues"; "default"; file].
  - intros name [n Hn]. rewrite Hout by by intros [q [=]].
    apply Hgrow. exists n. by apply Hkeep.
  - intros p Hp Hdir. rewrite Hout by done. by apply Hdirs, Hkeep.
Qed.

Lemma normal_mode_frame_witness :
  exists w',
    cleanUpAndMoveFiles Demo.env false DemoDisk.world = (Ok tt, w')
    /\ is_Some (files w' !! accepted "Stripe_API.json")
    /\ files w' !! ["scrapers"] = Some Dir.
Proof.
  assert (Hwf : wf (files DemoDisk.world)).
  { apply (bool_decide_unpack _). vm_compute. exact I. }
  destruct (cleanUp_normal_run Demo.env DemoDisk.world DemoDisk.disk Hwf
              eq_refl eq_refl) as (w1 & _ & _ & _ & Hrun).
  destruct (normal_mode_frame Demo.env DemoDisk.world _ Hwf Hrun)
    as (_ & Hgrow & Hdirs).
  eexists. split; [exact Hrun|]. split.
  - apply Hgrow. by eexists.
  - apply Hdirs; [|reflexivity]. by intros [q [=]].
Defined.

(** X11.  The rename onto the name with the timestamp is not guarded by
    an [existsSync]: when a valid record's own name is taken and a
    regular file already has the timestamped name too, the callback
    replaces that file with the incoming one, and prints the same line as
    for a fresh name. *)
Theorem renamed_replaces_file_of_that_name env w file text data old other :
  wf (files w) ->
  files w !! staged file = Some (File text) ->
  JsString.endsWith file ".json" = true ->
  JSON_parse env text = Ok data ->
  is_invalid data = Ok false ->
  files w !! accepted file = Some old ->
  files w !! accepted (renamed env (dates_taken w) file) = Some (File other) ->
  exists w',
    curateFile env file w = (Ok tt, w')
    /\ files w' !! accepted (renamed env (dates_taken w) file) = Some (File text)
    /\ files w' !! accepted file = Some old
    /\ console w' = console w ++ [MovedAndRenamed (renamed env (dates_taken w) file)]
    /\ (forall p, p ≠ staged file ->
          p ≠ accepted (renamed env (dates_taken w) file) ->
          files w' !! p = files w !! p).
Proof.
  intros Hwf Hfile Hext Hparse Hvalid Hold Htwin.
  assert (Hv : Path.valid_name file = true).
  { apply (staged_valid (files w)); [done|]. by eexists. }
  eexists. split.
  { apply (curateFile_renamed env file w text data); try done.
    - apply readFileSync_Ok. by rewrite stat_lookup.
    - rewrite stat_lookup by done. congruence.
    - rewrite stat_lookup by done. congruence.
    - by apply (wf_parent_dir (files w) destinationPath file old). }
  simpl. split_and!; try done.
  - apply lookup_insert_eq.
  - rewrite lookup_insert_ne, lookup_delete_ne;
      [done|apply staged_ne_accepted|].
    intros E%accepted_inj. by apply (renamed_ne env (dates_taken w) file).
  - intros p Hp1 Hp2. by rewrite lookup_insert_ne, lookup_delete_ne.
Qed.

Lemma renamed_replaces_file_of_that_name_witness :
  exists w',
    curateFile Demo.env "Stripe_API.json" DemoClash.world = (Ok tt, w')
    /\ files DemoClash.world !! accepted "Stripe_API_110226090530.json"
       = Some (File DemoClash.twin)
    /\ files w' !! accepted "Stripe_API_110226090530.json"
       = Some (File (Demo.stringify Demo.stripe_record)).
Proof.
  assert (Hwf : wf (files DemoClash.world)).
  { apply (bool_decide_unpack _). vm_compute. exact I. }
  destruct (renamed_replaces_file_of_that_name Demo.env DemoClash.world
              "Stripe_API.json" (Demo.stringify Demo.stripe_record)
              Demo.stripe_record (File DemoDisk.older) DemoClash.twin
              Hwf eq_refl eq_refl eq_refl eq_refl eq_refl eq_refl)
    as (w' & Hrun & Hnew & _).
  exists w'. split; [exact Hrun|]. split; [reflexivity|exact Hnew].
Defined.



(** ** Accounts of the enqueueing *)

Section Accounts.

Variable env : Env.

Lemma canScrape_lines url w :
  exists v w' lines,
    canScrape env url w = (Ok v, w')
    /\ console w' = console w ++ lines
    /\ List.filter is_enqueued_line lines = []
    /\ List.filter is_skip_line lines = []
    /\ requests w' = requests w.
Proof.
  unfold canScrape, try_catch, bind, lift, ret, print.
  destruct (robots_href env url) as [r|e]; simpl.
  2:{ eexists _, _, [_]. split; [reflexivity|]. done. }
  destruct (fetch env r) as [resp|e]; simpl.
  2:{ eexists _, _, [_]. split; [reflexivity|]. done. }
  destruct (ok resp); simpl.
  - destruct (text resp) as [t|e]; simpl.
    + eexists _, _, []. split; [reflexivity|]. by rewrite app_nil_r.
    + eexists _, _, [_]. split; [reflexivity|]. done.
  - eexists _, _, [_]. split; [reflexivity|]. done.
Qed.

Lemma checkAndEnqueueOne_lines n api w :
  exists n' w' lines,
    checkAndEnqueueOne env n api w = (Ok n', w')
    /\ console w' = console w ++ lines
    /\ length (List.filter is_enqueued_line lines)
       + length (List.filter is_skip_line lines) = 1
    /\ n' = n + length (List.filter is_enqueued_line lines)
    /\ length (requests w') = length (requests w) + (n' - n).
Proof.
  unfold checkAndEnqueueOne, bind.
  destruct (canScrape_lines (Official_Documentation_URL api) w)
    as (v & w0 & lines0 & -> & Hc0 & He0 & Hs0 & Hr0).
  destruct (truthy v); simpl.
  - eexists _, _, (lines0 ++ [Enqueued (Official_Documentation_URL api)]).
    split; [reflexivity|]. simpl.
    rewrite !List.filter_app, He0, Hs0, Hc0, Hr0, length_app. simpl.
    rewrite <- app_assoc. split_and!; try done; rewrite ?length_app; simpl; lia.
  - eexists _, _, (lines0 ++ [SkippingNotAllowed (Official_Documentation_URL api)]).
    split; [reflexivity|]. simpl.
    rewrite !List.filter_app, He0, Hs0, Hc0, Hr0. simpl.
    rewrite <- app_assoc. split_and!; try done; rewrite ?length_app; simpl; lia.
Qed.

Lemma foldM_accounts l : forall n w,
  exists count w' lines,
    foldM (checkAndEnqueueOne env) l n w = (Ok count, w')
    /\ console w' = console w ++ lines
    /\ count = n + length (List.filter is_enqueued_line lines)
    /\ length (List.filter is_enqueued_line lines)
       + length (List.filter is_skip_line lines) = length l
    /\ length (requests w') = length (requests w) + (count - n).
Proof.
  induction l as [|api l IH]; intros n w.
  - exists n, w, []. simpl. unfold ret. rewrite app_nil_r.
    split_and!; try done; lia.
  - simpl. unfold bind.
    destruct (checkAndEnqueueOne_lines n api w)
      as (n1 & w1 & lines1 & -> & Hc1 & Hone & Hn1 & Hr1).
    destruct (IH n1 w1) as (count & w' & lines & -> & Hc & Hn & Hlen & Hr).
    exists count, w', (lines1 ++ lines). split; [done|].
    rewrite !List.filter_app, !length_app, Hc, Hc1, Hr, Hr1.
    rewrite <- app_assoc. split_and!; try done; lia.
Qed.

End Accounts.

(** X13.  [checkRobotsAndEnqueue] loses no entry and settles each once:
    it never throws, and on the console every entry of the catalog ends
    in exactly one of the two lines, the one for an enqueued URL or the
    one for a skipped URL.  The count it returns is the number of lines
    for enqueued URLs and the number of requests added to the queue;
    together with the number of skip lines it makes the length of the
    catalog. *)
Theorem checkRobotsAndEnqueue_accounts env completion w :
  exists count w' lines,
    checkRobotsAndEnqueue env completion w = (Ok count, w')
    /\ console w' = console w ++ lines
    /\ count = length (List.filter is_enqueued_line lines)
    /\ count + length (List.filter is_skip_line lines) = length completion
    /\ length (requests w') = length (requests w) + count
    /\ count <= length completion.
Proof.
  destruct (foldM_accounts env completion 0 w)
    as (count & w' & lines & Hrun & Hc & Hn & Hlen & Hr).
  exists count, w', lines. split_and!; try done; lia.
Qed.

(** ** The name of the staged file *)



(** ** Folders inside the staging folder *)

(** X15.  The loop is not recursive.  A folder that sits in the staging
    folder is never entered: when its name does not end in [.json] the
    callback passes over it, when it does the read fails with EISDIR and
    the callback reports it; either way the folder and everything below
    it are on the disk unchanged when the loop is over. *)
Theorem staging_subfolder_untouched_by_loop env w sub l :
  wf (files w) ->
  files w !! staged sub = Some Dir ->
  Forall (fun file => Path.valid_name file = true) l ->
  (JsString.endsWith sub ".json" = false -> curateFile env sub w = (Ok tt, w))
  /\ (JsString.endsWith sub ".json" = true ->
      curateFile env sub w
      = (Ok tt, say (ErrorReadingOrParsing sub (FsError EISDIR "read" (staged sub))) w))
  /\ exists w1,
      forEach l (curateFile env) w = (Ok tt, w1)
      /\ forall q, files w1 !! (staged sub ++ q) = files w !! (staged sub ++ q).
Proof.
  intros Hwf Hsub Hl.
  assert (Hv : Path.valid_name sub = true).
  { apply (staged_valid (files w)); [done|]. by eexists. }
  assert (Hjson : forall w0, files w0 !! staged sub = Some Dir ->
            JsString.endsWith sub ".json" = true ->
            curateFile env sub w0
            = (Ok tt, say (ErrorReadingOrParsing sub
                             (FsError EISDIR "read" (staged sub))) w0)).
  { intros w0 Hw0 Hext. apply curateFile_unreadable; try done.
    unfold readFileSync. rewrite stat_lookup by done. by rewrite Hw0. }
  split_and!.
  - by apply curateFile_other.
  - by apply Hjson.
  - destruct (forEach_curateFile_left env (fun _ => True) l w sub Hl Hwf)
      as (w1 & Hrun & Hsame & _).
    { done. }
    { intros w0 Hw0 _. rewrite Hsub in Hw0.
      destruct (JsString.endsWith sub ".json") eqn:Hext.
      - by rewrite Hjson.
      - by rewrite curateFile_other. }
    destruct (forEach_curateFile_keeps env l w Hl Hwf)
      as (w1' & Hrun' & _ & _ & _ & _ & Hframe & _).
    rewrite Hrun in Hrun'. injection Hrun' as <-.
    exists w1. split; [done|]. intros q.
    destruct q as [|n q] using rev_ind.
    + by rewrite app_nil_r.
    + apply Hframe.
      * intros file _ E. apply (f_equal length) in E. unfold staged in E.
        rewrite !length_app in E. simpl in E. lia.
      * rewrite app_assoc, parent_snoc. unfold staged.
        rewrite directoryPath_eq, destinationPath_eq. discriminate.
Qed.

Lemma staging_subfolder_untouched_by_loop_witness :
  curateFile DemoJson.env "folder.json" DemoJson.world
  = (Ok tt, say (ErrorReadingOrParsing "folder.json"
                   (FsError EISDIR "read" (staged "folder.json"))) DemoJson.world).
Proof.
  assert (Hwf : wf (files DemoJson.world)).
  { apply (bool_decide_unpack _). vm_compute. exact I. }
  destruct (staging_subfolder_untouched_by_loop DemoJson.env DemoJson.world
              "folder.json" [] Hwf eq_refl (Forall_nil_2 _)) as (_ & Hjson & _).
  by apply Hjson.
Defined.

(** ** The run as a whole *)

Section WholeRun.

Variable env : Env.

Lemma cleanUp_keeps_counters mode w r w' :
  wf (files w) -> cleanUpAndMoveFiles env mode w = (r, w') ->
  requests w' = requests w /\ crawler_runs w' = crawler_runs w.
Proof.
  intros Hwf. destruct mode.
  - destruct (cleanUp_zero_run env w) as (w1 & -> & H1 & H2 & _).
    by intros [= <- <-].
  - rewrite cleanUp_normal_unfold.
    destruct (ensure_destination (files w)) as [fs1|e] eqn:He.
    2:{ by intros [= <- <-]. }
    destruct (ensure_destination_spec _ _ Hwf He) as (Hwf1 & _).
    destruct (readdirSync fs1 directoryPath) as [names|e] eqn:Hr.
    2:{ by intros [= <- <-]. }
    apply readdirSync_Ok in Hr as [_ ->].
    destruct (forEach_curateFile_keeps env (children fs1 directoryPath)
                (set_files fs1 w) (children_staged_valid _ Hwf1) Hwf1)
      as (w1 & -> & _ & H1 & H2 & _).
    destruct (removeStorage_spec DeletedStorageAfterMoving w1)
      as (w2 & -> & H3 & H4 & _).
    intros [= <- <-]. simpl in *. split; congruence.
Qed.

End WholeRun.

(** X16.  A run with a catalog calls [crawler.run()] once when at least
    one entry was allowed and not at all otherwise, never twice; the
    queue has grown by the requests of the allowed entries, whether the
    run returns or throws.  With no entry allowed the run always returns.
    The closing line of the script is printed exactly when [scrapeDocs]
    returns.  With a catalog that could not be read the run throws at
    once: no robots check, no crawl, no clean-up, nothing printed. *)
Theorem scrapeDocs_runs_crawler_at_most_once env apis completion w r w' :
  wf (files w) ->
  completion apis ≡ₚ apis ->
  scrapeDocs env (Ok apis) completion w = (r, w') ->
  let allowed := filter (fun api => resolves_to_allow env api = true) apis in
  crawler_runs w' = crawler_runs w + (if decide (allowed = []) then 0 else 1)
  /\ (exists added, requests w' = requests w ++ added
                    /\ added ≡ₚ map request_of allowed)
  /\ (allowed = [] -> r = Ok tt)
  /\ main env (Ok apis) completion w
     = match r with
       | Ok _ => (Ok tt, say ScrapingCompleted w')
       | Throw e => (Throw e, w')
       end
  /\ (forall e, main env (Throw e) completion w = (Throw e, w)).
Proof.
  intros Hwf Hperm Hrun allowed.
  assert (Hmain : main env (Ok apis) completion w
     = match r with
       | Ok _ => (Ok tt, say ScrapingCompleted w')
       | Throw e => (Throw e, w')
       end).
  { unfold main, bind. rewrite Hrun. by destruct r as [[]|e]. }
  rewrite scrapeDocs_unfold in Hrun.
  destruct (foldM_checkAndEnqueueOne env (completion apis) 0
              (say (LoadedApis (length apis)) w))
    as (w1 & Hcheck & Hreq & Hf & Hcr & _).
  rewrite Nat.add_0_l in Hcheck.
  unfold checkRobotsAndEnqueue in Hrun. rewrite Hcheck in Hrun.
  cbv beta iota in Hrun. simpl in Hreq, Hf, Hcr.
  assert (Hfp : filter (fun api => resolves_to_allow env api = true) (completion apis)
                ≡ₚ allowed) by (subst allowed; by rewrite Hperm).
  assert (Hadded : exists added, requests w1 = requests w ++ added
                                 /\ added ≡ₚ map request_of allowed).
  { eexists. split; [exact Hreq|]. by rewrite Hfp. }
  assert (Hlen : length (filter (fun api => resolves_to_allow env api = true)
                           (completion apis)) = length allowed) by by rewrite Hfp.
  rewrite Hlen in Hrun.
  destruct (decide (allowed = [])) as [Hnone|Hsome].
  - rewrite Hnone in Hrun.
    change (length (@nil Api) =? 0) with true in Hrun. cbv beta iota in Hrun.
    destruct (cleanUp_zero_run env (say NoRequestsEnqueued w1))
      as (w2 & Hz & Hr2 & Hc2 & _).
    rewrite Hz in Hrun. injection Hrun as <- <-. simpl in Hr2, Hc2.
    split_and!; try done.
    + rewrite Hc2, Hcr. lia.
    + by rewrite Hr2.
  - destruct (length allowed =? 0) eqn:E.
    { apply Nat.eqb_eq, length_zero_iff_nil in E. done. }
    destruct (crawler_run_keeps env w1) as (w2 & Hcrawl & Hwf2 & Hr2 & Hc2).
    { by rewrite Hf. }
    rewrite Hcrawl in Hrun.
    destruct (cleanUp_keeps_counters env false w2 r w' Hwf2 Hrun) as [Hr3 Hc3].
    split_and!; try done.
    + rewrite Hc3, Hc2, Hcr. lia.
    + by rewrite Hr3, Hr2.
Qed.

Lemma scrapeDocs_runs_crawler_at_most_once_witness :
  exists r w',
    scrapeDocs Demo.env (Ok [Demo.stripe; Demo.closed]) (fun l => l) DemoDisk.world
    = (r, w')
    /\ crawler_runs w' = 1
    /\ requests w' = [request_of Demo.stripe].
Proof.
  assert (Hwf : wf (files DemoDisk.world)).
  { apply (bool_decide_unpack _). vm_compute. exact I. }
  destruct (scrapeDocs Demo.env (Ok [Demo.stripe; Demo.closed]) (fun l => l)
              DemoDisk.world) as [r w'] eqn:Hrun.
  destruct (scrapeDocs_runs_crawler_at_most_once Demo.env
              [Demo.stripe; Demo.closed] (fun l => l) DemoDisk.world r w'
              Hwf (Permutation_refl _) Hrun)
    as (Hruns & (added & Hreq & Hadded) & _).
  exists r, w'. split; [reflexivity|]. split; [exact Hruns|].
  rewrite Hreq. apply Permutation_singleton_r in Hadded. by rewrite Hadded.
Defined.
